(** * import-data-generator: schema extraction, generation and validation

    A shallow embedding of the two programs of the repository:

    - [main.go]: the delegated generator ([GenerateData]), the struct
      extractor ([extractStructDefs]) and the per-file driver
      ([ProcessModel]);
    - the customer variant: the deterministic generator
      ([generateCustomer]) built on gofakeit, with the same extractor;
    - the callers ([ProcessInputFolder], [processCustomer]) and the body
      of the exporter ([SaveToExcel]), which both programs share.

    Go maps are [gmap]s; the unspecified iteration order of [range] over a
    map is an arbitrary enumeration of the map's entries ([MapRange]).
    Library calls that the repository does not define (the Go parser and
    printer, the JSON decoder, the text-generation backend, the spreadsheet
    writer, gofakeit) are interfaces whose operations are arbitrary
    functions; effects are recorded in a chronological trace of events. *)

From stdpp Require Import gmap strings list fin_maps.
From Stdlib Require Import ZArith Ascii.
From Stdlib Require String.
From stdpp Require Import pretty.

Set Warnings "-register-all".

(* ===================================================================== *)
(** * Go's [strings] package, as far as the sources use it *)
(* ===================================================================== *)

Module GoStrings.

(** The characters that cannot be typed inside a literal here. *)
Definition dquote : string := String "034"%char "".
Definition newline : string := String "010"%char "".

(** [stripPrefix p s = Some r] iff [s = p ++ r]. *)
Fixpoint stripPrefix (p s : string) : option string :=
  match p with
  | EmptyString => Some s
  | String a p' =>
      match s with
      | EmptyString => None
      | String b s' => if Ascii.eqb a b then stripPrefix p' s' else None
      end
  end.

(** [stripSuffix p s = Some r] iff [s = r ++ p]. *)
Fixpoint stripSuffix (p s : string) : option string :=
  if String.eqb s p then Some EmptyString
  else match s with
       | EmptyString => None
       | String c s' => String c <$> stripSuffix p s'
       end.

Definition HasPrefix (s prefix : string) : bool :=
  bool_decide (is_Some (stripPrefix prefix s)).
Definition HasSuffix (s suffix : string) : bool :=
  bool_decide (is_Some (stripSuffix suffix s)).

(** [strings.TrimPrefix], [strings.TrimSuffix]: remove one occurrence. *)
Definition TrimPrefix (s prefix : string) : string :=
  default s (stripPrefix prefix s).
Definition TrimSuffix (s suffix : string) : string :=
  default s (stripSuffix suffix s).

Fixpoint Contains (s substr : string) : bool :=
  if HasPrefix s substr then true
  else match s with
       | EmptyString => false
       | String _ s' => Contains s' substr
       end.

(** [asciiSpace] of the Go library: tab, LF, VT, FF, CR and space. *)
Definition asciiSpace (c : ascii) : bool :=
  match c with
  | "009" | "010" | "011" | "012" | "013" | " " => true
  | _ => false
  end%char.

(** [c >= utf8.RuneSelf]: the byte starts or continues a multi-byte rune. *)
Definition nonASCII (c : ascii) : bool := (128 <=? N_of_ascii c)%N.

Fixpoint lastByte (s : string) : option ascii :=
  match s with
  | EmptyString => None
  | String c EmptyString => Some c
  | String _ s' => lastByte s'
  end.

(** [s[:stop]] after the backward scan over ASCII white space. *)
Fixpoint dropRightAsciiSpace (s : string) : string :=
  match s with
  | EmptyString => EmptyString
  | String c s' =>
      match dropRightAsciiSpace s' with
      | EmptyString => if asciiSpace c then EmptyString else String c EmptyString
      | r => String c r
      end
  end.

(** The Unicode-aware slow paths of [TrimSpace], which the library takes
    as soon as a scan meets a byte outside ASCII. *)
Class Unicode := {
  TrimFunc_IsSpace : string → string;
  TrimRightFunc_IsSpace : string → string
}.

Section TrimSpace.
Context `{Unicode}.

Definition trimSpaceRight (s : string) : string :=
  let r := dropRightAsciiSpace s in
  match lastByte r with
  | Some c => if nonASCII c then TrimRightFunc_IsSpace r else r
  | None => r
  end.

(** [strings.TrimSpace]: the forward scan, then the backward one. *)
Fixpoint TrimSpace (s : string) : string :=
  match s with
  | EmptyString => EmptyString
  | String c s' =>
      if nonASCII c then TrimFunc_IsSpace s
      else if asciiSpace c then TrimSpace s'
      else trimSpaceRight s
  end.
End TrimSpace.

(** [strings.Trim(s, cutset)] for a cutset of one ASCII byte. *)
Fixpoint trimLeftByte (s : string) (c : ascii) : string :=
  match s with
  | EmptyString => EmptyString
  | String b s' => if Ascii.eqb b c then trimLeftByte s' c else s
  end.

Fixpoint trimRightByte (s : string) (c : ascii) : string :=
  match s with
  | EmptyString => EmptyString
  | String b s' =>
      match trimRightByte s' c with
      | EmptyString => if Ascii.eqb b c then EmptyString else String b EmptyString
      | r => String b r
      end
  end.

Definition Trim (s : string) (c : ascii) : string :=
  trimLeftByte (trimRightByte s c) c.

(** [strings.Split(s, sep)] for a non-empty separator: [cur] is the piece
    being read, reversed; [skip] counts the bytes of a separator still to
    pass over. *)
Fixpoint splitGo (sep : string) (skip : nat) (cur : string) (s : string)
  : list string :=
  match s with
  | EmptyString => [String.rev cur]
  | String c s' =>
      match skip with
      | S k => splitGo sep k cur s'
      | O =>
          if HasPrefix s sep
          then String.rev cur :: splitGo sep (String.length sep - 1) EmptyString s'
          else splitGo sep 0 (String c cur) s'
      end
  end.

Definition Split (s sep : string) : list string := splitGo sep 0 EmptyString s.

(** [s[:hi]] and [s[lo:]]: slicing past the end of a string panics. *)
Fixpoint sliceTo (s : string) (hi : nat) : option string :=
  match hi with
  | O => Some EmptyString
  | S hi' =>
      match s with
      | EmptyString => None
      | String c s' => String c <$> sliceTo s' hi'
      end
  end.

Fixpoint sliceFrom (s : string) (lo : nat) : option string :=
  match lo with
  | O => Some s
  | S lo' =>
      match s with
      | EmptyString => None
      | String _ s' => sliceFrom s' lo'
      end
  end.

(** Vocabulary for statements about texts. *)
Definition firstByte (s : string) : option ascii :=
  match s with
  | EmptyString => None
  | String c _ => Some c
  end.

Fixpoint allAsciiSpace (s : string) : bool :=
  match s with
  | EmptyString => true
  | String c s' => asciiSpace c && allAsciiSpace s'
  end.

(** Byte [c] occurs in [s]. *)
Fixpoint hasByte (c : ascii) (s : string) : bool :=
  match s with
  | EmptyString => false
  | String b s' => Ascii.eqb b c || hasByte c s'
  end.

(** The test of line 130: the text opens and closes with brackets. *)
Definition bracketed (s : string) : bool :=
  HasPrefix s "[" && HasSuffix s "]".

End GoStrings.

(* ===================================================================== *)
(** * Iteration over Go maps *)
(* ===================================================================== *)

(** [for k, v := range m] visits every entry once, in an order the language
    leaves open. The order is taken as a function of the map; the statements
    below hold for every such function. *)
Class MapRange := {
  range_order : ∀ {A : Type}, gmap string A → list (string * A);
  range_order_perm : ∀ (A : Type) (m : gmap string A),
      range_order m ≡ₚ map_to_list m
}.

(** One such order: the one of [map_to_list]. *)
Definition listedRange : MapRange :=
  {| range_order := λ A m, map_to_list m;
     range_order_perm := λ A m, reflexivity (map_to_list m) |}.

(** A loop body that may [return] an error: the first error ends the loop. *)
Fixpoint firstError {A E : Type} (body : A → option E) (l : list A) : option E :=
  match l with
  | [] => None
  | x :: l' =>
      match body x with
      | Some e => Some e
      | None => firstError body l'
      end
  end.

(* ===================================================================== *)
(** * Data model *)
(* ===================================================================== *)

(** The dynamic values a row holds ([interface{}]): what the JSON decoder
    produces, and what the deterministic generator stores. A number is a
    [float64] from the decoder or an [int] from gofakeit; no code path
    studied here looks inside a value other than to tell objects apart. *)
Inductive Value : Type :=
| VNull
| VBool (b : bool)
| VNumber (n : Z)
| VString (s : string)
| VArray (l : list Value)
| VObject (m : gmap string Value).

(** [type GeneratedRow map[string]interface{}] *)
Abbreviation GeneratedRow := (gmap string Value).

Record FieldInfo := {
  Type_ : string;
  JSONTag : string
}.

Record StructInfo := {
  Def : string;
  Fields : gmap string FieldInfo;
  IsNested : bool
}.

(** [nestedInfo.IsNested = true] on a copy of the entry. *)
Definition setNested (info : StructInfo) : StructInfo :=
  {| Def := Def info; Fields := Fields info; IsNested := true |}.

(** The zero value that a lookup of an absent key yields. *)
Definition zeroStructInfo : StructInfo :=
  {| Def := EmptyString; Fields := ∅; IsNested := false |}.

Definition lookupStruct (structInfos : gmap string StructInfo) (name : string)
  : StructInfo :=
  default zeroStructInfo (structInfos !! name).

(* ===================================================================== *)
(** * The part of [go/ast] that the extractor inspects *)
(* ===================================================================== *)

Module ast.

Inductive Token := IMPORT | CONST | TYPE | VAR.

Inductive Expr : Type :=
| Ident (Name : string)
| SelectorExpr (X : Expr) (Sel : string)
| StructType (List : list Field)
| OtherExpr
with Field : Type :=
| mkField (Names : list string) (Typ : Expr) (Tag : option string).

Definition Names (f : Field) : list string :=
  match f with mkField names _ _ => names end.
Definition Typ (f : Field) : Expr :=
  match f with mkField _ typ _ => typ end.
Definition Tag (f : Field) : option string :=
  match f with mkField _ _ tag => tag end.

Record TypeSpec := { Name : string; SpecType : Expr }.

Inductive Spec :=
| TypeSpecOf (ts : TypeSpec)
| ImportSpec
| ValueSpec.

Inductive Decl :=
| GenDecl (Tok : Token) (Specs : list Spec)
| FuncDecl
| BadDecl.

End ast.

(** [parser.ParseFile] and [printer.Fprint]: either an error text or a
    result. *)
Class GoSyntax := {
  ParseFile : string → string + list ast.Decl;
  Fprint : ast.TypeSpec → string + string
}.

(* ===================================================================== *)
(** * Events, errors and the trace monad *)
(* ===================================================================== *)

(** A backend reply holds candidates; a candidate holds the parts of its
    content; a part is text or something else. *)
Inductive Part := TextPart (text : string) | OtherPart.
Record CandidateContent := { Parts : list Part }.
Record Candidate := { Content : CandidateContent }.
Record GenerateContentResponse := { Candidates : list Candidate }.

(** The errors [extractStructDefs] returns. *)
Inductive ExtractError :=
| ParseFailed (err : string)
| NoStructDefinitions (inputPath : string).

(** The errors [GenerateData] returns, one constructor per [fmt.Errorf]. *)
Inductive GenError :=
| BackendFailed (structName : string) (attempts : nat) (err : string)
| ParseJSONFailed (structName err content : string)
| UnexpectedFormat (structName : string)
| NoValidResponse (structName : string)
| RowCount (structName : string) (got : nat)
| MissingField (row : nat) (structName jsonTag : string)
| InvalidNested (row : nat) (structName jsonTag : string) (got : Value)
| MissingNestedField (row : nat) (structName jsonTag nestedJsonTag : string).

(** The lines written with [log.Printf], one constructor per call site. *)
Inductive LogMsg :=
| LogPrintFailed (structName err : string)
| LogAttemptFailed (attempt : nat) (structName err : string)
| LogRawResponse (structName content : string)
| LogCleaned (structName content : string)
| LogProcessingFile (inputPath : string)
| LogSkipping (structName : string)
| LogProcessing (structName : string)
| LogGenerateFailed (structName : string) (err : GenError)
| LogSaveFailed (structName err : string)
| LogGenerated (outputPath : string).

Inductive Event :=
| EvLog (msg : LogMsg)
| EvParseFile (inputPath : string)
| EvGenerateContent (prompt : string)
| EvSleep (nanoseconds : Z)
| EvSaveToExcel (structName : string) (rows : list GeneratedRow)
                (outputPath : string).

(** A computation reads the events so far and extends them. *)
Definition M (A : Type) : Type := list Event → A * list Event.

#[global] Instance M_ret : MRet M := λ A a tr, (a, tr).
#[global] Instance M_bind : MBind M :=
  λ A B k m tr, let '(a, tr') := m tr in k a tr'.

Definition emit (e : Event) : M unit := λ tr, (tt, tr ++ [e]).
Definition logPrintf (msg : LogMsg) : M unit := emit (EvLog msg).

(** Run a loop body over a list, left to right. *)
Fixpoint forEach {A} (body : A → M unit) (l : list A) : M unit :=
  match l with
  | [] => mret tt
  | x :: l' => body x;; forEach body l'
  end.

(* ===================================================================== *)
(** * Schema extractor: [extractStructDefs] *)
(* ===================================================================== *)

Section Extractor.
Context `{MapRange} `{GoSyntax}.
Import GoStrings.

(** The [switch] on the field's type: a name, a qualified name (empty
    when the qualifier is not an identifier), or no entry at all. *)
Definition fieldTypeOf (ty : ast.Expr) : option string :=
  match ty with
  | ast.Ident name => Some name
  | ast.SelectorExpr (ast.Ident x) sel => Some (x +:+ "." +:+ sel)
  | ast.SelectorExpr _ _ => Some EmptyString
  | _ => None
  end.

Definition firstPiece (pieces : list string) : string :=
  match pieces with
  | piece :: _ => piece
  | [] => EmptyString
  end.

(** The JSON tag: the field name unless the tag literal carries a
    [json:] key, whose value is cut at the first comma. *)
Definition jsonTagOf (name : string) (tagLit : option string) : string :=
  match tagLit with
  | None => name
  | Some value =>
      let tag := Trim value "`"%char in
      match Split tag ("json:" +:+ dquote) with
      | _ :: part1 :: _ =>
          let jsonTag := firstPiece (Split part1 dquote) in
          firstPiece (Split jsonTag ",")
      | _ => name
      end
  end.

Definition addNames (field : ast.Field)
    (fields : gmap string FieldInfo) : gmap string FieldInfo :=
  foldl (λ fields name,
           match fieldTypeOf (ast.Typ field) with
           | Some fieldType =>
               <[name := {| Type_ := fieldType;
                            JSONTag := jsonTagOf name (ast.Tag field) |}]> fields
           | None => fields
           end)
        fields (ast.Names field).

Definition collectFields (fieldList : list ast.Field) : gmap string FieldInfo :=
  foldl (λ fields field, addNames field fields) ∅ fieldList.

(** The state of the first pass: the map built so far and the lines
    logged. *)
Definition addSpec (acc : gmap string StructInfo * list LogMsg)
    (spec : ast.Spec) : gmap string StructInfo * list LogMsg :=
  match spec with
  | ast.TypeSpecOf typeSpec =>
      match ast.SpecType typeSpec with
      | ast.StructType fieldList =>
          match Fprint typeSpec with
          | inl err =>
              (acc.1, acc.2 ++ [LogPrintFailed (ast.Name typeSpec) err])
          | inr buf =>
              (<[ast.Name typeSpec :=
                   {| Def := buf;
                      Fields := collectFields fieldList;
                      IsNested := false |}]> acc.1,
               acc.2)
          end
      | _ => acc
      end
  | _ => acc
  end.

Definition addDecl (acc : gmap string StructInfo * list LogMsg)
    (decl : ast.Decl) : gmap string StructInfo * list LogMsg :=
  match decl with
  | ast.GenDecl ast.TYPE specs => foldl addSpec acc specs
  | _ => acc
  end.

Definition firstPass (decls : list ast.Decl)
  : gmap string StructInfo * list LogMsg :=
  foldl addDecl (∅, []) decls.

(** The body of the innermost loop of the second pass. *)
Definition markNested (structInfos : gmap string StructInfo)
    (fieldType : string) : gmap string StructInfo :=
  match structInfos !! fieldType with
  | Some nestedInfo => <[fieldType := setNested nestedInfo]> structInfos
  | None => structInfos
  end.

Definition markFields (structInfos : gmap string StructInfo)
    (fields : gmap string FieldInfo) : gmap string StructInfo :=
  foldl (λ acc entry, markNested acc (Type_ entry.2))
        structInfos (range_order fields).

(** The second pass ranges over the map it updates: the keys stay the
    same, and each visit reads the entry as it is then. *)
Definition secondPass (structInfos : gmap string StructInfo)
  : gmap string StructInfo :=
  foldl (λ acc name,
           match acc !! name with
           | Some info => markFields acc (Fields info)
           | None => acc
           end)
        structInfos (range_order structInfos).*1.

Definition extractStructDefs (inputPath : string)
  : M (ExtractError + gmap string StructInfo) :=
  emit (EvParseFile inputPath);;
  match ParseFile inputPath with
  | inl err => mret (inl (ParseFailed err))
  | inr decls =>
      let '(structInfos, logs) := firstPass decls in
      forEach logPrintf logs;;
      let structInfos := secondPass structInfos in
      if bool_decide (size structInfos = 0)
      then mret (inl (NoStructDefinitions inputPath))
      else mret (inr structInfos)
  end.

End Extractor.

(* ===================================================================== *)
(** * Row validator (the schema check that ends [GenerateData]) *)
(* ===================================================================== *)

(** What a function hands back: a value, an error, or a run-time panic. *)
Inductive Outcome (E A : Type) : Type :=
| Ok (a : A)
| Err (e : E)
| Panic.
Arguments Ok {E A} a.
Arguments Err {E A} e.
Arguments Panic {E A}.

(** [jsonTag := fieldInfo.JSONTag; if jsonTag == "" { jsonTag = fieldName }] *)
Definition wireName (fieldName : string) (fieldInfo : FieldInfo) : string :=
  if bool_decide (JSONTag fieldInfo = EmptyString) then fieldName
  else JSONTag fieldInfo.

Section Validator.
Context `{MapRange}.
Import GoStrings.

(** The loop over the fields of the nested struct, for row [i]. *)
Definition validateNested (i : nat) (structName jsonTag : string)
    (nested : gmap string Value) (nestedFields : gmap string FieldInfo)
  : option GenError :=
  firstError
    (λ entry : string * FieldInfo,
       let nestedJsonTag := wireName entry.1 entry.2 in
       match nested !! nestedJsonTag with
       | None =>
           if negb (Contains (JSONTag entry.2) "omitempty")
           then Some (MissingNestedField (i + 1) structName jsonTag nestedJsonTag)
           else None
       | Some _ => None
       end)
    (range_order nestedFields).

(** The body of the loop over the fields of the current struct. *)
Definition validateField (structInfos : gmap string StructInfo)
    (i : nat) (structName : string) (row : GeneratedRow)
    (entry : string * FieldInfo) : option GenError :=
  let jsonTag := wireName entry.1 entry.2 in
  match row !! jsonTag with
  | None => Some (MissingField (i + 1) structName jsonTag)
  | Some value =>
      match structInfos !! Type_ entry.2 with
      | Some nestedInfo =>
          match value with
          | VObject nested =>
              validateNested i structName jsonTag nested (Fields nestedInfo)
          | _ => Some (InvalidNested (i + 1) structName jsonTag value)
          end
      | None => None
      end
  end.

Definition validateRow (structInfos : gmap string StructInfo)
    (structName : string) (i : nat) (row : GeneratedRow) : option GenError :=
  firstError (validateField structInfos i structName row)
             (range_order (Fields (lookupStruct structInfos structName))).

(** [for i, row := range rows], with [i] counted from [start]. *)
Fixpoint validateFrom (structInfos : gmap string StructInfo)
    (structName : string) (start : nat) (rows : list GeneratedRow)
  : option GenError :=
  match rows with
  | [] => None
  | row :: rows' =>
      match validateRow structInfos structName start row with
      | Some e => Some e
      | None => validateFrom structInfos structName (S start) rows'
      end
  end.

Definition validateRows (structInfos : gmap string StructInfo)
    (structName : string) (rows : list GeneratedRow) : option GenError :=
  validateFrom structInfos structName 0 rows.

(** The end of [GenerateData]: the row-count gate, then the schema
    check. *)
Definition checkRows (structName : string)
    (structInfos : gmap string StructInfo) (rows : list GeneratedRow)
  : Outcome GenError (list GeneratedRow) :=
  if (length rows <? 25) || (30 <? length rows)
  then Err (RowCount structName (length rows))
  else match validateRows structInfos structName rows with
       | Some e => Err e
       | None => Ok rows
       end.

End Validator.

(* ===================================================================== *)
(** * Delegated strategy: [GenerateData] *)
(* ===================================================================== *)

Definition apiTimeoutSeconds : Z := 60.
Definition apiRetries : nat := 2.
(** [time.Second], in nanoseconds. *)
Definition Second : Z := 1000000000.

(** The backend answers a prompt with a reply or an error text; what it
    answers may depend on everything that happened before. *)
Class Backend := {
  GenerateContent : list Event → string → string + GenerateContentResponse
}.

(** [json.Unmarshal] into a slice of rows. *)
Class JSON := {
  Unmarshal : string → string + list GeneratedRow
}.

(** How the retry loop ends: by [return], or by leaving the loop with the
    reply held in [resp] ([None] is the nil pointer). *)
Inductive LoopEnd :=
| LoopReturn (e : GenError)
| LoopLeft (resp : option GenerateContentResponse).

Section Delegated.
Context `{MapRange} `{GoStrings.Unicode} `{Backend} `{JSON}.
Import GoStrings.

Definition lines (l : list string) : string := String.concat newline l.

Definition allDefs (structInfos : gmap string StructInfo) : string :=
  foldl (λ acc entry, acc +:+ Def entry.2 +:+ newline +:+ newline)
        EmptyString (range_order structInfos).

Definition buildPrompt (structName : string)
    (structInfos : gmap string StructInfo) : string :=
  lines [
    "Given the following Go struct definitions:";
    "";
    allDefs structInfos;
    "";
    "Generate exactly 30 rows of realistic accounting data for the struct named "
      +:+ dquote +:+ structName +:+ dquote +:+ ". ";
    "Each row must be a valid JSON object with field names matching the struct's JSON tags (or field names if no JSON tags are present). ";
    "Ensure values are realistic for accounting purposes:";
    "- Use ISO 8601 format (e.g., " +:+ dquote +:+ "2025-05-16T15:00:00Z"
      +:+ dquote +:+ ") for timestamps.";
    "- Use numbers for numeric fields (e.g., amounts, IDs).";
    "- Use strings for text fields (e.g., names, descriptions).";
    "- For phone number fields, include a country code (e.g., "
      +:+ dquote +:+ "+1" +:+ dquote +:+ ", " +:+ dquote +:+ "+44" +:+ dquote
      +:+ ") and a realistic phone number (e.g., " +:+ dquote +:+ "555-1234"
      +:+ dquote +:+ ") using the correct JSON tags.";
    "- Ensure all required fields are present and non-empty unless explicitly optional (e.g., marked with omitempty in JSON tags).";
    "- Ensure numeric values (e.g., amounts) are reasonable for accounting.";
    "- Ensure IDs are unique across all rows where applicable.";
    "";
    "";
    "Return only a JSON array of 30 objects, no additional text or wrappers."
  ].

Definition callGenerateContent (prompt : string)
  : M (string + GenerateContentResponse) :=
  λ tr, (GenerateContent tr prompt, tr ++ [EvGenerateContent prompt]).

(** [for attempt := 1; attempt <= apiRetries; attempt++]: [remaining]
    counts the iterations the loop condition still allows, that is
    [apiRetries + 1 - attempt]. *)
Fixpoint retryLoop (remaining attempt : nat) (prompt structName : string)
  : M LoopEnd :=
  match remaining with
  | O => mret (LoopLeft None)
  | S remaining' =>
      r ← callGenerateContent prompt;
      match r with
      | inr resp => mret (LoopLeft (Some resp))
      | inl err =>
          logPrintf (LogAttemptFailed attempt structName err);;
          if bool_decide (attempt = apiRetries)
          then mret (LoopReturn (BackendFailed structName apiRetries err))
          else emit (EvSleep Second);;
               retryLoop remaining' (S attempt) prompt structName
      end
  end.

(** Lines 124-132: strip the wrappers, make sure of the brackets. *)
Definition sanitize (content : string) : string :=
  let content := TrimSpace content in
  let content := TrimPrefix content ("```json" +:+ newline) in
  let content := TrimPrefix content ("```" +:+ newline) in
  let content := TrimSuffix content (newline +:+ "```") in
  let content := TrimSpace content in
  if negb (HasPrefix content "[") || negb (HasSuffix content "]")
  then "[" +:+ content +:+ "]"
  else content.

Definition parseReply (structName : string)
    (structInfos : gmap string StructInfo) (resp : GenerateContentResponse)
  : M (Outcome GenError (list GeneratedRow)) :=
  match Candidates resp with
  | candidate :: _ =>
      match Parts (Content candidate) with
      | TextPart content :: _ =>
          logPrintf (LogRawResponse structName content);;
          let content := sanitize content in
          logPrintf (LogCleaned structName content);;
          match Unmarshal content with
          | inl err => mret (Err (ParseJSONFailed structName err content))
          | inr rows => mret (checkRows structName structInfos rows)
          end
      | OtherPart :: _ => mret (Err (UnexpectedFormat structName))
      | [] => mret (Err (NoValidResponse structName))
      end
  | [] => mret (Err (NoValidResponse structName))
  end.

Definition GenerateData (structName : string)
    (structInfos : gmap string StructInfo)
  : M (Outcome GenError (list GeneratedRow)) :=
  let prompt := buildPrompt structName structInfos in
  r ← retryLoop apiRetries 1 prompt structName;
  match r with
  | LoopReturn e => mret (Err e)
  | LoopLeft None => mret Panic
  | LoopLeft (Some resp) => parseReply structName structInfos resp
  end.

End Delegated.

(* ===================================================================== *)
(** * Pipeline driver: [ProcessModel] *)
(* ===================================================================== *)

(** The exporter and the path arithmetic it is called with. [SaveToExcel]
    is taken as a whole: the call is an event, and whether it returns an
    error is up to the spreadsheet writer. *)
Class Exporter := {
  filepath_Join : string → string → string;
  SaveToExcel_result :
    list Event → string → list GeneratedRow → string → option string
}.

Inductive ProcessError :=
| ExtractFailed (e : ExtractError).

Section Driver.
Context `{MapRange} `{GoSyntax} `{GoStrings.Unicode} `{Backend} `{JSON}
        `{Exporter}.

Definition SaveToExcel (structName : string) (rows : list GeneratedRow)
    (outputPath : string) : M (option string) :=
  λ tr, (SaveToExcel_result tr structName rows outputPath,
         tr ++ [EvSaveToExcel structName rows outputPath]).

(** The loop over the structs of one file; [continue] is the recursive
    call on the rest. *)
Fixpoint processStructs (outputDir : string)
    (structInfos : gmap string StructInfo)
    (todo : list (string * StructInfo)) : M (Outcome ProcessError unit) :=
  match todo with
  | [] => mret (Ok tt)
  | (structName, info) :: todo' =>
      if IsNested info
      then logPrintf (LogSkipping structName);;
           processStructs outputDir structInfos todo'
      else
        logPrintf (LogProcessing structName);;
        r ← GenerateData structName structInfos;
        match r with
        | Panic => mret Panic
        | Err e =>
            logPrintf (LogGenerateFailed structName e);;
            processStructs outputDir structInfos todo'
        | Ok rows =>
            let outputPath :=
              filepath_Join outputDir (structName +:+ "_output.xlsx") in
            saved ← SaveToExcel structName rows outputPath;
            match saved with
            | Some err =>
                logPrintf (LogSaveFailed structName err);;
                processStructs outputDir structInfos todo'
            | None =>
                logPrintf (LogGenerated outputPath);;
                processStructs outputDir structInfos todo'
            end
        end
  end.

Definition ProcessModel (inputPath outputDir : string)
  : M (Outcome ProcessError unit) :=
  logPrintf (LogProcessingFile inputPath);;
  extracted ← extractStructDefs inputPath;
  match extracted with
  | inl e => mret (Err (ExtractFailed e))
  | inr structInfos =>
      processStructs outputDir structInfos (range_order structInfos)
  end.

End Driver.

(* ===================================================================== *)
(** * Deterministic strategy: [generateCustomer] *)
(* ===================================================================== *)

(** gofakeit draws values from a generator state; [Seed] sets that state
    from a clock reading. *)
Class GoFakeIt := {
  Rng : Type;
  Seed : Z → Rng;
  Name : Rng → string * Rng;
  RandomString : list string → Rng → string * Rng;
  UUID : Rng → string * Rng;
  Number : Z → Z → Rng → Z * Rng;
  PhoneFormatted : Rng → string * Rng
}.

(** [time.Now().UnixNano()] *)
Class Clock := { UnixNano : Z }.

(** The errors [generateCustomer] returns. *)
Inductive CustomerError :=
| RowMissingField (row : nat) (jsonTag : string)
| RowInvalidPhone (row : nat) (got : Value)
| RowMissingNestedField (row : nat) (nestedJsonTag : string).

Section Deterministic.
Context `{MapRange} `{GoFakeIt} `{Clock}.
Import GoStrings.

(** A draw threads the generator state; [None] is a panic. *)
Definition Gen (A : Type) : Type := Rng → option (A * Rng).

#[local] Instance Gen_ret : MRet Gen := λ A a rng, Some (a, rng).
#[local] Instance Gen_bind : MBind Gen :=
  λ A B k m rng,
    match m rng with
    | Some (a, rng') => k a rng'
    | None => None
    end.

Definition draw {A} (f : Rng → A * Rng) : Gen A := λ rng, Some (f rng).
(** The result of a slice expression, out of range or not. *)
Definition sliced (r : option string) : Gen string :=
  λ rng, match r with Some s => Some (s, rng) | None => None end.

Fixpoint foldGen {A B} (body : A → B → Gen A) (acc : A) (l : list B) : Gen A :=
  match l with
  | [] => mret acc
  | x :: l' => acc' ← body acc x; foldGen body acc' l'
  end.

(** The [switch] on the nested field's name. *)
Definition genPhoneField (nestedRow : gmap string Value)
    (entry : string * FieldInfo) : Gen (gmap string Value) :=
  let nestedJsonTag := wireName entry.1 entry.2 in
  if bool_decide (entry.1 = "p1") then
    phone ← draw PhoneFormatted;
    code ← sliced (sliceTo phone 2);
    mret (<[nestedJsonTag := VString code]> nestedRow)
  else if bool_decide (entry.1 = "p2") then
    phone ← draw PhoneFormatted;
    number ← sliced (sliceFrom phone 3);
    mret (<[nestedJsonTag := VString number]> nestedRow)
  else mret nestedRow.

Definition genPhone (structInfos : gmap string StructInfo)
  : Gen (gmap string Value) :=
  foldGen genPhoneField ∅
          (range_order (Fields (lookupStruct structInfos "Phone"))).

(** The body of the loop over the fields of [Customer]. *)
Definition genField (structInfos : gmap string StructInfo)
    (row : GeneratedRow) (entry : string * FieldInfo) : Gen GeneratedRow :=
  let jsonTag := wireName entry.1 entry.2 in
  if bool_decide (Type_ entry.2 = "Phone") then
    nestedRow ← genPhone structInfos;
    mret (<[jsonTag := VObject nestedRow]> row)
  else if bool_decide (entry.1 = "Name") then
    v ← draw Name; mret (<[jsonTag := VString v]> row)
  else if bool_decide (entry.1 = "Type") then
    v ← draw (RandomString ["Individual"; "Business"; "NonProfit"]);
    mret (<[jsonTag := VString v]> row)
  else if bool_decide (entry.1 = "CustomerID") then
    v ← draw UUID; mret (<[jsonTag := VString v]> row)
  else if bool_decide (entry.1 = "TaxIdNumber") then
    v ← draw (Number 100000000 999999999);
    mret (<[jsonTag := VNumber v]> row)
  else mret row.

Definition genRow (structInfos : gmap string StructInfo) : Gen GeneratedRow :=
  foldGen (genField structInfos) ∅
          (range_order (Fields (lookupStruct structInfos "Customer"))).

(** [for i := 0; i < 30; i++ { ...; rows[i] = row }], [count] rows to go. *)
Fixpoint genRows (structInfos : gmap string StructInfo) (count : nat)
  : Gen (list GeneratedRow) :=
  match count with
  | O => mret []
  | S count' =>
      row ← genRow structInfos;
      rows ← genRows structInfos count';
      mret (row :: rows)
  end.

(** The schema check at the end of [generateCustomer]. *)
Definition validatePhone (structInfos : gmap string StructInfo) (i : nat)
    (nested : gmap string Value) : option CustomerError :=
  firstError
    (λ entry : string * FieldInfo,
       let nestedJsonTag := wireName entry.1 entry.2 in
       match nested !! nestedJsonTag with
       | None => Some (RowMissingNestedField (i + 1) nestedJsonTag)
       | Some _ => None
       end)
    (range_order (Fields (lookupStruct structInfos "Phone"))).

Definition validateCustomerField (structInfos : gmap string StructInfo)
    (i : nat) (row : GeneratedRow) (entry : string * FieldInfo)
  : option CustomerError :=
  let jsonTag := wireName entry.1 entry.2 in
  match row !! jsonTag with
  | None => Some (RowMissingField (i + 1) jsonTag)
  | Some value =>
      if bool_decide (Type_ entry.2 = "Phone") then
        match value with
        | VObject nested => validatePhone structInfos i nested
        | _ => Some (RowInvalidPhone (i + 1) value)
        end
      else None
  end.

Definition validateCustomerRow (structInfos : gmap string StructInfo)
    (i : nat) (row : GeneratedRow) : option CustomerError :=
  firstError (validateCustomerField structInfos i row)
             (range_order (Fields (lookupStruct structInfos "Customer"))).

Fixpoint validateCustomerFrom (structInfos : gmap string StructInfo)
    (start : nat) (rows : list GeneratedRow) : option CustomerError :=
  match rows with
  | [] => None
  | row :: rows' =>
      match validateCustomerRow structInfos start row with
      | Some e => Some e
      | None => validateCustomerFrom structInfos (S start) rows'
      end
  end.

Definition generateCustomer (structInfos : gmap string StructInfo)
  : Outcome CustomerError (list GeneratedRow) :=
  match genRows structInfos 30 (Seed UnixNano) with
  | None => Panic
  | Some (rows, _) =>
      match validateCustomerFrom structInfos 0 rows with
      | Some e => Err e
      | None => Ok rows
      end
  end.

End Deterministic.

(* ===================================================================== *)
(** * Vocabulary of the statements *)
(* ===================================================================== *)

(** An entry after some marking: flagged or as it was. *)
Definition markedIf (b : bool) (info : StructInfo) : StructInfo :=
  if b then setNested info else info.

(** The field types met while ranging over the structs named [names]. *)
Definition typesOf `{MapRange} (structInfos : gmap string StructInfo)
    (names : list string) : list string :=
  names ≫= λ name,
    match structInfos !! name with
    | Some info => (λ entry, Type_ entry.2) <$> range_order (Fields info)
    | None => []
    end.

(** No entry is flagged as nested. *)
Definition unflagged (g : gmap string StructInfo) : Prop :=
  ∀ n info, g !! n = Some info → IsNested info = false.

(** The row number and the field name a validation error carries. *)
Definition errorRow (e : GenError) : option nat :=
  match e with
  | MissingField row _ _ | InvalidNested row _ _ _
  | MissingNestedField row _ _ _ => Some row
  | _ => None
  end.

Definition errorField (e : GenError) : option string :=
  match e with
  | MissingField _ _ jsonTag | InvalidNested _ _ jsonTag _
  | MissingNestedField _ _ jsonTag _ => Some jsonTag
  | _ => None
  end.

(** What is wrong with field [fieldName] of the row at position [i] when
    validation reports [e] for it: its key is missing, its value is not an
    object although its type is a struct of the graph, or the object lacks
    the key of a field of that struct whose stored tag does not contain
    the text omitempty. *)
Definition fieldDefect (structInfos : gmap string StructInfo)
    (structName : string) (i : nat) (row : GeneratedRow)
    (fieldName : string) (fieldInfo : FieldInfo) (e : GenError) : Prop :=
  let jsonTag := wireName fieldName fieldInfo in
  (row !! jsonTag = None ∧ e = MissingField (i + 1) structName jsonTag)
  ∨ (∃ value nestedInfo,
        row !! jsonTag = Some value ∧
        structInfos !! Type_ fieldInfo = Some nestedInfo ∧
        (∀ nested, value ≠ VObject nested) ∧
        e = InvalidNested (i + 1) structName jsonTag value)
  ∨ (∃ nested nestedInfo nestedField nestedFieldInfo,
        row !! jsonTag = Some (VObject nested) ∧
        structInfos !! Type_ fieldInfo = Some nestedInfo ∧
        Fields nestedInfo !! nestedField = Some nestedFieldInfo ∧
        nested !! wireName nestedField nestedFieldInfo = None ∧
        GoStrings.Contains (JSONTag nestedFieldInfo) "omitempty" = false ∧
        e = MissingNestedField (i + 1) structName jsonTag
              (wireName nestedField nestedFieldInfo)).

(** A row that holds a value under every wire name of the struct, and an
    object with every wire name of the nested struct wherever the field's
    type is a struct of the graph. *)
Definition conforming (structInfos : gmap string StructInfo)
    (structName : string) (row : GeneratedRow) : Prop :=
  ∀ fieldName fieldInfo,
    Fields (lookupStruct structInfos structName) !! fieldName = Some fieldInfo →
    ∃ value,
      row !! wireName fieldName fieldInfo = Some value ∧
      ∀ nestedInfo, structInfos !! Type_ fieldInfo = Some nestedInfo →
        ∃ nested, value = VObject nested ∧
          ∀ nestedField nestedFieldInfo,
            Fields nestedInfo !! nestedField = Some nestedFieldInfo →
            is_Some (nested !! wireName nestedField nestedFieldInfo).

(** The same for the check at the end of [generateCustomer]: what is
    wrong with field [fieldName] of the row at position [i] when the
    check reports [e] for it, and a row that the check has nothing to
    say against.  The error for a missing key carries the wire name; the
    error for a phone value that is not an object carries the value; the
    error for a missing subfield carries the wire name of the subfield. *)
Definition customerDefect (structInfos : gmap string StructInfo) (i : nat)
    (row : GeneratedRow) (fieldName : string) (fieldInfo : FieldInfo)
    (e : CustomerError) : Prop :=
  let jsonTag := wireName fieldName fieldInfo in
  (row !! jsonTag = None ∧ e = RowMissingField (i + 1) jsonTag)
  ∨ (∃ value,
        row !! jsonTag = Some value ∧ Type_ fieldInfo = "Phone" ∧
        (∀ nested, value ≠ VObject nested) ∧
        e = RowInvalidPhone (i + 1) value)
  ∨ (∃ nested nestedField nestedFieldInfo,
        row !! jsonTag = Some (VObject nested) ∧ Type_ fieldInfo = "Phone" ∧
        Fields (lookupStruct structInfos "Phone") !! nestedField
        = Some nestedFieldInfo ∧
        nested !! wireName nestedField nestedFieldInfo = None ∧
        e = RowMissingNestedField (i + 1)
              (wireName nestedField nestedFieldInfo)).

Definition customerConforming (structInfos : gmap string StructInfo)
    (row : GeneratedRow) : Prop :=
  ∀ fieldName fieldInfo,
    Fields (lookupStruct structInfos "Customer") !! fieldName
    = Some fieldInfo →
    ∃ value,
      row !! wireName fieldName fieldInfo = Some value ∧
      (Type_ fieldInfo = "Phone" →
       ∃ nested, value = VObject nested ∧
         ∀ nestedField nestedFieldInfo,
           Fields (lookupStruct structInfos "Phone") !! nestedField
           = Some nestedFieldInfo →
           is_Some (nested !! wireName nestedField nestedFieldInfo)).

(** The number of backend calls and of pauses in a stretch of events. *)
Definition isGenerateContent (ev : Event) : bool :=
  match ev with EvGenerateContent _ => true | _ => false end.
Definition isSleep (ev : Event) : bool :=
  match ev with EvSleep _ => true | _ => false end.
Definition backendCalls (tr : list Event) : nat :=
  length (filter (λ ev, isGenerateContent ev = true) tr).
Definition sleeps (tr : list Event) : nat :=
  length (filter (λ ev, isSleep ev = true) tr).

(** The events one run of [GenerateData] may add: calls with its own
    prompt, log lines and one-second pauses. *)
Definition generationEvent (prompt : string) (ev : Event) : Prop :=
  match ev with
  | EvGenerateContent p => p = prompt
  | EvLog _ => True
  | EvSleep d => d = Second
  | _ => False
  end.

(** The events the driver adds for one struct that is not nested, after
    the events [before]: the line that announces it, the events of
    [GenerateData], then either the line reporting the generation error,
    or the export followed by the line reporting its error or its
    success. *)
Definition handled `{MapRange} `{GoStrings.Unicode} `{Backend} `{JSON}
    `{Exporter} (outputDir : string) (g : gmap string StructInfo)
    (structName : string) (before segment : list Event) : Prop :=
  let start := before ++ [EvLog (LogProcessing structName)] in
  ∃ out generation,
    GenerateData structName g start = (out, start ++ generation) ∧
    Forall (generationEvent (buildPrompt structName g)) generation ∧
    EvGenerateContent (buildPrompt structName g) ∈ generation ∧
    match out with
    | Err e =>
        segment = EvLog (LogProcessing structName) :: generation
                    ++ [EvLog (LogGenerateFailed structName e)]
    | Ok rows =>
        let outputPath :=
          filepath_Join outputDir (structName +:+ "_output.xlsx") in
        segment = EvLog (LogProcessing structName) :: generation
                    ++ [EvSaveToExcel structName rows outputPath;
                        EvLog (match SaveToExcel_result (start ++ generation)
                                       structName rows outputPath with
                               | Some err => LogSaveFailed structName err
                               | None => LogGenerated outputPath
                               end)]
    | Panic => False
    end.

(** The events of the driver's loop, record by record: [segments] holds
    one stretch of events for every entry of the work list, in the order
    of the list.  The stretch of a nested struct is the line that says it
    is skipped; the stretch of any other struct is that of a struct that
    was handled, after all the stretches before it. *)
Definition recordTurns `{MapRange} `{GoStrings.Unicode} `{Backend} `{JSON}
    `{Exporter} (outputDir : string) (g : gmap string StructInfo)
    (tr : list Event) (todo : list (string * StructInfo))
    (segments : list (list Event)) : Prop :=
  length segments = length todo ∧
  ∀ i entry segment,
    todo !! i = Some entry → segments !! i = Some segment →
    if IsNested entry.2 then segment = [EvLog (LogSkipping entry.1)]
    else handled outputDir g entry.1 (tr ++ mjoin (take i segments)) segment.

(** An event of the backend or of the exporter that is made on behalf of
    struct [structName]. *)
Definition eventFor `{MapRange} (g : gmap string StructInfo)
    (structName : string) (ev : Event) : Prop :=
  match ev with
  | EvGenerateContent prompt => prompt = buildPrompt structName g
  | EvSaveToExcel name _ _ => name = structName
  | _ => False
  end.

(** Every object stored in the row was built by [genPhone]. *)
Definition objectsFromPhone `{MapRange} `{GoFakeIt}
    (g : gmap string StructInfo) (row : GeneratedRow) : Prop :=
  ∀ k nested, row !! k = Some (VObject nested) →
    ∃ rng rng', genPhone g rng = Some (nested, rng').

(* ===================================================================== *)
(** * Example inputs *)
(* ===================================================================== *)

Module Examples.
Import GoStrings.

(** A tag literal as the parser hands it over, back quotes included. *)
Definition tagLit (body : string) : option string :=
  Some ("`" +:+ body +:+ "`").
Definition jsonKey (value : string) : string :=
  "json:" +:+ dquote +:+ value +:+ dquote.

(** [type Order struct { ID string; Contact Phone; Tags []string }]
    declared before [type Phone struct { p1, p2, Ext string }], whose
    last field is tagged [ext,omitempty]. *)
Definition orderDecls : list ast.Decl :=
  [ ast.GenDecl ast.IMPORT [ast.ImportSpec];
    ast.GenDecl ast.TYPE
      [ast.TypeSpecOf
         {| ast.Name := "Order";
            ast.SpecType := ast.StructType
              [ast.mkField ["ID"] (ast.Ident "string") (tagLit (jsonKey "id"));
               ast.mkField ["Contact"] (ast.Ident "Phone")
                           (tagLit (jsonKey "contact"));
               ast.mkField ["Tags"] ast.OtherExpr None] |}];
    ast.FuncDecl;
    ast.GenDecl ast.TYPE
      [ast.TypeSpecOf
         {| ast.Name := "Phone";
            ast.SpecType := ast.StructType
              [ast.mkField ["p1"] (ast.Ident "string") (tagLit (jsonKey "code"));
               ast.mkField ["p2"] (ast.Ident "string")
                           (tagLit (jsonKey "number"));
               ast.mkField ["Ext"] (ast.Ident "string")
                           (tagLit (jsonKey "ext,omitempty"))] |}] ].

Definition orderSyntax : GoSyntax :=
  {| ParseFile := λ _, inr orderDecls;
     Fprint := λ typeSpec, inr ("type " +:+ ast.Name typeSpec) |}.

(** The graph the extractor builds from [orderDecls]. *)
Definition orderGraph : gmap string StructInfo :=
  {[ "Order" :=
       {| Def := "type Order";
          Fields := {[ "ID" := {| Type_ := "string"; JSONTag := "id" |};
                       "Contact" := {| Type_ := "Phone"; JSONTag := "contact" |} ]};
          IsNested := false |};
     "Phone" :=
       {| Def := "type Phone";
          Fields := {[ "p1" := {| Type_ := "string"; JSONTag := "code" |};
                       "p2" := {| Type_ := "string"; JSONTag := "number" |};
                       "Ext" := {| Type_ := "string"; JSONTag := "ext" |} ]};
          IsNested := true |} ]}.

Definition fullPhone : Value :=
  VObject {[ "code" := VString "+1"; "number" := VString "555-1234";
             "ext" := VString "12" ]}.
(** A phone object without the subfield tagged [omitempty]. *)
Definition phoneWithoutExt : Value :=
  VObject {[ "code" := VString "+1"; "number" := VString "555-1234" ]}.

Definition goodRow : GeneratedRow :=
  {[ "id" := VString "A-1"; "contact" := fullPhone ]}.
Definition scalarPhoneRow : GeneratedRow :=
  {[ "id" := VString "A-2"; "contact" := VString "555-1234" ]}.
Definition rowWithoutId : GeneratedRow :=
  {[ "contact" := fullPhone ]}.
Definition rowWithoutExt : GeneratedRow :=
  {[ "id" := VString "A-3"; "contact" := phoneWithoutExt ]}.

(** The customer schema: an identifier, a categorical field and a phone
    composite, with the phone record of two subfields. *)
Definition customerGraph : gmap string StructInfo :=
  {[ "Customer" :=
       {| Def := "type Customer";
          Fields := {[ "CustomerID" := {| Type_ := "string"; JSONTag := "customer_id" |};
                       "Type" := {| Type_ := "string"; JSONTag := "type" |};
                       "Phone" := {| Type_ := "Phone"; JSONTag := "phone" |} ]};
          IsNested := false |};
     "Phone" :=
       {| Def := "type Phone";
          Fields := {[ "p1" := {| Type_ := "string"; JSONTag := "country_code" |};
                       "p2" := {| Type_ := "string"; JSONTag := "number" |} ]};
          IsNested := true |} ]}.

(** A generator whose state counts the draws and whose phone numbers
    alternate between two formatted values. *)
Definition firstPhone : string := "212-555-0147".
Definition secondPhone : string := "(303)555-0188".

Definition countingFaker : GoFakeIt :=
  {| Rng := nat;
     Seed := λ _, 0;
     Name := λ n, ("Ada Lovelace", S n);
     RandomString := λ choices n, (default "" (choices !! (n `mod` 3)), S n);
     UUID := λ n, ("4f0c1a2e-9b7d-4c3a-8e21-5d6f7a8b9c0d", S n);
     Number := λ lo hi n, (lo, S n);
     PhoneFormatted := λ n, (if Nat.even n then firstPhone else secondPhone, S n) |}.

(** A formatter whose strings are too short to be sliced at index 3. *)
Definition shortFaker : GoFakeIt :=
  {| Rng := nat;
     Seed := λ _, 0;
     Name := λ n, ("Ada Lovelace", S n);
     RandomString := λ choices n, (default "" (choices !! 0), S n);
     UUID := λ n, ("4f0c1a2e-9b7d-4c3a-8e21-5d6f7a8b9c0d", S n);
     Number := λ lo hi n, (lo, S n);
     PhoneFormatted := λ n, ("12", S n) |}.

Definition fixedClock : Clock := {| UnixNano := 1700000000000000000 |}.

(** The rows the generator returns for [customerGraph] with
    [countingFaker]. *)
Definition customerRows : list GeneratedRow :=
  match @generateCustomer listedRange countingFaker fixedClock customerGraph with
  | Ok rows => rows
  | _ => []
  end.

(** A backend that fails twice, one that answers with a given text, a
    decoder that yields given rows, and an exporter that succeeds. *)
Definition flakyBackend : Backend :=
  {| GenerateContent := λ tr _,
       if bool_decide (backendCalls tr = 0) then inl "unavailable"
       else inl "deadline exceeded" |}.
Definition replyBackend (text : string) : Backend :=
  {| GenerateContent := λ _ _,
       inr {| Candidates := [{| Content := {| Parts := [TextPart text] |} |}] |} |}.
Definition rowsJSON (rows : list GeneratedRow) : JSON :=
  {| Unmarshal := λ _, inr rows |}.
Definition quietExporter : Exporter :=
  {| filepath_Join := λ dir file, dir +:+ "/" +:+ file;
     SaveToExcel_result := λ _ _ _ _, None |}.

(** The slow paths of [TrimSpace] are never entered on ASCII text. *)
Definition asciiText : Unicode :=
  {| TrimFunc_IsSpace := λ s, s; TrimRightFunc_IsSpace := λ s, s |}.

(** Twenty-five rows whose last one lacks the key [id], and twenty-five
    rows whose second one holds a scalar phone and whose last one lacks
    the key [id]. *)
Definition rowsLackingId : list GeneratedRow :=
  replicate 24 goodRow ++ [rowWithoutId].
Definition rowsTwoDefects : list GeneratedRow :=
  goodRow :: scalarPhoneRow :: replicate 22 goodRow ++ [rowWithoutId].

(** A fenced reply whose label is in capitals, and one whose lines end
    in CR LF. *)
Definition cr : string := String "013"%char "".
Definition fencedUpper : string :=
  "```JSON" +:+ newline +:+ "[1,2]" +:+ newline +:+ "```".
Definition fencedCRLF : string :=
  "```json" +:+ cr +:+ newline +:+ "[1,2]" +:+ cr +:+ newline +:+ "```".

End Examples.

(* ===================================================================== *)
(** * The callers: [ProcessInputFolder] and [processCustomer] *)
(* ===================================================================== *)

(** What [os.ReadDir] tells about an entry, as far as the code asks. *)
Record DirEntry := { entryName : string; entryIsDir : bool }.

(** The file system calls of [ProcessInputFolder]; each is made at most
    once in a run.  [Stat_IsNotExist] is [os.IsNotExist] applied to the
    error of [os.Stat]. *)
Class FileSystem := {
  Stat_IsNotExist : string → bool;
  MkdirAll : string → option string;
  ReadDir : string → string + list DirEntry
}.

(** The errors [ProcessInputFolder] returns. *)
Inductive FolderError :=
| InputDirMissing (inputDir : string)
| CreateOutputFailed (err : string)
| ReadInputFailed (err : string)
| NoGoFiles (inputDir : string).

(** The errors [processCustomer] returns. *)
Inductive CustomerProcessError :=
| CustomerExtractFailed (e : ExtractError)
| CustomerNotFound (inputPath : string)
| CustomerGenerateFailed (e : CustomerError)
| CustomerSaveFailed (err : string).

(** The lines the callers log themselves. *)
Inductive TopLog :=
| LogChecking (inputDir : string)
| LogCreating (outputDir : string)
| LogFound (goFiles : nat)
| LogFileError (fileName : string) (e : ProcessError)
| LogProcessingCustomer (inputPath : string).

(** The events of a caller: those of the functions it calls, its own
    log lines and its file system calls. *)
Inductive TopEvent :=
| EvInner (ev : Event)
| EvTopLog (msg : TopLog)
| EvStat (path : string)
| EvMkdirAll (path : string)
| EvReadDir (path : string).

Definition T (A : Type) : Type := list TopEvent → A * list TopEvent.

#[global] Instance T_ret : MRet T := λ A a tr, (a, tr).
#[global] Instance T_bind : MBind T :=
  λ A B k m tr, let '(a, tr') := m tr in k a tr'.

Definition temit (e : TopEvent) : T unit := λ tr, (tt, tr ++ [e]).
Definition tlog (msg : TopLog) : T unit := temit (EvTopLog msg).

(** The events of the called functions among those of a caller. *)
Definition innerEvents (tr : list TopEvent) : list Event :=
  omap (λ ev, match ev with EvInner e => Some e | _ => None end) tr.

(** Run a called function inside a caller: it sees the events of the
    called functions so far, and what it adds is added to the caller's
    events. *)
Definition liftM {A} (m : M A) : T A :=
  λ tr,
    let before := innerEvents tr in
    let '(a, after) := m before in
    (a, tr ++ (EvInner <$> drop (length before) after)).

Section Folder.
Context `{MapRange} `{GoSyntax} `{GoStrings.Unicode} `{Backend} `{JSON}
        `{Exporter} `{FileSystem}.

(** [!file.IsDir() && strings.HasSuffix(file.Name(), ".go")] *)
Definition isGoFile (file : DirEntry) : bool :=
  negb (entryIsDir file) && GoStrings.HasSuffix (entryName file) ".go".

(** The counting loop. *)
Definition countGoFiles (files : list DirEntry) : nat :=
  foldl (λ goFiles file, if isGoFile file then S goFiles else goFiles) 0 files.

(** The processing loop: the error of a file is logged and the loop goes
    on. *)
Fixpoint processFiles (inputDir outputDir : string) (files : list DirEntry)
  : T (Outcome FolderError unit) :=
  match files with
  | [] => mret (Ok tt)
  | file :: files' =>
      if isGoFile file then
        let inputPath := filepath_Join inputDir (entryName file) in
        r ← liftM (ProcessModel inputPath outputDir);
        match r with
        | Panic => mret Panic
        | Err e =>
            tlog (LogFileError (entryName file) e);;
            processFiles inputDir outputDir files'
        | Ok _ => processFiles inputDir outputDir files'
        end
      else processFiles inputDir outputDir files'
  end.

Definition ProcessInputFolder (inputDir outputDir : string)
  : T (Outcome FolderError unit) :=
  tlog (LogChecking inputDir);;
  temit (EvStat inputDir);;
  if Stat_IsNotExist inputDir then mret (Err (InputDirMissing inputDir))
  else
    tlog (LogCreating outputDir);;
    temit (EvMkdirAll outputDir);;
    match MkdirAll outputDir with
    | Some err => mret (Err (CreateOutputFailed err))
    | None =>
        temit (EvReadDir inputDir);;
        match ReadDir inputDir with
        | inl err => mret (Err (ReadInputFailed err))
        | inr files =>
            let goFiles := countGoFiles files in
            if bool_decide (goFiles = 0)
            then mret (Err (NoGoFiles inputDir))
            else tlog (LogFound goFiles);;
                 processFiles inputDir outputDir files
        end
    end.

End Folder.

Section CustomerDriver.
Context `{MapRange} `{GoSyntax} `{GoFakeIt} `{Clock} `{Exporter}.

(** [processCustomer] of the deterministic program: extract, insist on
    a [Customer] record, generate, export. *)
Definition processCustomer (inputPath outputDir : string)
  : T (Outcome CustomerProcessError unit) :=
  tlog (LogProcessingCustomer inputPath);;
  extracted ← liftM (extractStructDefs inputPath);
  match extracted with
  | inl e => mret (Err (CustomerExtractFailed e))
  | inr structInfos =>
      match structInfos !! "Customer" with
      | None => mret (Err (CustomerNotFound inputPath))
      | Some _ =>
          match generateCustomer structInfos with
          | Panic => mret Panic
          | Err e => mret (Err (CustomerGenerateFailed e))
          | Ok rows =>
              let outputPath :=
                filepath_Join outputDir "Customer_output.xlsx" in
              saved ← liftM (SaveToExcel "Customer" rows outputPath);
              match saved with
              | Some err => mret (Err (CustomerSaveFailed err))
              | None =>
                  liftM (logPrintf (LogGenerated outputPath));;
                  mret (Ok tt)
              end
          end
      end
  end.

End CustomerDriver.

(* ===================================================================== *)
(** * The body of [SaveToExcel] *)
(* ===================================================================== *)

Module excel.

(** What [SetCellValue] is given: a number or a text. *)
Inductive CellValue :=
| CellNumber (n : Z)
| CellString (s : string).

(** The calls on the workbook and the two log lines, in order. *)
Inductive SheetEvent :=
| EvNewFile
| EvSetSheetName (source target : string)
| EvSetCellValue (sheet cell : string) (value : CellValue)
| EvMarshalFailed (structName cell err : string)
| EvSaving (outputPath : string)
| EvSaveAs (outputPath : string)
| EvClose.

(** [json.Marshal] of a nested object, [fmt.Sprintf("%v", v)] for the
    values of the [default] case, and the answer of [f.SaveAs], which
    may depend on all that was written. *)
Class Library := {
  Marshal : gmap string Value → string + string;
  Sprint_v : Value → string;
  SaveAs : list SheetEvent → string → option string
}.

Inductive SaveError :=
| NoData (structName : string)
| SaveAsFailed (err : string).

(** The conversion [rune(x)] of an [int]: the low 32 bits, signed. *)
Definition int32 (z : Z) : Z := ((z + 2 ^ 31) `mod` 2 ^ 32 - 2 ^ 31)%Z.

Definition byte (z : Z) : ascii := ascii_of_N (Z.to_N z).

(** The conversion [string(r)] of a rune: its UTF-8 encoding, or the
    encoding of U+FFFD when [r] is not a valid code point. *)
Definition runeString (r : Z) : string :=
  if ((r <? 0) || (1114111 <? r) || ((55296 <=? r) && (r <=? 57343)))%Z
  then String (byte 239) (String (byte 191) (String (byte 189) ""))
  else if (r <? 128)%Z then String (byte r) ""
  else if (r <? 2048)%Z then
    String (byte (Z.lor 192 (Z.shiftr r 6)))
      (String (byte (Z.lor 128 (Z.land r 63))) "")
  else if (r <? 65536)%Z then
    String (byte (Z.lor 224 (Z.shiftr r 12)))
      (String (byte (Z.lor 128 (Z.land (Z.shiftr r 6) 63)))
         (String (byte (Z.lor 128 (Z.land r 63))) ""))
  else
    String (byte (Z.lor 240 (Z.shiftr r 18)))
      (String (byte (Z.lor 128 (Z.land (Z.shiftr r 12) 63)))
         (String (byte (Z.lor 128 (Z.land (Z.shiftr r 6) 63)))
            (String (byte (Z.lor 128 (Z.land r 63))) ""))).

(** [string(rune('A'+col))] *)
Definition columnName (col : nat) : string :=
  runeString (int32 (65 + Z.of_nat col)).

Section SaveToExcel.
Context `{MapRange} `{Library}.

Definition sheet : string := "Sheet1".

(** The loop that writes the headers into row 1. *)
Definition headerCells (headers : list string) : list SheetEvent :=
  imap (λ col header,
          EvSetCellValue sheet (columnName col +:+ "1") (CellString header))
       headers.

(** The body of the inner loop: the [switch] on the dynamic type of the
    value, if the row has the key. *)
Definition dataCell (structName : string) (rowIdx : nat) (row : GeneratedRow)
    (colIdx : nat) (header : string) : list SheetEvent :=
  let cell := columnName colIdx +:+ pretty (rowIdx + 2) in
  match row !! header with
  | None => []
  | Some value =>
      match value with
      | VNumber v => [EvSetCellValue sheet cell (CellNumber v)]
      | VString v => [EvSetCellValue sheet cell (CellString v)]
      | VObject v =>
          match Marshal v with
          | inl err => [EvMarshalFailed structName cell err]
          | inr jsonStr => [EvSetCellValue sheet cell (CellString jsonStr)]
          end
      | _ => [EvSetCellValue sheet cell (CellString (Sprint_v value))]
      end
  end.

Definition dataCells (structName : string) (headers : list string)
    (rows : list GeneratedRow) : list SheetEvent :=
  mjoin (imap (λ rowIdx row,
                 mjoin (imap (dataCell structName rowIdx row) headers))
              rows).

(** [SaveToExcel]: the error it returns, if any, and what it did. *)
Definition SaveToExcel (structName : string) (rows : list GeneratedRow)
    (outputPath : string) : option SaveError * list SheetEvent :=
  let opened := [EvNewFile; EvSetSheetName "Sheet1" sheet] in
  match rows with
  | [] => (Some (NoData structName), opened ++ [EvClose])
  | first :: _ =>
      let headers := (range_order first).*1 in
      let written :=
        opened ++ headerCells headers
               ++ dataCells structName headers rows
               ++ [EvSaving outputPath] in
      (SaveAsFailed <$> SaveAs written outputPath,
       written ++ [EvSaveAs outputPath; EvClose])
  end.

End SaveToExcel.

(** What a value becomes in its cell, unless encoding it fails. *)
Definition cellOf `{Library} (value : Value) : option CellValue :=
  match value with
  | VNumber v => Some (CellNumber v)
  | VString v => Some (CellString v)
  | VObject v =>
      match Marshal v with
      | inl _ => None
      | inr jsonStr => Some (CellString jsonStr)
      end
  | _ => Some (CellString (Sprint_v value))
  end.

(** A column name of one capital letter. *)
Definition isColumnLetter (s : string) : bool :=
  match s with
  | String c EmptyString => ((65 <=? N_of_ascii c) && (N_of_ascii c <=? 90))%N
  | _ => false
  end.

End excel.

(* ===================================================================== *)
(** * Vocabulary of the further statements *)
(* ===================================================================== *)

(** Insert the entries of a list into a map, left to right: a later
    entry replaces an earlier one with the same key. *)
Definition insertAll {A} (m : gmap string A) (l : list (string * A))
  : gmap string A :=
  foldl (λ acc entry, <[entry.1 := entry.2]> acc) m l.

(** The struct entries a file gives rise to, in the order of the
    declarations: the type specs of struct type, inside [type]
    declarations, that the printer renders. *)
Definition structOfSpec `{GoSyntax} (spec : ast.Spec)
  : list (string * StructInfo) :=
  match spec with
  | ast.TypeSpecOf typeSpec =>
      match ast.SpecType typeSpec with
      | ast.StructType fieldList =>
          match Fprint typeSpec with
          | inl _ => []
          | inr buf =>
              [(ast.Name typeSpec,
                {| Def := buf; Fields := collectFields fieldList;
                   IsNested := false |})]
          end
      | _ => []
      end
  | _ => []
  end.

Definition structsOfDecl `{GoSyntax} (decl : ast.Decl)
  : list (string * StructInfo) :=
  match decl with
  | ast.GenDecl ast.TYPE specs => specs ≫= structOfSpec
  | _ => []
  end.

Definition printedStructs `{GoSyntax} (decls : list ast.Decl)
  : list (string * StructInfo) :=
  decls ≫= structsOfDecl.

(** A row the validator lets through: a value under every wire name of
    the struct, and, wherever the field's type is a struct of the graph,
    an object that holds every wire name of that struct whose stored tag
    does not contain the text omitempty. *)
Definition accepted (structInfos : gmap string StructInfo)
    (structName : string) (row : GeneratedRow) : Prop :=
  ∀ fieldName fieldInfo,
    Fields (lookupStruct structInfos structName) !! fieldName = Some fieldInfo →
    ∃ value,
      row !! wireName fieldName fieldInfo = Some value ∧
      ∀ nestedInfo, structInfos !! Type_ fieldInfo = Some nestedInfo →
        ∃ nested, value = VObject nested ∧
          ∀ nestedField nestedFieldInfo,
            Fields nestedInfo !! nestedField = Some nestedFieldInfo →
            is_Some (nested !! wireName nestedField nestedFieldInfo) ∨
            GoStrings.Contains (JSONTag nestedFieldInfo) "omitempty" = true.

(** The number of calls of the exporter in a stretch of events, and the
    number of entries of a work list that are not flagged as nested. *)
Definition isSaveToExcel (ev : Event) : bool :=
  match ev with EvSaveToExcel _ _ _ => true | _ => false end.
Definition exports (tr : list Event) : nat :=
  length (filter (λ ev, isSaveToExcel ev = true) tr).
Definition pending (todo : list (string * StructInfo)) : nat :=
  length (filter (λ entry, IsNested entry.2 = false) todo).

(** [piece] occurs in [s]. *)
Definition within (piece s : string) : Prop :=
  ∃ before after, s = before +:+ piece +:+ after.

(** The fields for which the customer generator stores a value: those
    of type [Phone], and the four names of its [switch]. *)
Definition generatedField (fieldName : string) (fieldInfo : FieldInfo) : Prop :=
  Type_ fieldInfo = "Phone" ∨
  fieldName ∈ ["Name"; "Type"; "CustomerID"; "TaxIdNumber"].

(** The row number an error of the customer generator carries. *)
Definition customerErrorRow (e : CustomerError) : nat :=
  match e with
  | RowMissingField row _ | RowInvalidPhone row _
  | RowMissingNestedField row _ => row
  end.

Module MoreExamples.
Import Examples.

(** The customer schema with one more field, [Email]. *)
Definition emailInfo : FieldInfo := {| Type_ := "string"; JSONTag := "email" |}.
Definition customerWithEmail : gmap string StructInfo :=
  <["Customer" :=
      {| Def := "type Customer";
         Fields := <["Email" := emailInfo]>
                     (Fields (lookupStruct customerGraph "Customer"));
         IsNested := false |}]> customerGraph.

(** The customer schema whose phone record has one more subfield,
    [Ext]. *)
Definition extInfo : FieldInfo := {| Type_ := "string"; JSONTag := "ext" |}.
Definition phoneField : FieldInfo := {| Type_ := "Phone"; JSONTag := "phone" |}.
Definition customerWithExt : gmap string StructInfo :=
  <["Phone" :=
      {| Def := "type Phone";
         Fields := <["Ext" := extInfo]>
                     (Fields (lookupStruct customerGraph "Phone"));
         IsNested := true |}]> customerGraph.

(** A directory with two Go files, a text file and a directory whose
    name ends in .go; and a parser that accepts the first file only. *)
Definition sampleDir : FileSystem :=
  {| Stat_IsNotExist := λ _, false;
     MkdirAll := λ _, None;
     ReadDir := λ _,
       inr [ {| entryName := "order.go"; entryIsDir := false |};
             {| entryName := "notes.txt"; entryIsDir := false |};
             {| entryName := "vendor.go"; entryIsDir := true |};
             {| entryName := "broken.go"; entryIsDir := false |} ] |}.

Definition mixedSyntax : GoSyntax :=
  {| ParseFile := λ path,
       if String.eqb path "input/order.go" then inr orderDecls
       else inl "syntax error";
     Fprint := λ typeSpec, inr ("type " +:+ ast.Name typeSpec) |}.

(** A spreadsheet library that encodes every object as [{}], prints
    the other values as [?] and saves without an error. *)
Definition plainLibrary : excel.Library :=
  {| excel.Marshal := λ _, inr "{}";
     excel.Sprint_v := λ _, "?";
     excel.SaveAs := λ _ _, None |}.

Definition twoRows : list GeneratedRow :=
  [ {[ "id" := VString "A-1"; "amount" := VNumber 3 ]};
    {[ "id" := VString "A-2"; "note" := VString "late" ]} ].

End MoreExamples.

(** The files read by the parser in a stretch of events, in order. *)
Definition parsedFiles (tr : list Event) : list string :=
  omap (λ ev, match ev with EvParseFile path => Some path | _ => None end) tr.

(* ===================================================================== *)
(** * Facts about the string functions *)
(* ===================================================================== *)

Module GoStringsFacts.
Import GoStrings.

Lemma append_nil_l (s : string) : "" +:+ s = s.
Proof. done. Qed.

Lemma append_cons (c : ascii) (a b : string) :
  String c a +:+ b = String c (a +:+ b).
Proof. done. Qed.

Lemma append_nil_r (s : string) : s +:+ "" = s.
Proof.
  induction s as [|c s IH]; [done |]. by rewrite append_cons, IH.
Qed.

Lemma append_assoc (a b c : string) : (a +:+ b) +:+ c = a +:+ (b +:+ c).
Proof.
  induction a as [|x a IH]; [done |]. by rewrite !append_cons, IH.
Qed.

Lemma length_append (a b : string) :
  String.length (a +:+ b) = String.length a + String.length b.
Proof.
  induction a as [|x a IH]; [done |]. rewrite append_cons. cbn. by rewrite IH.
Qed.

Lemma append_ne_nil_r (a b : string) : b ≠ "" → a +:+ b ≠ "".
Proof. by destruct a. Qed.

Lemma stripPrefix_Some (p s r : string) :
  stripPrefix p s = Some r ↔ s = p +:+ r.
Proof.
  revert s. induction p as [|a p IH]; intros s; cbn.
  - split; [by intros [= ->] | by intros ->].
  - destruct s as [|b s]; [split; [done | intros [=]] |].
    destruct (Ascii.eqb_spec a b) as [->|Hne].
    + rewrite IH. split; [by intros -> | by intros [= ->]].
    + split; [done | intros [= -> _]; by destruct Hne].
Qed.

Lemma stripPrefix_app (p r : string) : stripPrefix p (p +:+ r) = Some r.
Proof. by apply stripPrefix_Some. Qed.

Lemma stripPrefix_first (a : ascii) (p s : string) :
  firstByte s ≠ Some a → stripPrefix (String a p) s = None.
Proof.
  destruct s as [|b s]; cbn; [done |].
  intros Hne. destruct (Ascii.eqb_spec a b) as [->|]; [by destruct Hne | done].
Qed.

Lemma eqb_append_grow (c : ascii) (r p : string) :
  String.eqb (String c (r +:+ p)) p = false.
Proof.
  apply String.eqb_neq. intros Heq.
  apply (f_equal String.length) in Heq. cbn in Heq.
  rewrite length_append in Heq. lia.
Qed.

Lemma stripSuffix_app (p r : string) : stripSuffix p (r +:+ p) = Some r.
Proof.
  induction r as [|c r IH].
  - rewrite append_nil_l. destruct p; cbn [stripSuffix]; by rewrite String.eqb_refl.
  - rewrite append_cons. cbn [stripSuffix].
    rewrite eqb_append_grow, IH. done.
Qed.

Lemma stripSuffix_Some (p s r : string) :
  stripSuffix p s = Some r ↔ s = r +:+ p.
Proof.
  split; [| intros ->; apply stripSuffix_app].
  revert r. induction s as [|c s IH]; intros r.
  - cbn. destruct p; cbn; [by intros [= <-] | done].
  - cbn [stripSuffix]. destruct (String.eqb_spec (String c s) p) as [<-|_].
    + by intros [= <-].
    + destruct (stripSuffix p s) as [r'|] eqn:E; [| done].
      cbn. intros [= <-]. by rewrite (IH r').
Qed.

Lemma lastByte_append (a b : string) :
  b ≠ "" → lastByte (a +:+ b) = lastByte b.
Proof.
  intros Hb. induction a as [|c a IH]; [done |].
  rewrite append_cons. cbn [lastByte]. rewrite IH.
  destruct (a +:+ b) eqn:E; [| done].
  destruct a; [cbn in E; by subst | done].
Qed.

Lemma stripSuffix_last (p s : string) :
  p ≠ "" → lastByte s ≠ lastByte p → stripSuffix p s = None.
Proof.
  intros Hp Hne. destruct (stripSuffix p s) as [r|] eqn:E; [| done].
  apply stripSuffix_Some in E as ->. by rewrite lastByte_append in Hne.
Qed.

Lemma TrimPrefix_app (p r : string) : TrimPrefix (p +:+ r) p = r.
Proof. unfold TrimPrefix. by rewrite stripPrefix_app. Qed.

Lemma TrimSuffix_app (p r : string) : TrimSuffix (r +:+ p) p = r.
Proof. unfold TrimSuffix. by rewrite stripSuffix_app. Qed.

Lemma TrimPrefix_other (p s : string) (a : ascii) :
  firstByte p = Some a → firstByte s ≠ Some a → TrimPrefix s p = s.
Proof.
  destruct p as [|a' p]; [done |]. intros [= ->] Hs.
  unfold TrimPrefix. by rewrite stripPrefix_first.
Qed.

Lemma TrimSuffix_other (p s : string) :
  p ≠ "" → lastByte s ≠ lastByte p → TrimSuffix s p = s.
Proof. intros. unfold TrimSuffix. by rewrite stripSuffix_last. Qed.

Lemma firstByte_append (a b : string) :
  a ≠ "" → firstByte (a +:+ b) = firstByte a.
Proof. by destruct a. Qed.

Lemma HasPrefix_true (s p : string) :
  HasPrefix s p = true ↔ ∃ r, s = p +:+ r.
Proof.
  unfold HasPrefix. rewrite bool_decide_eq_true. unfold is_Some.
  by setoid_rewrite stripPrefix_Some.
Qed.

Lemma HasSuffix_true (s p : string) :
  HasSuffix s p = true ↔ ∃ r, s = r +:+ p.
Proof.
  unfold HasSuffix. rewrite bool_decide_eq_true. unfold is_Some.
  by setoid_rewrite stripSuffix_Some.
Qed.

(** A bracketed text starts with an opening bracket and ends with a
    closing one. *)
Lemma bracketed_ends (s : string) :
  bracketed s = true →
  firstByte s = Some "["%char ∧ lastByte s = Some "]"%char.
Proof.
  unfold bracketed. rewrite andb_true_iff, HasPrefix_true, HasSuffix_true.
  intros [[r ->] [r' Hr']]. split; [done |].
  rewrite Hr'. by rewrite lastByte_append.
Qed.

Lemma bracketed_wrap (s : string) : bracketed ("[" +:+ s +:+ "]") = true.
Proof.
  unfold bracketed. rewrite andb_true_iff, HasPrefix_true, HasSuffix_true.
  split; [by eexists |]. exists ("[" +:+ s). by rewrite append_assoc.
Qed.

(** The backward scan. *)
Lemma dropRight_keeps (s : string) (c : ascii) :
  lastByte s = Some c → asciiSpace c = false → dropRightAsciiSpace s = s.
Proof.
  intros Hlast Hc. induction s as [|b s IH]; [done |].
  cbn [dropRightAsciiSpace]. destruct s as [|b' s'].
  - cbn in *. injection Hlast as ->. by rewrite Hc.
  - rewrite IH by done. done.
Qed.

Lemma dropRight_spaces (s : string) :
  allAsciiSpace s = true → dropRightAsciiSpace s = "".
Proof.
  induction s as [|c s IH]; [done |]. cbn.
  rewrite andb_true_iff. intros [Hc Hs]. by rewrite IH, Hc.
Qed.

Lemma dropRight_append_spaces (s ws : string) :
  allAsciiSpace ws = true →
  dropRightAsciiSpace (s +:+ ws) = dropRightAsciiSpace s.
Proof.
  intros Hws. induction s as [|c s IH].
  - cbn. by apply dropRight_spaces.
  - rewrite append_cons. cbn [dropRightAsciiSpace]. by rewrite IH.
Qed.

Section TrimSpaceFacts.
Context `{Unicode}.

(** A text between ASCII bytes that are not white space, with ASCII
    white space around it, is trimmed to itself. *)
Lemma TrimSpace_padded (pre s post : string) (a b : ascii) :
  allAsciiSpace pre = true → allAsciiSpace post = true →
  firstByte s = Some a → nonASCII a = false → asciiSpace a = false →
  lastByte s = Some b → nonASCII b = false → asciiSpace b = false →
  TrimSpace (pre +:+ s +:+ post) = s.
Proof.
  intros Hpre Hpost Hfirst Ha1 Ha2 Hlast Hb1 Hb2.
  induction pre as [|c pre IH].
  - rewrite append_nil_l. destruct s as [|a' s']; [done |].
    cbn in Hfirst. injection Hfirst as ->.
    rewrite append_cons. cbn [TrimSpace]. rewrite Ha1, Ha2.
    unfold trimSpaceRight. rewrite <- append_cons.
    rewrite dropRight_append_spaces by done.
    rewrite (dropRight_keeps _ b) by done.
    by rewrite Hlast, Hb1.
  - cbn in Hpre. apply andb_true_iff in Hpre as [Hc Hpre].
    rewrite append_cons. cbn [TrimSpace]. rewrite Hc.
    assert (nonASCII c = false) as ->.
    { revert Hc. destruct c as [[][][][][][][][]]; by cbn. }
    by apply IH.
Qed.

Lemma TrimSpace_id (s : string) (a b : ascii) :
  firstByte s = Some a → nonASCII a = false → asciiSpace a = false →
  lastByte s = Some b → nonASCII b = false → asciiSpace b = false →
  TrimSpace s = s.
Proof.
  intros. rewrite <- (append_nil_r s) at 1.
  by apply (TrimSpace_padded "" s "" a b).
Qed.
End TrimSpaceFacts.

(** The first piece of a split at a byte does not contain that byte. *)
Lemma hasByte_rev_app (c : ascii) (s1 s2 : string) :
  hasByte c (String.rev_app s1 s2) = hasByte c s1 || hasByte c s2.
Proof.
  revert s2. induction s1 as [|b s1 IH]; intros s2; [done |].
  cbn. rewrite IH. cbn. by destruct (Ascii.eqb b c), (hasByte c s1).
Qed.

Lemma hasByte_rev (c : ascii) (s : string) :
  hasByte c (String.rev s) = hasByte c s.
Proof. unfold String.rev. by rewrite hasByte_rev_app, orb_false_r. Qed.

Lemma HasPrefix_byte (c b : ascii) (s : string) :
  HasPrefix (String b s) (String c "") = Ascii.eqb c b.
Proof.
  unfold HasPrefix. cbn. destruct (Ascii.eqb c b).
  - by apply bool_decide_eq_true_2.
  - apply bool_decide_eq_false_2. by intros [? ?].
Qed.

Lemma splitGo_first_piece (c : ascii) (cur s : string) :
  hasByte c cur = false →
  ∃ piece pieces, splitGo (String c "") 0 cur s = piece :: pieces ∧
                  hasByte c piece = false.
Proof.
  revert cur. induction s as [|b s IH]; intros cur Hcur.
  - eexists _, _. split; [done |]. by rewrite hasByte_rev.
  - cbn [splitGo]. rewrite HasPrefix_byte.
    destruct (Ascii.eqb c b) eqn:E.
    + eexists _, _. split; [done |]. by rewrite hasByte_rev.
    + apply IH. cbn. rewrite Hcur, orb_false_r.
      rewrite Ascii.eqb_sym. done.
Qed.

End GoStringsFacts.

(* ===================================================================== *)
(** * Sanitizing the backend's reply *)
(* ===================================================================== *)

Section SanitizeFacts.
Context `{GoStrings.Unicode}.
Import GoStrings GoStringsFacts.

Lemma firstByte_padded (pad s rest : string) (a : ascii) :
  allAsciiSpace pad = true → firstByte s = Some a →
  firstByte (pad +:+ s +:+ rest) ≠ Some "`"%char ∨ a = "`"%char.
Proof.
  intros Hpad Hs. destruct pad as [|c pad].
  - rewrite append_nil_l. destruct s as [|b s]; [done |].
    cbn in Hs. injection Hs as ->. rewrite append_cons. cbn.
    destruct (decide (a = "`"%char)) as [->|]; [by right | left; congruence].
  - left. rewrite append_cons. cbn. cbn in Hpad.
    apply andb_true_iff in Hpad as [Hc _]. intros [= ->]. done.
Qed.

(** A text that opens and closes with brackets passes through
    unchanged. *)
Lemma sanitize_bracketed (arr : string) :
  bracketed arr = true → sanitize arr = arr.
Proof.
  intros Harr. destruct (bracketed_ends arr Harr) as [Hfirst Hlast].
  unfold sanitize.
  rewrite (TrimSpace_id arr "[" "]") by done.
  rewrite !(TrimPrefix_other _ arr "`") by (rewrite ?Hfirst; done).
  rewrite (TrimSuffix_other _ arr) by (rewrite ?Hlast; done).
  rewrite (TrimSpace_id arr "[" "]") by done.
  unfold bracketed in Harr. apply andb_true_iff in Harr as [-> ->]. done.
Qed.

Lemma sanitize_is_bracketed (s : string) : bracketed (sanitize s) = true.
Proof.
  unfold sanitize.
  set (content := TrimSpace (TrimSuffix _ _)).
  destruct (negb (HasPrefix content "[") || negb (HasSuffix content "]")) eqn:E.
  - apply bracketed_wrap.
  - apply orb_false_iff in E as [E1 E2].
    apply negb_false_iff in E1, E2. unfold bracketed. by rewrite E1, E2.
Qed.

Lemma sanitize_padded (pre arr post : string) :
  allAsciiSpace pre = true → allAsciiSpace post = true →
  bracketed arr = true →
  sanitize (pre +:+ arr +:+ post) = arr.
Proof.
  intros Hpre Hpost Harr.
  destruct (bracketed_ends arr Harr) as [Hfirst Hlast].
  pose proof (sanitize_bracketed arr Harr) as Hid.
  unfold sanitize in *.
  rewrite (TrimSpace_padded pre arr post "[" "]") by done.
  rewrite (TrimSpace_id arr "[" "]") in Hid by done. done.
Qed.

Lemma sanitize_fenced (pre opening padl arr padr post : string) :
  opening = "```json" +:+ newline ∨ opening = "```" +:+ newline →
  allAsciiSpace pre = true → allAsciiSpace padl = true →
  allAsciiSpace padr = true → allAsciiSpace post = true →
  bracketed arr = true →
  sanitize (pre +:+ (opening +:+ (padl +:+ arr +:+ padr) +:+ newline +:+ "```")
                +:+ post) = arr.
Proof.
  intros Hopen Hpre Hpadl Hpadr Hpost Harr.
  destruct (bracketed_ends arr Harr) as [Hfirst Hlast].
  set (mid := padl +:+ arr +:+ padr).
  set (closing := newline +:+ "```").
  assert (Hmid : firstByte (mid +:+ closing) ≠ Some "`"%char).
  { unfold mid. rewrite !append_assoc.
    destruct (firstByte_padded padl arr (padr +:+ closing) "[") as [?|?];
      done. }
  assert (Hopening : firstByte (opening +:+ mid +:+ closing) = Some "`"%char).
  { by destruct Hopen as [-> | ->]. }
  assert (Hclosing : lastByte (opening +:+ mid +:+ closing) = Some "`"%char).
  { rewrite lastByte_append by by apply append_ne_nil_r.
    by rewrite lastByte_append. }
  unfold sanitize.
  rewrite (TrimSpace_padded pre _ post "`" "`") by done.
  assert (TrimPrefix
            (TrimPrefix (opening +:+ mid +:+ closing) ("```json" +:+ newline))
            ("```" +:+ newline) = mid +:+ closing) as ->.
  { destruct Hopen as [-> | ->].
    - rewrite TrimPrefix_app.
      by rewrite (TrimPrefix_other _ (mid +:+ closing) "`").
    - assert (TrimPrefix (("```" +:+ newline) +:+ mid +:+ closing)
                ("```json" +:+ newline)
              = ("```" +:+ newline) +:+ mid +:+ closing) as -> by done.
      by rewrite TrimPrefix_app. }
  rewrite TrimSuffix_app.
  unfold mid. rewrite (TrimSpace_padded padl arr padr "[" "]") by done.
  unfold bracketed in Harr. apply andb_true_iff in Harr as [-> ->]. done.
Qed.

(** C5. A reply made of a JSON array inside a fenced block (opened by
    a json-labelled or a bare fence line, closed by a fence line, with
    or without white space around the block and around the array) is
    sanitized to exactly the array text; a reply that is a bare array
    with white space around it is sanitized to that array; and
    sanitizing is idempotent: a sanitized text is returned unchanged. *)
Theorem sanitize_fence_and_clean :
  (∀ pre opening padl arr padr post : string,
      opening = "```json" +:+ newline ∨ opening = "```" +:+ newline →
      allAsciiSpace pre = true → allAsciiSpace padl = true →
      allAsciiSpace padr = true → allAsciiSpace post = true →
      bracketed arr = true →
      sanitize (pre +:+ (opening +:+ (padl +:+ arr +:+ padr)
                                 +:+ newline +:+ "```") +:+ post) = arr)
  ∧ (∀ pre arr post : string,
        allAsciiSpace pre = true → allAsciiSpace post = true →
        bracketed arr = true →
        sanitize (pre +:+ arr +:+ post) = arr)
  ∧ (∀ s : string, sanitize (sanitize s) = sanitize s).
Proof.
  split; [| split].
  - apply sanitize_fenced.
  - apply sanitize_padded.
  - intros s. apply sanitize_bracketed, sanitize_is_bracketed.
Qed.

End SanitizeFacts.

(* ===================================================================== *)
(** * The extractor's nesting pass *)
(* ===================================================================== *)

Section RangeFacts.
Context `{MapRange}.

Lemma elem_of_range_order {A} (m : gmap string A) (k : string) (a : A) :
  (k, a) ∈ range_order m ↔ m !! k = Some a.
Proof. by rewrite range_order_perm, elem_of_map_to_list. Qed.

Lemma elem_of_range_keys {A} (m : gmap string A) (k : string) :
  k ∈ (range_order m).*1 ↔ is_Some (m !! k).
Proof.
  rewrite list_elem_of_fmap. split.
  - intros [[k' a] [-> Hin]]. apply elem_of_range_order in Hin. by eexists.
  - intros [a Ha]. exists (k, a). by rewrite elem_of_range_order.
Qed.

Lemma NoDup_range_keys {A} (m : gmap string A) : NoDup (range_order m).*1.
Proof. rewrite range_order_perm. apply NoDup_fst_map_to_list. Qed.
End RangeFacts.

Section ExtractorFacts.
Context `{MapRange} `{GoSyntax}.

Lemma markedIf_twice (b1 b2 : bool) (info : StructInfo) :
  markedIf b1 (markedIf b2 info) = markedIf (b2 || b1) info.
Proof. by destruct b1, b2. Qed.

Lemma Fields_markedIf (b : bool) (info : StructInfo) :
  Fields (markedIf b info) = Fields info.
Proof. by destruct b. Qed.

Lemma IsNested_markedIf (b : bool) (info : StructInfo) :
  IsNested (markedIf b info) = b || IsNested info.
Proof. by destruct b. Qed.

Lemma markNested_lookup (g : gmap string StructInfo) (ty n : string) :
  markNested g ty !! n = markedIf (bool_decide (n = ty)) <$> g !! n.
Proof.
  unfold markNested. destruct (g !! ty) as [info|] eqn:E.
  - case_bool_decide as Hn.
    + subst n. by rewrite lookup_insert_eq, E.
    + rewrite lookup_insert_ne by done. by destruct (g !! n).
  - case_bool_decide as Hn.
    + subst n. by rewrite E.
    + by destruct (g !! n).
Qed.

Lemma markAll_lookup (tys : list string) (g : gmap string StructInfo)
    (n : string) :
  foldl markNested g tys !! n = markedIf (bool_decide (n ∈ tys)) <$> g !! n.
Proof.
  revert g. induction tys as [|ty tys IH]; intros g; cbn [foldl].
  - rewrite bool_decide_eq_false_2 by apply not_elem_of_nil.
    by destruct (g !! n).
  - rewrite IH, markNested_lookup. destruct (g !! n) as [info|]; [| done].
    cbn. rewrite markedIf_twice. do 2 f_equal.
    apply eq_bool_prop_intro. rewrite orb_True, !bool_decide_spec.
    by rewrite elem_of_cons.
Qed.

Lemma markFields_eq (g : gmap string StructInfo)
    (fields : gmap string FieldInfo) :
  markFields g fields
  = foldl markNested g ((λ entry, Type_ entry.2) <$> range_order fields).
Proof.
  unfold markFields. generalize (range_order fields). intros l. revert g.
  induction l as [|e l IH]; intros g; [done |]. cbn. apply IH.
Qed.

(** Marking changes no field table, so the types met do not depend on
    how far the pass has come. *)
Lemma typesOf_ext (g g' : gmap string StructInfo) (names : list string) :
  (∀ n, Fields <$> g' !! n = Fields <$> g !! n) →
  typesOf g' names = typesOf g names.
Proof.
  intros Hsame. unfold typesOf. induction names as [|k names IH]; [done |].
  cbn. rewrite IH. f_equal. specialize (Hsame k).
  destruct (g' !! k), (g !! k); cbn in Hsame; simplify_eq; by try rewrite Hsame.
Qed.

Lemma secondPass_steps (names : list string) (g : gmap string StructInfo) :
  foldl (λ acc name,
           match acc !! name with
           | Some info => markFields acc (Fields info)
           | None => acc
           end) g names
  = foldl markNested g (typesOf g names).
Proof.
  revert g. induction names as [|k names IH]; intros g; [done |].
  cbn [foldl]. rewrite IH. unfold typesOf at 2. cbn [mbind list_bind].
  fold (typesOf g names). rewrite foldl_app.
  destruct (g !! k) as [info|] eqn:E.
  - rewrite markFields_eq. f_equal. apply typesOf_ext. intros n.
    rewrite markAll_lookup. destruct (g !! n); [| done].
    cbn. by rewrite Fields_markedIf.
  - done.
Qed.

Lemma elem_of_typesOf (g : gmap string StructInfo) (names : list string)
    (n : string) :
  n ∈ typesOf g names ↔
  ∃ owner info f fi, owner ∈ names ∧ g !! owner = Some info ∧
                     Fields info !! f = Some fi ∧ Type_ fi = n.
Proof.
  unfold typesOf. rewrite list_elem_of_bind. split.
  - intros (owner & Hin & Hown).
    destruct (g !! owner) as [info|] eqn:E; [| by apply not_elem_of_nil in Hin].
    apply list_elem_of_fmap in Hin as ([f fi] & -> & Hin).
    apply elem_of_range_order in Hin. by exists owner, info, f, fi.
  - intros (owner & info & f & fi & Hown & Hg & Hf & <-).
    exists owner. split; [| done]. rewrite Hg.
    apply list_elem_of_fmap. exists (f, fi). by rewrite elem_of_range_order.
Qed.

(** What the second pass leaves in the map. *)
Lemma secondPass_lookup (g : gmap string StructInfo) (n : string) :
  secondPass g !! n
  = markedIf (bool_decide (n ∈ typesOf g (range_order g).*1)) <$> g !! n.
Proof. unfold secondPass. by rewrite secondPass_steps, markAll_lookup. Qed.

Lemma addSpec_unflagged acc spec :
  unflagged acc.1 → unflagged (addSpec acc spec).1.
Proof.
  intros Hacc. destruct spec as [typeSpec| |]; cbn; [| done..].
  destruct (ast.SpecType typeSpec); try done.
  destruct (Fprint typeSpec); [done |]. cbn.
  intros n info. rewrite lookup_insert. case_decide.
  - by intros [= <-].
  - apply Hacc.
Qed.

Lemma addDecl_unflagged acc decl :
  unflagged acc.1 → unflagged (addDecl acc decl).1.
Proof.
  intros Hacc. destruct decl as [tok specs| |]; cbn; [| done..].
  destruct tok; try done.
  revert acc Hacc. induction specs as [|spec specs IH]; intros acc Hacc; [done |].
  cbn. by apply IH, addSpec_unflagged.
Qed.

Lemma firstPass_unflagged (decls : list ast.Decl) :
  unflagged (firstPass decls).1.
Proof.
  unfold firstPass.
  assert (Hnil : unflagged (∅ : gmap string StructInfo, [] : list LogMsg).1)
    by (intros n info; cbn; by rewrite lookup_empty).
  revert Hnil. generalize (∅ : gmap string StructInfo, [] : list LogMsg).
  induction decls as [|decl decls IH]; intros acc Hacc; [done |].
  cbn. by apply IH, addDecl_unflagged.
Qed.

(** On a map without flags, the second pass flags exactly the structs
    that are the type of some field in the map. *)
Lemma secondPass_nested_iff (g0 : gmap string StructInfo) :
  unflagged g0 →
  ∀ name info, secondPass g0 !! name = Some info →
    (IsNested info = true ↔
     ∃ owner oinfo f fi, secondPass g0 !! owner = Some oinfo ∧
                         Fields oinfo !! f = Some fi ∧ Type_ fi = name).
Proof.
  intros Hflags name info. rewrite secondPass_lookup.
  destruct (g0 !! name) as [info0|] eqn:E0; [| done].
  cbn. intros [= <-]. rewrite IsNested_markedIf, (Hflags _ _ E0), orb_false_r.
  rewrite bool_decide_eq_true, elem_of_typesOf. split.
  - intros (owner & oinfo & f & fi & _ & Ho & Hf & Hty).
    exists owner, (markedIf (bool_decide (owner ∈ typesOf g0 (range_order g0).*1)) oinfo), f, fi.
    rewrite secondPass_lookup, Ho, Fields_markedIf. done.
  - intros (owner & oinfo & f & fi & Ho & Hf & Hty).
    rewrite secondPass_lookup in Ho.
    destruct (g0 !! owner) as [oinfo0|] eqn:Eo; [| done].
    cbn in Ho. injection Ho as <-. rewrite Fields_markedIf in Hf.
    exists owner, oinfo0, f, fi. split_and!; try done.
    apply elem_of_range_keys. by rewrite Eo.
Qed.

(** Whenever the tag literal carries a [json:] key, the stored tag holds
    no comma: an option such as [,omitempty] never reaches the graph. *)
Lemma jsonTagOf_no_comma (name value : string) :
  jsonTagOf name (Some value) = name
  ∨ GoStrings.hasByte "," (jsonTagOf name (Some value)) = false.
Proof.
  unfold jsonTagOf.
  destruct (GoStrings.Split _ _) as [|part0 [|part1 parts]]; [by left.. |].
  right. unfold GoStrings.Split.
  destruct (GoStringsFacts.splitGo_first_piece ","
              "" (firstPiece (GoStrings.splitGo GoStrings.dquote 0 "" part1)) eq_refl)
    as (piece & pieces & -> & Hpiece).
  done.
Qed.

(** C1. When extraction succeeds, a record of the resulting graph is
    marked nested if and only if some record of the graph declares a
    field whose declared type is that record's name, whatever the order
    of the declarations and of the map traversals. *)
Theorem extractStructDefs_nested_iff
    (inputPath : string) (tr tr' : list Event)
    (structInfos : gmap string StructInfo) :
  extractStructDefs inputPath tr = (inr structInfos, tr') →
  ∀ name info, structInfos !! name = Some info →
    (IsNested info = true ↔
     ∃ owner oinfo f fi, structInfos !! owner = Some oinfo ∧
                         Fields oinfo !! f = Some fi ∧ Type_ fi = name).
Proof.
  unfold extractStructDefs, mbind, M_bind, mret, M_ret, emit. cbn.
  destruct (ParseFile inputPath) as [err|decls]; [by intros [= ?] |].
  pose proof (firstPass_unflagged decls) as Hflags.
  destruct (firstPass decls) as [g0 logs]. cbn in Hflags.
  destruct (forEach logPrintf logs (tr ++ [EvParseFile inputPath])) as [[] tr1].
  case_bool_decide; [by intros [= ?] |].
  intros [= <- _]. by apply secondPass_nested_iff.
Qed.

End ExtractorFacts.

(* ===================================================================== *)
(** * The row validator *)
(* ===================================================================== *)

Section FirstErrorFacts.
Context {A E : Type} (body : A → option E).

Lemma firstError_Some (l : list A) (e : E) :
  firstError body l = Some e → ∃ x, x ∈ l ∧ body x = Some e.
Proof.
  induction l as [|x l IH]; cbn; [done |].
  destruct (body x) as [e'|] eqn:Ex.
  - intros [= ->]. exists x. split; [left | done].
  - intros (y & Hy & Hb)%IH. exists y. split; [by right | done].
Qed.

Lemma firstError_None (l : list A) :
  firstError body l = None ↔ ∀ x, x ∈ l → body x = None.
Proof.
  induction l as [|x l IH]; cbn.
  - split; [intros _ y Hy; by apply not_elem_of_nil in Hy | done].
  - destruct (body x) as [e'|] eqn:Ex.
    + split; [done |]. intros Hall. specialize (Hall x). rewrite Ex in Hall.
      apply Hall. left.
    + rewrite IH. split.
      * intros Hall y [-> | Hy]%elem_of_cons; [done | by apply Hall].
      * intros Hall y Hy. apply Hall. by right.
Qed.

Lemma firstError_is_Some (l : list A) (x : A) :
  x ∈ l → is_Some (body x) → is_Some (firstError body l).
Proof.
  intros Hx Hb. destruct (firstError body l) as [e|] eqn:E0; [by eexists |].
  rewrite firstError_None in E0. rewrite (E0 x Hx) in Hb. by destruct Hb.
Qed.
End FirstErrorFacts.

Section ValidatorFacts.
Context `{MapRange}.

Lemma validateField_Some (g : gmap string StructInfo) (i : nat)
    (structName : string) (row : GeneratedRow) (f : string) (fi : FieldInfo)
    (e : GenError) :
  validateField g i structName row (f, fi) = Some e →
  fieldDefect g structName i row f fi e.
Proof.
  unfold validateField, fieldDefect. cbn.
  destruct (row !! wireName f fi) as [value|] eqn:Erow.
  - destruct (g !! Type_ fi) as [nestedInfo|] eqn:Ety; [| done].
    destruct value as [| | | | |nested];
      try (intros [= <-]; right; left; by eexists _, _).
    intros (entry & Hin & Hbody)%firstError_Some.
    destruct entry as [nf nfi]. cbn in Hbody.
    apply elem_of_range_order in Hin.
    destruct (nested !! wireName nf nfi) eqn:En; [done |].
    destruct (GoStrings.Contains (JSONTag nfi) "omitempty") eqn:Eopt; [done |].
    injection Hbody as <-.
    right; right. by exists nested, nestedInfo, nf, nfi.
  - intros [= <-]. by left.
Qed.

Lemma validateField_conforming (g : gmap string StructInfo) (i : nat)
    (structName : string) (row : GeneratedRow) (f : string) (fi : FieldInfo) :
  conforming g structName row →
  Fields (lookupStruct g structName) !! f = Some fi →
  validateField g i structName row (f, fi) = None.
Proof.
  intros Hrow Hf. destruct (Hrow f fi Hf) as (value & Hvalue & Hnested).
  unfold validateField. cbn. rewrite Hvalue.
  destruct (g !! Type_ fi) as [nestedInfo|] eqn:Ety; [| done].
  destruct (Hnested nestedInfo eq_refl) as (nested & -> & Hall).
  unfold validateNested. apply firstError_None. intros [nf nfi] Hin. cbn.
  apply elem_of_range_order in Hin. by destruct (Hall nf nfi Hin) as [v ->].
Qed.

Lemma validateRow_Some (g : gmap string StructInfo) (structName : string)
    (i : nat) (row : GeneratedRow) (e : GenError) :
  validateRow g structName i row = Some e →
  ∃ f fi, Fields (lookupStruct g structName) !! f = Some fi ∧
          fieldDefect g structName i row f fi e.
Proof.
  intros ([f fi] & Hin & Hbody)%firstError_Some.
  apply elem_of_range_order in Hin. apply validateField_Some in Hbody.
  by exists f, fi.
Qed.

Lemma validateRow_missing (g : gmap string StructInfo) (structName : string)
    (i : nat) (row : GeneratedRow) (f : string) (fi : FieldInfo) :
  Fields (lookupStruct g structName) !! f = Some fi →
  row !! wireName f fi = None →
  is_Some (validateRow g structName i row).
Proof.
  intros Hf Hrow. apply (firstError_is_Some _ _ (f, fi)).
  - by apply elem_of_range_order.
  - unfold validateField. cbn. rewrite Hrow. by eexists.
Qed.

Lemma validateRow_conforming (g : gmap string StructInfo)
    (structName : string) (i : nat) (row : GeneratedRow) :
  conforming g structName row → validateRow g structName i row = None.
Proof.
  intros Hrow. apply firstError_None. intros [f fi] Hin.
  apply elem_of_range_order in Hin. by apply validateField_conforming.
Qed.

Lemma validateFrom_Some (g : gmap string StructInfo) (structName : string)
    (rows : list GeneratedRow) (start : nat) (e : GenError) :
  validateFrom g structName start rows = Some e →
  ∃ i row,
    rows !! i = Some row ∧
    (∀ j row', j < i → rows !! j = Some row' →
               validateRow g structName (start + j) row' = None) ∧
    validateRow g structName (start + i) row = Some e.
Proof.
  revert start. induction rows as [|row rows IH]; intros start; cbn; [done |].
  destruct (validateRow g structName start row) as [e'|] eqn:Erow.
  - intros [= ->]. exists 0, row. rewrite Nat.add_0_r. split_and!; [done | | done].
    intros j row' Hj. lia.
  - intros (i & row1 & Hi & Hbefore & Hrow)%IH.
    exists (S i), row1. rewrite <- Nat.add_succ_comm. split_and!; [done | | done].
    intros [|j] row' Hj Hrow'.
    + cbn in Hrow'. injection Hrow' as <-. by rewrite Nat.add_0_r.
    + rewrite <- Nat.add_succ_comm. apply Hbefore; [lia | done].
Qed.

Lemma validateFrom_None (g : gmap string StructInfo) (structName : string)
    (rows : list GeneratedRow) (start : nat) :
  (∀ i row, rows !! i = Some row →
            validateRow g structName (start + i) row = None) →
  validateFrom g structName start rows = None.
Proof.
  revert start. induction rows as [|row rows IH]; intros start Hall; [done |].
  cbn. pose proof (Hall 0 row eq_refl) as H0. rewrite Nat.add_0_r in H0.
  rewrite H0. apply IH. intros i row' Hi.
  rewrite Nat.add_succ_comm. by apply Hall.
Qed.

Lemma validateFrom_is_Some (g : gmap string StructInfo) (structName : string)
    (rows : list GeneratedRow) (start i : nat) (row : GeneratedRow) :
  rows !! i = Some row →
  is_Some (validateRow g structName (start + i) row) →
  is_Some (validateFrom g structName start rows).
Proof.
  revert start i. induction rows as [|row0 rows IH]; intros start i; [done |].
  cbn [validateFrom].
  destruct (validateRow g structName start row0) as [e|] eqn:E0; [by eexists |].
  destruct i as [|i]; cbn.
  - intros [= <-]. rewrite Nat.add_0_r, E0. by intros [? ?].
  - intros Hi Hrow. apply (IH (S start) i); [done |].
    by rewrite Nat.add_succ_comm.
Qed.

(** The schema check raises row and field errors only. *)
Lemma validateRows_not_row_count (g : gmap string StructInfo)
    (structName : string) (rows : list GeneratedRow) (e : GenError) :
  validateRows g structName rows = Some e → is_Some (errorRow e).
Proof.
  intros (i & row & _ & _ & Hrow)%validateFrom_Some.
  apply validateRow_Some in Hrow as (f & fi & _ & Hdefect).
  destruct Hdefect as [[_ ->] | [(? & ? & _ & _ & _ & ->)
                                | (? & ? & ? & ? & _ & _ & _ & _ & _ & ->)]];
    by eexists.
Qed.

(** The schema check of [GenerateData] by itself, on any list of rows:
    it fails whenever some row lacks a value under the wire name of a
    declared field; the failure is the first one met in row order; rows
    that all conform pass. *)
Lemma validateRows_defects (g : gmap string StructInfo)
    (structName : string) (rows : list GeneratedRow) :
  ((∃ i row f fi,
       rows !! i = Some row ∧
       Fields (lookupStruct g structName) !! f = Some fi ∧
       row !! wireName f fi = None) →
   is_Some (validateRows g structName rows))
  ∧ (∀ e, validateRows g structName rows = Some e →
       ∃ i row f fi,
         rows !! i = Some row ∧
         (∀ j row', j < i → rows !! j = Some row' →
                    validateRow g structName j row' = None) ∧
         Fields (lookupStruct g structName) !! f = Some fi ∧
         errorRow e = Some (i + 1) ∧
         errorField e = Some (wireName f fi) ∧
         fieldDefect g structName i row f fi e)
  ∧ ((∀ row, row ∈ rows → conforming g structName row) →
     validateRows g structName rows = None).
Proof.
  split_and!.
  - intros (i & row & f & fi & Hi & Hf & Hrow).
    apply (validateFrom_is_Some _ _ _ 0 i row Hi).
    by apply (validateRow_missing _ _ _ _ f fi).
  - intros e (i & row & Hi & Hbefore & Hrow)%validateFrom_Some.
    cbn in Hrow. apply validateRow_Some in Hrow as (f & fi & Hf & Hdefect).
    exists i, row, f, fi. split_and!; try done.
    + destruct Hdefect as [[_ ->] | [(? & ? & _ & _ & _ & ->)
                                    | (? & ? & ? & ? & _ & _ & _ & _ & _ & ->)]];
        done.
    + destruct Hdefect as [[_ ->] | [(? & ? & _ & _ & _ & ->)
                                    | (? & ? & ? & ? & _ & _ & _ & _ & _ & ->)]];
        done.
  - intros Hall. apply validateFrom_None. intros i row Hi.
    apply validateRow_conforming, Hall. by eapply list_elem_of_lookup_2.
Qed.

(** C4, the gate itself: the rows pass the count check exactly when
    there are 25 to 30 of them. *)
Lemma checkRows_count (g : gmap string StructInfo) (structName : string)
    (rows : list GeneratedRow) :
  (checkRows structName g rows = Err (RowCount structName (length rows))
   ↔ ¬ (25 ≤ length rows ≤ 30))
  ∧ (25 ≤ length rows ≤ 30 →
     checkRows structName g rows
     = match validateRows g structName rows with
       | Some e => Err e
       | None => Ok rows
       end).
Proof.
  unfold checkRows.
  destruct (length rows <? 25) eqn:Elo; [| destruct (30 <? length rows) eqn:Ehi];
    cbn [orb].
  - apply Nat.ltb_lt in Elo. split; [split; [lia | done] | lia].
  - apply Nat.ltb_lt in Ehi. split; [split; [lia | done] | lia].
  - apply Nat.ltb_ge in Elo, Ehi. split; [| done]. split; [| lia].
    destruct (validateRows g structName rows) as [e|] eqn:Ev; [| done].
    intros [= ->]. by apply validateRows_not_row_count in Ev as [? ?].
Qed.

End ValidatorFacts.

(* ===================================================================== *)
(** * The delegated strategy: retries and the row-count gate *)
(* ===================================================================== *)

(** Unfold the trace monad down to pairs. *)
Ltac run_trace :=
  unfold mbind, M_bind, mret, M_ret, logPrintf, emit in *; cbn in *.

Section DelegatedFacts.
Context `{MapRange} `{GoStrings.Unicode} `{Backend} `{JSON}.

(** After the reply is in, only log lines are added and nothing
    panics. *)
Lemma parseReply_events (structName : string) (g : gmap string StructInfo)
    (resp : GenerateContentResponse) (tr : list Event) :
  ∃ logs, (parseReply structName g resp tr).2 = tr ++ logs ∧
          (parseReply structName g resp tr).1 ≠ Panic ∧
          Forall (λ ev, ∃ msg, ev = EvLog msg) logs.
Proof.
  unfold parseReply.
  destruct (Candidates resp) as [|candidate more].
  { exists []. run_trace. by rewrite app_nil_r. }
  destruct (Parts (Content candidate)) as [|[content|] parts].
  { exists []. run_trace. by rewrite app_nil_r. }
  2: { exists []. run_trace. by rewrite app_nil_r. }
  run_trace.
  exists [EvLog (LogRawResponse structName content);
          EvLog (LogCleaned structName (sanitize content))].
  rewrite <- app_assoc. cbn.
  destruct (Unmarshal (sanitize content)) as [err|rows]; cbn.
  - split_and!; [done.. |]. repeat constructor; by eexists.
  - split_and!; [done | |].
    + unfold checkRows. repeat case_match; done.
    + repeat constructor; by eexists.
Qed.

(** C4. Once the reply has been parsed into rows, the result is a
    row-count error, naming the record and the count, exactly when the
    number of rows is outside 25..30; inside that band the result is
    what the schema check says. So 24 and 31 rows are rejected, and 25
    or 30 rows that pass the schema check are returned. *)
Theorem parseReply_row_count (structName : string)
    (g : gmap string StructInfo) (resp : GenerateContentResponse)
    (content : string) (parts : list Part) (more : list Candidate)
    (rows : list GeneratedRow) (tr : list Event) :
  Candidates resp
  = {| Content := {| Parts := TextPart content :: parts |} |} :: more →
  Unmarshal (sanitize content) = inr rows →
  let out := (parseReply structName g resp tr).1 in
  (out = Err (RowCount structName (length rows)) ↔ ¬ (25 ≤ length rows ≤ 30))
  ∧ (25 ≤ length rows ≤ 30 →
     out = match validateRows g structName rows with
           | Some e => Err e
           | None => Ok rows
           end)
  ∧ (length rows = 24 → out = Err (RowCount structName 24))
  ∧ (length rows = 31 → out = Err (RowCount structName 31))
  ∧ (length rows = 25 ∨ length rows = 30 →
     validateRows g structName rows = None → out = Ok rows).
Proof.
  intros Hresp Hrows out.
  assert (out = checkRows structName g rows) as ->.
  { unfold out, parseReply. rewrite Hresp. run_trace. by rewrite Hrows. }
  destruct (checkRows_count g structName rows) as [Hiff Hin].
  split_and!; [done.. | | |].
  - intros H24. rewrite <- H24. apply Hiff. lia.
  - intros H31. rewrite <- H31. apply Hiff. lia.
  - intros Hlen Hvalid. rewrite Hin by lia. by rewrite Hvalid.
Qed.

Lemma backendCalls_cons (ev : Event) (tr : list Event) :
  backendCalls (ev :: tr)
  = (if isGenerateContent ev then 1 else 0) + backendCalls tr.
Proof.
  unfold backendCalls. rewrite filter_cons.
  destruct (isGenerateContent ev);
    [by rewrite decide_True | by rewrite decide_False].
Qed.

Lemma backendCalls_logs (logs : list Event) :
  Forall (λ ev, ∃ msg, ev = EvLog msg) logs →
  backendCalls logs = 0 ∧ sleeps logs = 0.
Proof.
  unfold backendCalls, sleeps. induction 1 as [|ev logs [msg ->] _ IH]; [done |].
  rewrite !filter_cons. cbn. by rewrite !decide_False.
Qed.

(** The two iterations of the retry loop, written out. *)
Lemma retryLoop_two (prompt structName : string) (tr : list Event) :
  retryLoop apiRetries 1 prompt structName tr
  = match GenerateContent tr prompt with
    | inr resp => (LoopLeft (Some resp), tr ++ [EvGenerateContent prompt])
    | inl err1 =>
        match GenerateContent
                (tr ++ [EvGenerateContent prompt;
                        EvLog (LogAttemptFailed 1 structName err1);
                        EvSleep Second]) prompt with
        | inr resp =>
            (LoopLeft (Some resp),
             tr ++ [EvGenerateContent prompt;
                    EvLog (LogAttemptFailed 1 structName err1);
                    EvSleep Second; EvGenerateContent prompt])
        | inl err2 =>
            (LoopReturn (BackendFailed structName 2 err2),
             tr ++ [EvGenerateContent prompt;
                    EvLog (LogAttemptFailed 1 structName err1);
                    EvSleep Second; EvGenerateContent prompt;
                    EvLog (LogAttemptFailed 2 structName err2)])
        end
    end.
Proof.
  unfold apiRetries. cbn [retryLoop]. unfold callGenerateContent.
  unfold mbind, M_bind, mret, M_ret, logPrintf, emit. cbn.
  destruct (GenerateContent tr prompt) as [err1|resp1]; [| done].
  unfold apiRetries.
  rewrite bool_decide_eq_false_2 by done.
  rewrite bool_decide_eq_true_2 by done.
  rewrite <- !app_assoc. cbn [app].
  destruct (GenerateContent _ prompt) as [err2|resp2];
    by rewrite <- ?app_assoc.
Qed.

Lemma GenerateData_cases (structName : string) (g : gmap string StructInfo)
    (tr : list Event) :
  GenerateData structName g tr
  = match GenerateContent tr (buildPrompt structName g) with
    | inr resp =>
        parseReply structName g resp
          (tr ++ [EvGenerateContent (buildPrompt structName g)])
    | inl err1 =>
        match GenerateContent
                (tr ++ [EvGenerateContent (buildPrompt structName g);
                        EvLog (LogAttemptFailed 1 structName err1);
                        EvSleep Second]) (buildPrompt structName g) with
        | inr resp =>
            parseReply structName g resp
              (tr ++ [EvGenerateContent (buildPrompt structName g);
                      EvLog (LogAttemptFailed 1 structName err1);
                      EvSleep Second;
                      EvGenerateContent (buildPrompt structName g)])
        | inl err2 =>
            (Err (BackendFailed structName 2 err2),
             tr ++ [EvGenerateContent (buildPrompt structName g);
                    EvLog (LogAttemptFailed 1 structName err1);
                    EvSleep Second;
                    EvGenerateContent (buildPrompt structName g);
                    EvLog (LogAttemptFailed 2 structName err2)])
        end
    end.
Proof.
  unfold GenerateData. generalize (buildPrompt structName g). intros prompt.
  unfold mbind, M_bind. rewrite retryLoop_two.
  destruct (GenerateContent tr prompt) as [err1|resp1]; [| done].
  by destruct (GenerateContent _ prompt) as [err2|resp2].
Qed.

(** C8. One run of [GenerateData] calls the backend at most twice,
    whatever the backend does. When the first call fails, the run logs
    the failure, pauses for one second and calls again, and that is the
    last call; when the second call fails too, the run ends there with a
    backend error that carries the second call's error. *)
Theorem GenerateData_two_attempts (structName : string)
    (g : gmap string StructInfo) (tr : list Event) :
  let prompt := buildPrompt structName g in
  let call := EvGenerateContent prompt in
  ∃ new,
    (GenerateData structName g tr).2 = tr ++ new ∧
    backendCalls new ≤ 2 ∧
    ∀ err1, GenerateContent tr prompt = inl err1 →
      let failed1 := [call; EvLog (LogAttemptFailed 1 structName err1);
                      EvSleep Second] in
      (∃ rest, new = failed1 ++ call :: rest ∧
               backendCalls rest = 0 ∧ sleeps rest = 0) ∧
      ∀ err2, GenerateContent (tr ++ failed1) prompt = inl err2 →
        GenerateData structName g tr
        = (Err (BackendFailed structName 2 err2),
           tr ++ failed1 ++ [call; EvLog (LogAttemptFailed 2 structName err2)]).
Proof.
  intros prompt call. rewrite GenerateData_cases. fold prompt. fold call.
  clearbody prompt.
  destruct (GenerateContent tr prompt) as [err1|resp1] eqn:E1.
  - destruct (GenerateContent
                (tr ++ [call; EvLog (LogAttemptFailed 1 structName err1);
                        EvSleep Second]) prompt) as [err2|resp2] eqn:E2.
    + eexists. split; [done |]. split.
      { rewrite !backendCalls_cons. cbn. lia. }
      intros ? [= <-]. cbn zeta. split.
      * by exists [EvLog (LogAttemptFailed 2 structName err2)].
      * intros err2'. rewrite E2. by intros [= <-].
    + match goal with |- context [parseReply _ _ _ ?t] =>
        destruct (parseReply_events structName g resp2 t)
          as (logs & Htr & _ & Hlogs) end.
      destruct (backendCalls_logs logs Hlogs) as [Hcalls Hsleeps].
      exists ([call; EvLog (LogAttemptFailed 1 structName err1);
               EvSleep Second; call] ++ logs).
      rewrite Htr, <- !app_assoc. cbn [app].
      split; [done |]. split.
      { rewrite !backendCalls_cons. cbn. lia. }
      intros ? [= <-]. cbn zeta. split; [by exists logs |].
      intros err2'. rewrite E2. by intros [=].
  - destruct (parseReply_events structName g resp1 (tr ++ [call]))
      as (logs & Htr & _ & Hlogs).
    destruct (backendCalls_logs logs Hlogs) as [Hcalls Hsleeps].
    exists (call :: logs). rewrite Htr, <- !app_assoc. cbn [app].
    split; [done |]. split; [| intros ? [=]].
    rewrite backendCalls_cons. cbn. lia.
Qed.

End DelegatedFacts.

(* ===================================================================== *)
(** * The pipeline driver *)
(* ===================================================================== *)

Section DriverFacts.
Context `{MapRange} `{GoSyntax} `{GoStrings.Unicode} `{Backend} `{JSON}
        `{Exporter}.

Lemma generationEvent_log (prompt : string) (logs : list Event) :
  Forall (λ ev, ∃ msg, ev = EvLog msg) logs →
  Forall (generationEvent prompt) logs.
Proof. intros Hlogs. eapply Forall_impl; [done |]. by intros ev [msg ->]. Qed.

(** [GenerateData] never panics, calls the backend at least once and
    adds nothing but its own calls, log lines and pauses. *)
Lemma GenerateData_events (structName : string)
    (g : gmap string StructInfo) (tr : list Event) :
  ∃ generation,
    (GenerateData structName g tr).2 = tr ++ generation ∧
    (GenerateData structName g tr).1 ≠ Panic ∧
    Forall (generationEvent (buildPrompt structName g)) generation ∧
    EvGenerateContent (buildPrompt structName g) ∈ generation.
Proof.
  rewrite GenerateData_cases. generalize (buildPrompt structName g).
  intros prompt.
  destruct (GenerateContent tr prompt) as [err1|resp1].
  - destruct (GenerateContent _ prompt) as [err2|resp2].
    + eexists. split; [done |]. split; [done |]. split.
      * by repeat constructor.
      * left.
    + match goal with |- context [parseReply _ _ _ (tr ++ ?pre)] =>
        destruct (parseReply_events structName g resp2 (tr ++ pre))
          as (logs & Htr & Hok & Hlogs);
        exists (pre ++ logs) end.
      rewrite Htr, <- app_assoc. split; [done |]. split; [done |]. split.
      * apply Forall_app. split; [by repeat constructor |].
        by apply generationEvent_log.
      * left.
  - destruct (parseReply_events structName g resp1
                (tr ++ [EvGenerateContent prompt]))
      as (logs & Htr & Hok & Hlogs).
    exists (EvGenerateContent prompt :: logs).
    rewrite Htr, <- app_assoc. split; [done |]. split; [done |]. split.
    + constructor; [done |]. by apply generationEvent_log.
    + left.
Qed.

(** One turn of the driver's loop. *)
Lemma processStructs_turn (outputDir : string) (g : gmap string StructInfo)
    (structName : string) (info : StructInfo)
    (todo : list (string * StructInfo)) (tr : list Event) :
  ∃ segment,
    processStructs outputDir g ((structName, info) :: todo) tr
    = processStructs outputDir g todo (tr ++ segment) ∧
    if IsNested info then segment = [EvLog (LogSkipping structName)]
    else handled outputDir g structName tr segment.
Proof.
  cbn [processStructs]. destruct (IsNested info).
  - exists [EvLog (LogSkipping structName)]. split; [| done].
    by unfold mbind, M_bind, logPrintf, emit.
  - unfold handled.
    set (start := tr ++ [EvLog (LogProcessing structName)]).
    destruct (GenerateData_events structName g start)
      as (generation & Htr & Hok & Hevents & Hcall).
    destruct (GenerateData structName g start) as [out after] eqn:Egen.
    cbn in Htr, Hok. subst after.
    unfold mbind at 1, M_bind at 1, logPrintf at 1, emit at 1. fold start.
    unfold mbind at 1, M_bind at 1. rewrite Egen.
    destruct out as [rows|e|]; [| | done].
    + set (outputPath := filepath_Join outputDir (structName +:+ "_output.xlsx")).
      unfold mbind at 1, M_bind at 1, SaveToExcel at 1.
      eexists. split; [| exists (Ok rows), generation; split_and!; done].
      fold outputPath.
      destruct (SaveToExcel_result (start ++ generation) structName rows
                  outputPath) as [err|];
        unfold mbind, M_bind, logPrintf, emit; unfold start;
        f_equal; by rewrite <- !app_assoc.
    + eexists. split; [| exists (Err e), generation; split_and!; done].
      unfold mbind, M_bind, logPrintf, emit; unfold start.
      f_equal. by rewrite <- !app_assoc.
Qed.

(** The events of a handled struct that reach the backend or the
    exporter are made for that struct. *)
Lemma handled_events (outputDir : string) (g : gmap string StructInfo)
    (structName : string) (before segment : list Event) (ev : Event) :
  handled outputDir g structName before segment →
  ev ∈ segment → isGenerateContent ev = true ∨ (∃ n r p, ev = EvSaveToExcel n r p) →
  eventFor g structName ev.
Proof.
  intros (out & generation & _ & Hevents & _ & Hout) Hev Hkind.
  rewrite Forall_forall in Hevents.
  assert (Hgen : ev ∈ generation → eventFor g structName ev).
  { intros Hin. specialize (Hevents ev Hin).
    destruct Hkind as [Hk | (n & r & p & ->)]; [by destruct ev | done]. }
  destruct out as [rows|e|]; [| | done]; cbn zeta in Hout; subst segment.
  - apply elem_of_cons in Hev as [-> | Hev].
    { destruct Hkind as [? | (? & ? & ? & ?)]; done. }
    apply elem_of_app in Hev as [Hev | Hev]; [by apply Hgen |].
    apply elem_of_cons in Hev as [-> | Hev]; [done |].
    apply list_elem_of_singleton in Hev as ->.
    destruct Hkind as [? | (? & ? & ? & ?)]; done.
  - apply elem_of_cons in Hev as [-> | Hev].
    { destruct Hkind as [? | (? & ? & ? & ?)]; done. }
    apply elem_of_app in Hev as [Hev | Hev]; [by apply Hgen |].
    apply list_elem_of_singleton in Hev as ->.
    destruct Hkind as [? | (? & ? & ? & ?)]; done.
Qed.

(** The loop over any list of entries: it ends with success, calls the
    backend and the exporter for entries that are not nested only, skips
    the nested ones, and handles every entry that is not nested. *)
Lemma processStructs_continues (outputDir : string)
    (g : gmap string StructInfo) (todo : list (string * StructInfo))
    (tr : list Event) :
  ∃ new,
    processStructs outputDir g todo tr = (Ok tt, tr ++ new)
    ∧ (∀ ev, ev ∈ new →
         isGenerateContent ev = true ∨ (∃ n r p, ev = EvSaveToExcel n r p) →
         ∃ structName info,
           (structName, info) ∈ todo ∧ IsNested info = false ∧
           eventFor g structName ev)
    ∧ (∀ structName info,
         (structName, info) ∈ todo → IsNested info = true →
         EvLog (LogSkipping structName) ∈ new)
    ∧ (∀ structName info,
         (structName, info) ∈ todo → IsNested info = false →
         ∃ pre segment post,
           new = pre ++ segment ++ post ∧
           handled outputDir g structName (tr ++ pre) segment).
Proof.
  revert tr. induction todo as [|[structName info] todo IH]; intros tr.
  { exists []. rewrite app_nil_r. split_and!; [done | | |];
      intros; by repeat match goal with
                        | Hin : _ ∈ [] |- _ => apply not_elem_of_nil in Hin
                        end. }
  destruct (processStructs_turn outputDir g structName info todo tr)
    as (segment & -> & Hsegment).
  destruct (IH (tr ++ segment)) as (new & -> & Hcalls & Hskipped & Hhandled).
  exists (segment ++ new). rewrite app_assoc. split_and!; [done | | |].
  - intros ev [Hev | Hev]%elem_of_app Hkind.
    + destruct (IsNested info) eqn:Enested.
      * subst segment. apply list_elem_of_singleton in Hev as ->.
        destruct Hkind as [? | (? & ? & ? & ?)]; done.
      * exists structName, info. split_and!; [left | done |].
        by eapply handled_events.
    + destruct (Hcalls ev Hev Hkind) as (n & i & Hin & Hi & Hfor).
      exists n, i. split_and!; [by right | done..].
  - intros n i [[= -> ->] | Hin]%elem_of_cons Hi.
    + rewrite Hi in Hsegment. subst segment. apply elem_of_app. left. left.
    + apply elem_of_app. right. by eapply Hskipped.
  - intros n i [[= -> ->] | Hin]%elem_of_cons Hi.
    + rewrite Hi in Hsegment. exists [], segment, new.
      by rewrite app_nil_r.
    + destruct (Hhandled n i Hin Hi) as (pre & seg & post & -> & Hseg).
      exists (segment ++ pre), seg, post.
      rewrite <- !app_assoc. split; [done |]. by rewrite <- app_assoc in Hseg.
Qed.

(** The loop of the driver, turn by turn. *)
Lemma processStructs_segments (outputDir : string)
    (g : gmap string StructInfo) (todo : list (string * StructInfo))
    (tr : list Event) :
  ∃ segments,
    processStructs outputDir g todo tr = (Ok tt, tr ++ mjoin segments)
    ∧ recordTurns outputDir g tr todo segments.
Proof.
  revert tr. induction todo as [|[name info] todo IH]; intros tr.
  - exists []. split; [by rewrite app_nil_r |]. split; [done |].
    intros i entry segment Hi. by rewrite lookup_nil in Hi.
  - destruct (processStructs_turn outputDir g name info todo tr)
      as (segment & Hturn & Hsegment).
    destruct (IH (tr ++ segment)) as (segments & Hrest & Hlen & Hturns).
    exists (segment :: segments). split.
    { rewrite Hturn, Hrest. cbn. by rewrite <- app_assoc. }
    split; [cbn; by rewrite Hlen |].
    intros [|i] entry seg Hentry Hseg; cbn in Hentry, Hseg.
    + injection Hentry as <-. injection Hseg as <-. cbn [fst snd take].
      cbn. by rewrite app_nil_r.
    + specialize (Hturns i entry seg Hentry Hseg).
      cbn [take]. cbn. by rewrite app_assoc.
Qed.

(** C9. Whenever the extraction of a file yields a graph, [ProcessModel]
    returns success, and the events it adds after the extraction are
    those of its loop over the graph, struct by struct in the order of
    the iteration: a struct marked nested only gets the line that says
    it is skipped; every other struct is handled whatever happened to
    the structs before it, that is, it is announced, generated, and then
    either its generation error is reported, or it is exported and the
    export error or success is reported.  So every call of the backend
    and of the exporter is made for a struct that is not marked nested,
    and a failure for one struct neither ends the run nor keeps the
    structs after it from their turn. *)
Theorem ProcessModel_skips_nested_and_continues
    (inputPath outputDir : string) (g : gmap string StructInfo)
    (before tr : list Event) :
  extractStructDefs inputPath
    (before ++ [EvLog (LogProcessingFile inputPath)]) = (inr g, tr) →
  ∃ segments,
    ProcessModel inputPath outputDir before = (Ok tt, tr ++ mjoin segments)
    ∧ recordTurns outputDir g tr (range_order g) segments
    ∧ (∀ ev, ev ∈ mjoin segments →
         isGenerateContent ev = true ∨ (∃ n r p, ev = EvSaveToExcel n r p) →
         ∃ structName info,
           g !! structName = Some info ∧ IsNested info = false ∧
           eventFor g structName ev)
    ∧ (∀ structName info,
         g !! structName = Some info → IsNested info = true →
         EvLog (LogSkipping structName) ∈ mjoin segments)
    ∧ (∀ structName info,
         g !! structName = Some info → IsNested info = false →
         ∃ pre segment post,
           mjoin segments = pre ++ segment ++ post ∧
           handled outputDir g structName (tr ++ pre) segment).
Proof.
  intros Hextract.
  destruct (processStructs_segments outputDir g (range_order g) tr)
    as (segments & Hsegments & Hturns).
  destruct (processStructs_continues outputDir g (range_order g) tr)
    as (new & Hrun & Hcalls & Hskipped & Hhandled).
  assert (new = mjoin segments) as ->.
  { rewrite Hsegments in Hrun. injection Hrun as Hrun.
    by apply app_inv_head in Hrun. }
  exists segments. split_and!.
  - unfold ProcessModel, mbind, M_bind, logPrintf, emit.
    by rewrite Hextract.
  - done.
  - intros ev Hev Hkind.
    destruct (Hcalls ev Hev Hkind) as (n & i & Hin & Hi & Hfor).
    exists n, i. by rewrite <- elem_of_range_order.
  - intros n i Hin. apply Hskipped. by apply elem_of_range_order.
  - intros n i Hin. apply Hhandled. by apply elem_of_range_order.
Qed.

End DriverFacts.

(* ===================================================================== *)
(** * The deterministic strategy *)
(* ===================================================================== *)

Section DeterministicFacts.
Context `{MapRange} `{GoFakeIt} `{Clock}.
Import GoStrings.

(** Unfold the draw monad down to matches on options. *)
Ltac run_gen :=
  unfold mbind, Gen_bind, mret, Gen_ret, draw, sliced in *.

Lemma sliceTo_Some (s : string) (hi : nat) :
  hi ≤ String.length s → sliceTo s hi = Some (String.substring 0 hi s).
Proof.
  revert s. induction hi as [|hi IH]; intros s Hlen.
  - by destruct s.
  - destruct s as [|c s]; cbn in *; [lia |]. rewrite IH by lia. done.
Qed.

Lemma sliceTo_None (s : string) (hi : nat) :
  String.length s < hi → sliceTo s hi = None.
Proof.
  revert s. induction hi as [|hi IH]; intros s Hlen; [lia |].
  destruct s as [|c s]; cbn in *; [done |]. rewrite IH by lia. done.
Qed.

Lemma substring_all (s : string) :
  String.substring 0 (String.length s) s = s.
Proof. induction s as [|c s IH]; [done |]. cbn. by rewrite IH. Qed.

Lemma sliceFrom_Some (s : string) (lo : nat) :
  lo ≤ String.length s →
  sliceFrom s lo = Some (String.substring lo (String.length s - lo) s).
Proof.
  revert s. induction lo as [|lo IH]; intros s Hlen.
  - rewrite Nat.sub_0_r, substring_all. by destruct s.
  - destruct s as [|c s]; cbn in *; [lia |]. apply IH. lia.
Qed.

Lemma sliceFrom_None (s : string) (lo : nat) :
  String.length s < lo → sliceFrom s lo = None.
Proof.
  revert s. induction lo as [|lo IH]; intros s Hlen; [lia |].
  destruct s as [|c s]; cbn in *; [done |]. apply IH. lia.
Qed.

Lemma foldGen_app {A B} (body : A → B → Gen A) (acc : A) (l1 l2 : list B)
    (rng : Rng) :
  foldGen body acc (l1 ++ l2) rng
  = match foldGen body acc l1 rng with
    | Some (acc', rng') => foldGen body acc' l2 rng'
    | None => None
    end.
Proof.
  revert acc rng. induction l1 as [|x l1 IH]; intros acc rng; [done |].
  cbn. run_gen. destruct (body acc x rng) as [[acc' rng']|]; [apply IH | done].
Qed.

(** An invariant of the accumulator survives a loop whose body keeps
    it. *)
Lemma foldGen_inv {A B} (P : A → Prop) (body : A → B → Gen A) (l : list B) :
  (∀ acc x rng acc' rng',
      P acc → x ∈ l → body acc x rng = Some (acc', rng') → P acc') →
  ∀ acc rng acc' rng',
    P acc → foldGen body acc l rng = Some (acc', rng') → P acc'.
Proof.
  induction l as [|x l IH]; intros Hbody acc rng acc' rng' Hacc.
  - cbn. run_gen. by intros [= <- _].
  - cbn. run_gen. destruct (body acc x rng) as [[acc1 rng1]|] eqn:E; [| done].
    apply IH.
    + intros ? y ? ? ? ? Hy. apply Hbody; [done | by right].
    + eapply Hbody; [done | left | done].
Qed.

(** The loop ends without a panic when its body always does. *)
Lemma foldGen_total {A B} (body : A → B → Gen A) (l : list B) :
  (∀ acc x rng, is_Some (body acc x rng)) →
  ∀ acc rng, is_Some (foldGen body acc l rng).
Proof.
  intros Hbody. induction l as [|x l IH]; intros acc rng; [by eexists |].
  cbn. run_gen. destruct (Hbody acc x rng) as [[acc1 rng1] ->]. apply IH.
Qed.

(** The three cases of the [switch] on the nested field name. *)
Lemma genPhoneField_p1 (nested : gmap string Value) (fi : FieldInfo)
    (rng : Rng) :
  genPhoneField nested ("p1", fi) rng
  = match sliceTo (PhoneFormatted rng).1 2 with
    | Some code =>
        Some (<[wireName "p1" fi := VString code]> nested,
              (PhoneFormatted rng).2)
    | None => None
    end.
Proof.
  unfold genPhoneField. cbn. run_gen.
  rewrite bool_decide_eq_true_2 by done.
  destruct (PhoneFormatted rng) as [phone rng']. cbn.
  by destruct (sliceTo phone 2).
Qed.

Lemma genPhoneField_p2 (nested : gmap string Value) (fi : FieldInfo)
    (rng : Rng) :
  genPhoneField nested ("p2", fi) rng
  = match sliceFrom (PhoneFormatted rng).1 3 with
    | Some number =>
        Some (<[wireName "p2" fi := VString number]> nested,
              (PhoneFormatted rng).2)
    | None => None
    end.
Proof.
  unfold genPhoneField. cbn. run_gen.
  rewrite bool_decide_eq_false_2 by done.
  rewrite bool_decide_eq_true_2 by done.
  destruct (PhoneFormatted rng) as [phone rng']. cbn.
  by destruct (sliceFrom phone 3).
Qed.

Lemma genPhoneField_other (nested : gmap string Value) (k : string)
    (fi : FieldInfo) (rng : Rng) :
  k ≠ "p1" → k ≠ "p2" → genPhoneField nested (k, fi) rng = Some (nested, rng).
Proof.
  intros H1' H2'. unfold genPhoneField. cbn.
  by rewrite !bool_decide_eq_false_2.
Qed.

Lemma foldGen_phone_other (l : list (string * FieldInfo))
    (nested : gmap string Value) (rng : Rng) :
  "p1" ∉ l.*1 → "p2" ∉ l.*1 →
  foldGen genPhoneField nested l rng = Some (nested, rng).
Proof.
  induction l as [|[k fi] l IH]; intros H1' H2'; [done |].
  cbn in H1', H2'. apply not_elem_of_cons in H1' as [? ?], H2' as [? ?].
  cbn. run_gen. rewrite genPhoneField_other by done. by apply IH.
Qed.

Lemma NoDup_keys_two (la lb lc : list (string * FieldInfo))
    (k1 k2 : string) (v1 v2 : FieldInfo) :
  NoDup (la ++ (k1, v1) :: lb ++ (k2, v2) :: lc).*1 →
  (k1 ∉ la.*1) ∧ (k2 ∉ la.*1) ∧ (k1 ∉ lb.*1) ∧ (k2 ∉ lb.*1) ∧
  (k1 ∉ lc.*1) ∧ (k2 ∉ lc.*1).
Proof.
  rewrite !fmap_app, !fmap_cons, !fmap_app, !fmap_cons. cbn.
  rewrite NoDup_app, NoDup_cons, NoDup_app, NoDup_cons.
  intros (_ & Ha & Hk1 & _ & Hb & Hk2 & _).
  rewrite elem_of_app, elem_of_cons in Hk1.
  split_and!.
  - intros Hin. apply (Ha _ Hin). left.
  - intros Hin. apply (Ha _ Hin). right. apply elem_of_app. right. left.
  - intros Hin. apply Hk1. by left.
  - intros Hin. apply (Hb _ Hin). left.
  - intros Hin. apply Hk1. right. by right.
  - done.
Qed.

(** The phone object comes from two successive draws: whichever of the
    two subfields the traversal meets first takes the first draw, the
    other one the second draw. *)
Lemma genPhone_two_draws (g : gmap string StructInfo) (i1 i2 : FieldInfo)
    (rng : Rng) :
  Fields (lookupStruct g "Phone") !! "p1" = Some i1 →
  Fields (lookupStruct g "Phone") !! "p2" = Some i2 →
  let first := PhoneFormatted rng in
  let second := PhoneFormatted first.2 in
  genPhone g rng
  = match sliceTo first.1 2, sliceFrom second.1 3 with
    | Some code, Some number =>
        Some (<[wireName "p2" i2 := VString number]>
                (<[wireName "p1" i1 := VString code]> ∅), second.2)
    | _, _ => None
    end
  ∨ genPhone g rng
    = match sliceFrom first.1 3, sliceTo second.1 2 with
      | Some number, Some code =>
          Some (<[wireName "p1" i1 := VString code]>
                  (<[wireName "p2" i2 := VString number]> ∅), second.2)
      | _, _ => None
      end.
Proof.
  intros Hp1 Hp2 first second. unfold genPhone.
  pose proof (NoDup_range_keys (Fields (lookupStruct g "Phone"))) as Hnodup.
  apply elem_of_range_order in Hp1, Hp2.
  revert Hnodup Hp1 Hp2.
  generalize (range_order (Fields (lookupStruct g "Phone"))). intros l Hnodup Hp1 Hp2.
  apply list_elem_of_split in Hp1 as (la & lb & ->).
  apply elem_of_app in Hp2 as [Hp2 | Hp2].
  - (* p2 is met before p1 *)
    right. apply list_elem_of_split in Hp2 as (lc & ld & ->).
    rewrite <- app_assoc in Hnodup |- *. cbn [app] in *.
    apply NoDup_keys_two in Hnodup as (Hc2 & Hc1 & Hd2 & Hd1 & Hb2 & Hb1).
    rewrite foldGen_app, foldGen_phone_other by done.
    cbn [foldGen]. run_gen. rewrite genPhoneField_p2. fold first.
    destruct (sliceFrom first.1 3) as [number|]; [| done].
    rewrite foldGen_app, foldGen_phone_other by done.
    cbn [foldGen]. run_gen. rewrite genPhoneField_p1. fold second.
    destruct (sliceTo second.1 2) as [code|]; [| done].
    by rewrite foldGen_phone_other.
  - (* p1 is met before p2 *)
    left. apply elem_of_cons in Hp2 as [[=] | Hp2].
    apply list_elem_of_split in Hp2 as (lc & ld & ->).
    apply NoDup_keys_two in Hnodup as (Ha1 & Ha2 & Hc1 & Hc2 & Hd1 & Hd2).
    rewrite foldGen_app, foldGen_phone_other by done.
    cbn [foldGen]. run_gen. rewrite genPhoneField_p1. fold first.
    destruct (sliceTo first.1 2) as [code|]; [| done].
    rewrite foldGen_app, foldGen_phone_other by done.
    cbn [foldGen]. run_gen. rewrite genPhoneField_p2. fold second.
    destruct (sliceFrom second.1 3) as [number|]; [| done].
    by rewrite foldGen_phone_other.
Qed.

(** C6, as the code has it. For a schema whose phone record declares
    the subfields [p1] and [p2], the value stored for a phone composite
    field is an object keyed by the wire names of these two subfields.
    The subfields come from two successive draws of the phone formatter,
    not from one value: whichever subfield the traversal meets first
    takes the first draw, the other one the second draw; the country
    code is the first two characters of its draw and the subscriber
    number is its draw from index 3 on. *)
Theorem phone_subfields_two_draws (g : gmap string StructInfo)
    (i1 i2 : FieldInfo) (row row' : GeneratedRow) (f : string)
    (fi : FieldInfo) (rng rng' : Rng) :
  Fields (lookupStruct g "Phone") !! "p1" = Some i1 →
  Fields (lookupStruct g "Phone") !! "p2" = Some i2 →
  Type_ fi = "Phone" →
  genField g row (f, fi) rng = Some (row', rng') →
  let first := PhoneFormatted rng in
  let second := PhoneFormatted first.2 in
  rng' = second.2 ∧
  ∃ code number nested,
    row' = <[wireName f fi := VObject nested]> row ∧
    ((sliceTo first.1 2 = Some code ∧ sliceFrom second.1 3 = Some number ∧
      nested = <[wireName "p2" i2 := VString number]>
                 (<[wireName "p1" i1 := VString code]> ∅))
     ∨ (sliceFrom first.1 3 = Some number ∧ sliceTo second.1 2 = Some code ∧
        nested = <[wireName "p1" i1 := VString code]>
                   (<[wireName "p2" i2 := VString number]> ∅))).
Proof.
  intros Hp1 Hp2 Hty. unfold genField. cbn [fst snd].
  rewrite bool_decide_eq_true_2 by done. run_gen.
  intros Hgen.
  destruct (genPhone_two_draws g i1 i2 rng Hp1 Hp2) as [Heq | Heq];
    cbn zeta in Heq; rewrite Heq in Hgen; clear Heq.
  - destruct (sliceTo _ 2) as [code|] eqn:E1; [| done].
    destruct (sliceFrom _ 3) as [number|] eqn:E2; [| done].
    injection Hgen as <- <-. split; [done |].
    eexists code, number, _. split; [done |]. by left.
  - destruct (sliceFrom _ 3) as [number|] eqn:E1; [| done].
    destruct (sliceTo _ 2) as [code|] eqn:E2; [| done].
    injection Hgen as <- <-. split; [done |].
    eexists code, number, _. split; [done |]. by right.
Qed.

(** Rows built by the generator hold no other objects than phone
    objects. *)
Lemma genField_objects (g : gmap string StructInfo) (row row' : GeneratedRow)
    (entry : string * FieldInfo) (rng rng' : Rng) :
  objectsFromPhone g row →
  genField g row entry rng = Some (row', rng') →
  objectsFromPhone g row'.
Proof.
  intros Hrow. unfold genField. run_gen.
  repeat case_bool_decide.
  - destruct (genPhone g rng) as [[nested0 rng0]|] eqn:Ephone; [| done].
    intros [= <- <-] k nested. rewrite lookup_insert. case_decide.
    + intros [= <-]. by eexists _, _.
    + apply Hrow.
  - destruct (Name rng). intros [= <- <-] k nested.
    rewrite lookup_insert. case_decide; [done | apply Hrow].
  - destruct (RandomString _ rng). intros [= <- <-] k nested.
    rewrite lookup_insert. case_decide; [done | apply Hrow].
  - destruct (UUID rng). intros [= <- <-] k nested.
    rewrite lookup_insert. case_decide; [done | apply Hrow].
  - destruct (Number _ _ rng). intros [= <- <-] k nested.
    rewrite lookup_insert. case_decide; [done | apply Hrow].
  - by intros [= <- <-].
Qed.

Lemma genRow_objects (g : gmap string StructInfo) (row : GeneratedRow)
    (rng rng' : Rng) :
  genRow g rng = Some (row, rng') → objectsFromPhone g row.
Proof.
  unfold genRow. apply (foldGen_inv (objectsFromPhone g)).
  - intros acc x r acc' r' Hacc _. by apply genField_objects.
  - intros k nested. by rewrite lookup_empty.
Qed.

Lemma genRows_rows (g : gmap string StructInfo) (count : nat)
    (rows : list GeneratedRow) (rng rng' : Rng) :
  genRows g count rng = Some (rows, rng') →
  length rows = count ∧ Forall (objectsFromPhone g) rows.
Proof.
  revert rows rng rng'. induction count as [|count IH]; intros rows rng rng'; cbn.
  - run_gen. by intros [= <- _].
  - run_gen. destruct (genRow g rng) as [[row rng1]|] eqn:Erow; [| done].
    destruct (genRows g count rng1) as [[rows1 rng2]|] eqn:Erows; [| done].
    intros [= <- _]. destruct (IH _ _ _ Erows) as [Hlen Hall]. split.
    + cbn. by rewrite Hlen.
    + constructor; [by eapply genRow_objects | done].
Qed.

Lemma validateCustomerFrom_None (g : gmap string StructInfo)
    (rows : list GeneratedRow) (start : nat) :
  validateCustomerFrom g start rows = None →
  ∀ i row, rows !! i = Some row →
           validateCustomerRow g (start + i) row = None.
Proof.
  revert start. induction rows as [|row0 rows IH]; intros start; cbn; [done |].
  destruct (validateCustomerRow g start row0) eqn:E0; [done |].
  intros Hrest [|i] row; cbn.
  - intros [= <-]. by rewrite Nat.add_0_r.
  - intros Hi. rewrite <- Nat.add_succ_comm. by apply IH.
Qed.

(** What the generator's own check has established for a row it lets
    through. *)
Lemma validateCustomerRow_None (g : gmap string StructInfo) (i : nat)
    (row : GeneratedRow) (f : string) (fi : FieldInfo) :
  validateCustomerRow g i row = None →
  Fields (lookupStruct g "Customer") !! f = Some fi →
  ∃ value,
    row !! wireName f fi = Some value ∧
    (Type_ fi = "Phone" →
     ∃ nested, value = VObject nested ∧
       ∀ nf nfi, Fields (lookupStruct g "Phone") !! nf = Some nfi →
                 is_Some (nested !! wireName nf nfi)).
Proof.
  intros Hrow Hf. unfold validateCustomerRow in Hrow.
  rewrite firstError_None in Hrow.
  specialize (Hrow (f, fi)). rewrite elem_of_range_order in Hrow.
  specialize (Hrow Hf). unfold validateCustomerField in Hrow. cbn in Hrow.
  destruct (row !! wireName f fi) as [value|]; [| done].
  exists value. split; [done |]. intros Hty.
  rewrite bool_decide_eq_true_2 in Hrow by done.
  destruct value as [| | | | |nested]; try done.
  exists nested. split; [done |]. intros nf nfi Hnf.
  unfold validatePhone in Hrow. rewrite firstError_None in Hrow.
  specialize (Hrow (nf, nfi)). rewrite elem_of_range_order in Hrow.
  specialize (Hrow Hnf). cbn in Hrow.
  by destruct (nested !! wireName nf nfi).
Qed.

Lemma generateCustomer_Ok (g : gmap string StructInfo)
    (rows : list GeneratedRow) :
  generateCustomer g = Ok rows →
  (∃ rng', genRows g 30 (Seed UnixNano) = Some (rows, rng')) ∧
  validateCustomerFrom g 0 rows = None.
Proof.
  unfold generateCustomer.
  destruct (genRows g 30 (Seed UnixNano)) as [[rows0 rng']|]; [| done].
  destruct (validateCustomerFrom g 0 rows0) eqn:Ev; [done |].
  intros [= <-]. split; [by eexists | done].
Qed.

Lemma size_two_keys (w1 w2 : string) (a b : Value) :
  w1 ≠ w2 → size (<[w2 := b]> (<[w1 := a]> (∅ : gmap string Value))) = 2.
Proof.
  intros Hne. rewrite map_size_insert_None.
  - by rewrite map_size_insert_None, map_size_empty.
  - by rewrite lookup_insert_ne, lookup_empty.
Qed.

Lemma genPhone_size (g : gmap string StructInfo) (i1 i2 : FieldInfo)
    (nested : gmap string Value) (rng rng' : Rng) :
  Fields (lookupStruct g "Phone") !! "p1" = Some i1 →
  Fields (lookupStruct g "Phone") !! "p2" = Some i2 →
  wireName "p1" i1 ≠ wireName "p2" i2 →
  genPhone g rng = Some (nested, rng') → size nested = 2.
Proof.
  intros Hp1 Hp2 Hne Hgen.
  destruct (genPhone_two_draws g i1 i2 rng Hp1 Hp2) as [Heq | Heq];
    cbn zeta in Heq; rewrite Heq in Hgen; clear Heq.
  - destruct (sliceTo _ 2); [| done]. destruct (sliceFrom _ 3); [| done].
    injection Hgen as <- _. by apply size_two_keys.
  - destruct (sliceFrom _ 3); [| done]. destruct (sliceTo _ 2); [| done].
    injection Hgen as <- _. by apply size_two_keys.
Qed.

(** C7. Take a schema graph whose phone record declares [p1] and [p2]
    under two different wire names, and whose customer record has no
    struct-typed field other than phone fields. Every run of the
    deterministic strategy that returns rows returns exactly 30 of them;
    each row passes the strategy's own check and the validator of the
    delegated strategy for the customer record; and in each row every
    phone field holds a nested object with exactly two keys. *)
Theorem generateCustomer_thirty_valid_rows (g : gmap string StructInfo)
    (i1 i2 : FieldInfo) (rows : list GeneratedRow) :
  Fields (lookupStruct g "Phone") !! "p1" = Some i1 →
  Fields (lookupStruct g "Phone") !! "p2" = Some i2 →
  wireName "p1" i1 ≠ wireName "p2" i2 →
  (∀ f fi, Fields (lookupStruct g "Customer") !! f = Some fi →
           is_Some (g !! Type_ fi) → Type_ fi = "Phone") →
  generateCustomer g = Ok rows →
  length rows = 30 ∧
  ∀ i row, rows !! i = Some row →
    validateCustomerRow g i row = None ∧
    validateRow g "Customer" i row = None ∧
    ∀ f fi, Fields (lookupStruct g "Customer") !! f = Some fi →
            Type_ fi = "Phone" →
            ∃ nested, row !! wireName f fi = Some (VObject nested) ∧
                      size nested = 2.
Proof.
  intros Hp1 Hp2 Hne Hstructs Hrun.
  apply generateCustomer_Ok in Hrun as [[rng' Hgen] Hvalid].
  apply genRows_rows in Hgen as [Hlen Hobjects]. split; [done |].
  intros i row Hi.
  pose proof (validateCustomerFrom_None g rows 0 Hvalid i row Hi) as Hrow.
  cbn in Hrow. split; [done |].
  rewrite Forall_forall in Hobjects.
  assert (Hfrom : objectsFromPhone g row).
  { apply Hobjects. by eapply list_elem_of_lookup_2. }
  split.
  - apply firstError_None. intros [f fi] Hf.
    apply elem_of_range_order in Hf.
    destruct (validateCustomerRow_None g i row f fi Hrow Hf)
      as (value & Hvalue & Hphone).
    unfold validateField. cbn. rewrite Hvalue.
    destruct (g !! Type_ fi) as [nestedInfo|] eqn:Ety; [| done].
    assert (Hty : Type_ fi = "Phone") by (apply (Hstructs f fi Hf); by eexists).
    destruct (Hphone Hty) as (nested & -> & Hall).
    assert (lookupStruct g "Phone" = nestedInfo) as Hinfo.
    { unfold lookupStruct. by rewrite <- Hty, Ety. }
    rewrite Hinfo in Hall.
    apply firstError_None. intros [nf nfi] Hnf. cbn.
    apply elem_of_range_order in Hnf. by destruct (Hall nf nfi Hnf) as [v ->].
  - intros f fi Hf Hty.
    destruct (validateCustomerRow_None g i row f fi Hrow Hf)
      as (value & Hvalue & Hphone).
    destruct (Hphone Hty) as (nested & -> & _).
    exists nested. split; [done |].
    destruct (Hfrom _ _ Hvalue) as (r & r' & Hnested).
    by eapply genPhone_size.
Qed.

(** When the formatter's strings have three bytes or more, no step of
    the generation panics. *)
Section InBounds.
Hypothesis formatted_length :
  ∀ rng, 3 ≤ String.length (PhoneFormatted rng).1.

Lemma genPhoneField_total (nested : gmap string Value)
    (entry : string * FieldInfo) (rng : Rng) :
  is_Some (genPhoneField nested entry rng).
Proof.
  destruct entry as [k fi]. pose proof (formatted_length rng) as Hlen.
  destruct (decide (k = "p1")) as [-> | Hk1].
  { rewrite genPhoneField_p1, sliceTo_Some by lia. by eexists. }
  destruct (decide (k = "p2")) as [-> | Hk2].
  { rewrite genPhoneField_p2, sliceFrom_Some by lia. by eexists. }
  rewrite genPhoneField_other by done. by eexists.
Qed.

Lemma genField_total (g : gmap string StructInfo) (row : GeneratedRow)
    (entry : string * FieldInfo) (rng : Rng) :
  is_Some (genField g row entry rng).
Proof.
  unfold genField. run_gen. repeat case_bool_decide.
  - destruct (foldGen_total genPhoneField
                (range_order (Fields (lookupStruct g "Phone")))
                genPhoneField_total ∅ rng) as [[nested rng'] Hphone].
    unfold genPhone. rewrite Hphone. by eexists.
  - destruct (Name rng). by eexists.
  - destruct (RandomString _ rng). by eexists.
  - destruct (UUID rng). by eexists.
  - destruct (Number _ _ rng). by eexists.
  - by eexists.
Qed.

Lemma genRows_total (g : gmap string StructInfo) (count : nat) (rng : Rng) :
  is_Some (genRows g count rng).
Proof.
  revert rng. induction count as [|count IH]; intros rng; [by eexists |].
  cbn. run_gen.
  destruct (foldGen_total (genField g)
              (range_order (Fields (lookupStruct g "Customer")))
              (genField_total g) ∅ rng) as [[row rng1] Hrow].
  unfold genRow. rewrite Hrow.
  destruct (IH rng1) as [[rows rng2] ->]. by eexists.
Qed.
End InBounds.

(** C10. The country code is the first two bytes of one formatted
    phone string and the subscriber number is another formatted phone
    string from index 3 on. The first slice is in range exactly when the
    string has two bytes or more, the second exactly when it has three
    or more; out of range, the step panics. So when every string of the
    formatter has length three or more, the generation never panics. *)
Theorem phone_slices_in_bounds :
  (∀ (nested : gmap string Value) (fi : FieldInfo) (rng : Rng),
      let phone := (PhoneFormatted rng).1 in
      (2 ≤ String.length phone →
       genPhoneField nested ("p1", fi) rng
       = Some (<[wireName "p1" fi := VString (String.substring 0 2 phone)]>
                 nested, (PhoneFormatted rng).2))
      ∧ (String.length phone < 2 →
         genPhoneField nested ("p1", fi) rng = None)
      ∧ (3 ≤ String.length phone →
         genPhoneField nested ("p2", fi) rng
         = Some (<[wireName "p2" fi :=
                     VString (String.substring 3 (String.length phone - 3)
                                               phone)]> nested,
                 (PhoneFormatted rng).2))
      ∧ (String.length phone < 3 →
         genPhoneField nested ("p2", fi) rng = None))
  ∧ ((∀ rng, 3 ≤ String.length (PhoneFormatted rng).1) →
     ∀ g : gmap string StructInfo, generateCustomer g ≠ Panic).
Proof.
  split.
  - intros nested fi rng phone. split_and!; intros Hlen.
    + by rewrite genPhoneField_p1, sliceTo_Some.
    + by rewrite genPhoneField_p1, sliceTo_None.
    + by rewrite genPhoneField_p2, sliceFrom_Some.
    + by rewrite genPhoneField_p2, sliceFrom_None.
  - intros Hlen g. unfold generateCustomer.
    destruct (genRows_total Hlen g 30 (Seed UnixNano)) as [[rows rng'] ->].
    by destruct (validateCustomerFrom g 0 rows).
Qed.

End DeterministicFacts.

(* ===================================================================== *)
(** * The schema checks, as their callers run them *)
(* ===================================================================== *)

Section ValidationReport.
Context `{MapRange} `{GoFakeIt} `{Clock}.

Lemma validateCustomerField_Some (g : gmap string StructInfo) (i : nat)
    (row : GeneratedRow) (f : string) (fi : FieldInfo) (e : CustomerError) :
  validateCustomerField g i row (f, fi) = Some e →
  customerDefect g i row f fi e.
Proof.
  unfold validateCustomerField, customerDefect. cbn.
  destruct (row !! wireName f fi) as [value|] eqn:Erow.
  2: { intros [= <-]. by left. }
  case_bool_decide as Hty; [| done].
  destruct value as [| | | | |nested];
    try (intros [= <-]; right; left; by eexists).
  intros ([nf nfi] & Hin & Hbody)%firstError_Some. cbn in Hbody.
  apply elem_of_range_order in Hin.
  destruct (nested !! wireName nf nfi) eqn:En; [done |].
  injection Hbody as <-. right; right. by exists nested, nf, nfi.
Qed.

Lemma validateCustomerFrom_Some (g : gmap string StructInfo)
    (rows : list GeneratedRow) (start : nat) (e : CustomerError) :
  validateCustomerFrom g start rows = Some e →
  ∃ i row,
    rows !! i = Some row ∧
    (∀ j row', j < i → rows !! j = Some row' →
               validateCustomerRow g (start + j) row' = None) ∧
    validateCustomerRow g (start + i) row = Some e.
Proof.
  revert start. induction rows as [|row rows IH]; intros start; cbn; [done |].
  destruct (validateCustomerRow g start row) as [e'|] eqn:Erow.
  - intros [= ->]. exists 0, row. rewrite Nat.add_0_r.
    split; [done |]. split; [intros j row' Hj; lia | done].
  - intros (i & r & Hi & Hbefore & Hr)%IH. exists (S i), r.
    split; [done |]. split.
    + intros [|j] row' Hj Hrow'; cbn in Hrow'.
      * injection Hrow' as <-. by rewrite Nat.add_0_r.
      * replace (start + S j) with (S start + j) by lia.
        apply Hbefore; [lia | done].
    + by replace (start + S i) with (S start + i) by lia.
Qed.

Lemma validateCustomerFrom_is_Some (g : gmap string StructInfo)
    (rows : list GeneratedRow) (start i : nat) (row : GeneratedRow) :
  rows !! i = Some row →
  is_Some (validateCustomerRow g (start + i) row) →
  is_Some (validateCustomerFrom g start rows).
Proof.
  intros Hi Hrow.
  destruct (validateCustomerFrom g start rows) as [e|] eqn:E; [by eexists |].
  rewrite (validateCustomerFrom_None g rows start E i row Hi) in Hrow.
  by destruct Hrow.
Qed.

Lemma validateCustomerRow_conforming (g : gmap string StructInfo) (i : nat)
    (row : GeneratedRow) :
  customerConforming g row → validateCustomerRow g i row = None.
Proof.
  intros Hrow. apply firstError_None. intros [f fi] Hin.
  apply elem_of_range_order in Hin.
  destruct (Hrow f fi Hin) as (value & Hvalue & Hnested).
  unfold validateCustomerField. cbn. rewrite Hvalue.
  case_bool_decide as Hty; [| done].
  destruct (Hnested Hty) as (nested & -> & Hall).
  apply firstError_None. intros [nf nfi] Hnf. cbn.
  apply elem_of_range_order in Hnf. by destruct (Hall nf nfi Hnf) as [v ->].
Qed.

Lemma validateCustomerFrom_conforming (g : gmap string StructInfo)
    (rows : list GeneratedRow) (start : nat) :
  (∀ row, row ∈ rows → customerConforming g row) →
  validateCustomerFrom g start rows = None.
Proof.
  revert start. induction rows as [|row rows IH]; intros start Hall; [done |].
  cbn. rewrite validateCustomerRow_conforming by (apply Hall; left).
  apply IH. intros r Hr. apply Hall. by right.
Qed.

(** C2, as the code has it.  In [GenerateData] the schema check runs on
    lists of 25 to 30 rows; a list of any other length is refused for
    its number of rows.
    On such a list it fails whenever some row lacks a value under the
    wire name of a field declared on the named record.  The failure
    reported is the first one met in row order: it carries the one-based
    position of the first row that fails a check, and the wire name of a
    declared field which that row lacks or holds in a non-conforming
    form.  Rows that hold a value under every wire name, with a
    conforming nested object for every nested field, are returned.
    In [generateCustomer] the check runs on the thirty rows just
    generated, in the same way: a row lacking a wire name of [Customer]
    makes the run fail, the failure is the first one met in row order
    and carries that row's one-based position, and rows that all conform
    are returned. *)
Theorem validation_reports_first_defect (g : gmap string StructInfo) :
  (∀ structName rows,
      ¬ (25 ≤ length rows ≤ 30) →
      checkRows structName g rows = Err (RowCount structName (length rows)))
  ∧ (∀ structName rows,
      25 ≤ length rows ≤ 30 →
      ((∃ i row f fi,
           rows !! i = Some row ∧
           Fields (lookupStruct g structName) !! f = Some fi ∧
           row !! wireName f fi = None) →
       ∃ e, checkRows structName g rows = Err e ∧ is_Some (errorRow e))
      ∧ (∀ e, checkRows structName g rows = Err e →
           ∃ i row f fi,
             rows !! i = Some row ∧
             (∀ j row', j < i → rows !! j = Some row' →
                        validateRow g structName j row' = None) ∧
             Fields (lookupStruct g structName) !! f = Some fi ∧
             errorRow e = Some (i + 1) ∧
             errorField e = Some (wireName f fi) ∧
             fieldDefect g structName i row f fi e)
      ∧ ((∀ row, row ∈ rows → conforming g structName row) →
         checkRows structName g rows = Ok rows))
  ∧ (∀ rows rng',
        genRows g 30 (Seed UnixNano) = Some (rows, rng') →
        ((∃ i row f fi,
             rows !! i = Some row ∧
             Fields (lookupStruct g "Customer") !! f = Some fi ∧
             row !! wireName f fi = None) →
         ∃ e, generateCustomer g = Err e)
        ∧ (∀ e, generateCustomer g = Err e →
             ∃ i row f fi,
               rows !! i = Some row ∧
               (∀ j row', j < i → rows !! j = Some row' →
                          validateCustomerRow g j row' = None) ∧
               Fields (lookupStruct g "Customer") !! f = Some fi ∧
               customerErrorRow e = i + 1 ∧
               customerDefect g i row f fi e)
        ∧ ((∀ row, row ∈ rows → customerConforming g row) →
           generateCustomer g = Ok rows)).
Proof.
  split; [| split].
  - intros structName rows Hlen.
    by apply (checkRows_count g structName rows).
  - intros structName rows Hlen.
    destruct (checkRows_count g structName rows) as [_ Hin].
    rewrite (Hin Hlen).
    destruct (validateRows_defects g structName rows)
      as (Hmissing & Hfirst & Hconforming).
    split_and!.
    + intros [e He]%Hmissing. rewrite He. exists e. split; [done |].
      by eapply validateRows_not_row_count.
    + intros e He.
      destruct (validateRows g structName rows) as [e'|] eqn:Ev; [| done].
      injection He as <-. by apply Hfirst.
    + intros Hall. by rewrite (Hconforming Hall).
  - intros rows rng' Hrows. unfold generateCustomer. rewrite Hrows.
    split_and!.
    + intros (i & row & f & fi & Hi & Hf & Hrow).
      destruct (validateCustomerFrom_is_Some g rows 0 i row Hi) as [e He].
      { apply (firstError_is_Some _ _ (f, fi));
          [by apply elem_of_range_order |].
        unfold validateCustomerField. cbn. rewrite Hrow. by eexists. }
      rewrite He. by exists e.
    + intros e He.
      destruct (validateCustomerFrom g 0 rows) as [e'|] eqn:Ev; [| done].
      injection He as <-.
      apply validateCustomerFrom_Some in Ev as (i & row & Hi & Hbefore & Hrow).
      cbn in Hrow.
      apply firstError_Some in Hrow as ([f fi] & Hin & Hfield).
      apply elem_of_range_order in Hin.
      apply validateCustomerField_Some in Hfield.
      exists i, row, f, fi. split_and!; [done.. | | done].
      destruct Hfield as [[_ ->] | [(? & _ & _ & _ & ->)
                                   | (? & ? & ? & _ & _ & _ & _ & ->)]];
        done.
    + intros Hall. by rewrite validateCustomerFrom_conforming.
Qed.

End ValidationReport.

(* ===================================================================== *)
(** * The statements at the example inputs *)
(* ===================================================================== *)

Module Checks.
Import GoStrings Examples.

(** Close an equation between closed terms by evaluating both sides on
    the virtual machine. *)
Ltac by_vm :=
  intros;
  lazymatch goal with
  | |- @eq ?T ?x ?y => vm_cast_no_check (@eq_refl T y)
  end.

(** The extractor on [orderDecls]: the forward reference from [Order]
    to [Phone] is resolved, and the [omitempty] option is cut away. *)
Example extract_order :
  @extractStructDefs listedRange orderSyntax "order.go" []
  = (inr orderGraph, [EvParseFile "order.go"]).
Proof. vm_compute. reflexivity. Qed.

Example jsonTagOf_cases :
  jsonTagOf "Name" None = "Name"
  ∧ jsonTagOf "Name" (tagLit (jsonKey "name")) = "name"
  ∧ jsonTagOf "Name" (tagLit ("xml:" +:+ dquote +:+ "n" +:+ dquote)) = "Name"
  ∧ jsonTagOf "Name" (tagLit (jsonKey ",omitempty")) = ""
  ∧ wireName "Name" {| Type_ := "string"; JSONTag := "" |} = "Name".
Proof. split_and!; vm_compute; reflexivity. Qed.

Example sanitize_cases :
  @sanitize asciiText "{}" = "[{}]"
  ∧ @sanitize asciiText ("```" +:+ newline +:+ "[1,2]" +:+ newline +:+ "```")
    = "[1,2]"
  ∧ @sanitize asciiText ("  [1,2]" +:+ newline) = "[1,2]"
  ∧ @sanitize asciiText ("```json" +:+ newline +:+ "[1,2]```") = "[[1,2]```]".
Proof. split_and!; vm_compute; reflexivity. Qed.

Example checkRows_band :
  @checkRows listedRange "Order" orderGraph (replicate 24 goodRow)
  = Err (RowCount "Order" 24)
  ∧ @checkRows listedRange "Order" orderGraph (replicate 25 goodRow)
    = Ok (replicate 25 goodRow)
  ∧ @checkRows listedRange "Order" orderGraph (replicate 30 goodRow)
    = Ok (replicate 30 goodRow)
  ∧ @checkRows listedRange "Order" orderGraph (replicate 31 goodRow)
    = Err (RowCount "Order" 31).
Proof. split_and!; by_vm. Qed.

(** The driver on [order.go] when the backend fails twice: the failure
    of [Order] is reported and [Phone] is still reached and skipped. *)
Example ProcessModel_backend_down :
  let call := EvGenerateContent (@buildPrompt listedRange "Order" orderGraph) in
  @ProcessModel listedRange orderSyntax asciiText flakyBackend (rowsJSON [])
    quietExporter "order.go" "output" []
  = (Ok tt,
     [EvLog (LogProcessingFile "order.go"); EvParseFile "order.go";
      EvLog (LogProcessing "Order");
      call; EvLog (LogAttemptFailed 1 "Order" "unavailable"); EvSleep Second;
      call; EvLog (LogAttemptFailed 2 "Order" "deadline exceeded");
      EvLog (LogGenerateFailed "Order"
               (BackendFailed "Order" 2 "deadline exceeded"));
      EvLog (LogSkipping "Phone")]).
Proof. vm_compute. reflexivity. Qed.

(** The driver on [order.go] when the backend answers with 25 good
    rows: [Order] is exported, [Phone] is skipped. *)
Example ProcessModel_exports_order :
  let rows := replicate 25 goodRow in
  @ProcessModel listedRange orderSyntax asciiText (replyBackend "[]")
    (rowsJSON rows) quietExporter "order.go" "output" []
  = (Ok tt,
     [EvLog (LogProcessingFile "order.go"); EvParseFile "order.go";
      EvLog (LogProcessing "Order");
      EvGenerateContent (@buildPrompt listedRange "Order" orderGraph);
      EvLog (LogRawResponse "Order" "[]"); EvLog (LogCleaned "Order" "[]");
      EvSaveToExcel "Order" rows "output/Order_output.xlsx";
      EvLog (LogGenerated "output/Order_output.xlsx");
      EvLog (LogSkipping "Phone")]).
Proof. by_vm. Qed.

(** With a formatter whose strings have two bytes, the slice from index
    3 is out of range and the generator panics. *)
Example generateCustomer_short_phone :
  @generateCustomer listedRange shortFaker fixedClock customerGraph = Panic.
Proof. vm_compute. reflexivity. Qed.

Lemma extractStructDefs_nested_iff_witness :
  @extractStructDefs listedRange orderSyntax "order.go" []
  = (inr orderGraph, [EvParseFile "order.go"])
  ∧ orderGraph !! "Phone" = Some (lookupStruct orderGraph "Phone")
  ∧ (IsNested (lookupStruct orderGraph "Phone") = true ↔
     ∃ owner oinfo f fi, orderGraph !! owner = Some oinfo ∧
                         Fields oinfo !! f = Some fi ∧ Type_ fi = "Phone").
Proof.
  split; [vm_compute; reflexivity |]. split; [vm_compute; reflexivity |].
  apply (@extractStructDefs_nested_iff listedRange orderSyntax "order.go"
           [] [EvParseFile "order.go"] orderGraph).
  - vm_compute. reflexivity.
  - vm_compute. reflexivity.
Defined.

(** C2, as stated, at twenty-five rows of the order schema, which pass
    the count and reach the schema check: the last row lacks the key
    [id], yet the failure that [GenerateData] returns is the one of the
    second row, whose phone value is a scalar; it carries neither the
    position of the row without [id] nor the wire name [id]. *)
Lemma validation_reports_earlier_row :
  let idField := {| Type_ := "string"; JSONTag := "id" |} in
  let earlier := InvalidNested 2 "Order" "contact" (VString "555-1234") in
  length rowsTwoDefects = 25
  ∧ rowsTwoDefects !! 24 = Some rowWithoutId
  ∧ Fields (lookupStruct orderGraph "Order") !! "ID" = Some idField
  ∧ rowWithoutId !! wireName "ID" idField = None
  ∧ @checkRows listedRange "Order" orderGraph rowsTwoDefects = Err earlier
  ∧ (@GenerateData listedRange asciiText (replyBackend "[]")
       (rowsJSON rowsTwoDefects) "Order" orderGraph []).1 = Err earlier
  ∧ ¬ (∃ e, @checkRows listedRange "Order" orderGraph rowsTwoDefects = Err e ∧
            (errorRow e = Some 24 ∨ errorRow e = Some 25) ∧
            errorField e = Some "id").
Proof.
  cbn zeta.
  assert (Hrun : @checkRows listedRange "Order" orderGraph rowsTwoDefects
                 = Err (InvalidNested 2 "Order" "contact"
                                      (VString "555-1234")))
    by by_vm.
  split_and!; [reflexivity | reflexivity | by vm_compute | by vm_compute
               | exact Hrun | by_vm |].
  intros (e & He & Hrow & _). rewrite Hrun in He. injection He as <-.
  cbn in Hrow. by destruct Hrow.
Qed.

Lemma validation_reports_first_defect_witness :
  25 ≤ length rowsLackingId ≤ 30
  ∧ (∃ i row f fi,
        rowsLackingId !! i = Some row ∧
        Fields (lookupStruct orderGraph "Order") !! f = Some fi ∧
        row !! wireName f fi = None)
  ∧ ∃ e, @checkRows listedRange "Order" orderGraph rowsLackingId = Err e ∧
         is_Some (errorRow e).
Proof.
  assert (Hlen : 25 ≤ length rowsLackingId ≤ 30) by (vm_compute; lia).
  assert (Hlacks : ∃ i row f fi,
             rowsLackingId !! i = Some row ∧
             Fields (lookupStruct orderGraph "Order") !! f = Some fi ∧
             row !! wireName f fi = None).
  { exists 24, rowWithoutId, "ID", {| Type_ := "string"; JSONTag := "id" |}.
    split; [reflexivity |]. split; vm_compute; reflexivity. }
  split; [exact Hlen |]. split; [exact Hlacks |].
  exact (proj1 (proj1 (proj2 (@validation_reports_first_defect listedRange
                                countingFaker fixedClock orderGraph))
                      "Order" rowsLackingId Hlen) Hlacks).
Defined.

(** C3 on the code. The subfield [Ext] of [Phone] is tagged
    [ext,omitempty]. The extractor stores the tag as [ext], so the
    validator's test for [omitempty] never succeeds: 25 rows whose phone
    object lacks only [ext] are rejected for the missing nested field. *)
Theorem omitempty_subfield_still_required :
  (@extractStructDefs listedRange orderSyntax "order.go" []).1
  = inr orderGraph
  ∧ jsonTagOf "Ext" (tagLit (jsonKey "ext,omitempty")) = "ext"
  ∧ Fields (lookupStruct orderGraph "Phone") !! "Ext"
    = Some {| Type_ := "string"; JSONTag := "ext" |}
  ∧ @validateRows listedRange orderGraph "Order" [rowWithoutExt]
    = Some (MissingNestedField 1 "Order" "contact" "ext")
  ∧ @checkRows listedRange "Order" orderGraph (replicate 25 rowWithoutExt)
    = Err (MissingNestedField 1 "Order" "contact" "ext").
Proof. split_and!; vm_compute; reflexivity. Qed.

Lemma parseReply_row_count_witness :
  let resp :=
    {| Candidates := [{| Content := {| Parts := [TextPart "[]"] |} |}] |} in
  let rows := replicate 24 goodRow in
  Candidates resp = {| Content := {| Parts := TextPart "[]" :: [] |} |} :: []
  ∧ @Unmarshal (rowsJSON rows) (@sanitize asciiText "[]") = inr rows
  ∧ (@parseReply listedRange asciiText (rowsJSON rows) "Order" orderGraph
       resp []).1 = Err (RowCount "Order" 24).
Proof.
  cbn zeta. split; [reflexivity |]. split; [reflexivity |].
  apply (@parseReply_row_count listedRange asciiText
           (rowsJSON (replicate 24 goodRow)) "Order" orderGraph
           {| Candidates := [{| Content := {| Parts := [TextPart "[]"] |} |}] |}
           "[]" [] [] (replicate 24 goodRow) []);
    reflexivity.
Defined.

(** C5, as stated, at two fenced replies that hold the array [1,2]:
    with a label in capitals, or with lines that end in CR LF, the
    opening fence is none of the two that the code strips, so it stays,
    and the result is not the array. *)
Lemma sanitize_keeps_other_fences :
  bracketed "[1,2]" = true
  ∧ @sanitize asciiText fencedUpper = "[```JSON" +:+ newline +:+ "[1,2]]"
  ∧ @sanitize asciiText fencedCRLF
    = "[```json" +:+ cr +:+ newline +:+ "[1,2]]"
  ∧ @sanitize asciiText fencedUpper ≠ "[1,2]"
  ∧ @sanitize asciiText fencedCRLF ≠ "[1,2]".
Proof. split_and!; vm_compute; first [reflexivity | discriminate]. Qed.

Lemma sanitize_fence_and_clean_witness :
  allAsciiSpace " " = true ∧ bracketed "[1,2]" = true
  ∧ @sanitize asciiText
      ("" +:+ (("```json" +:+ newline) +:+ (" " +:+ "[1,2]" +:+ "")
                 +:+ newline +:+ "```") +:+ newline) = "[1,2]".
Proof.
  split; [reflexivity |]. split; [vm_compute; reflexivity |].
  apply (proj1 (@sanitize_fence_and_clean asciiText));
    [by left | vm_compute; reflexivity ..].
Defined.

(** C6, as stated, at the customer schema: the country code comes from
    the first draw and the subscriber number from the second one, and no
    string of the formatter yields both. *)
Lemma phone_subfields_not_one_value :
  @genPhone listedRange countingFaker customerGraph 0
  = Some ({[ "country_code" := VString "21";
             "number" := VString "3)555-0188" ]}, 2)
  ∧ (@PhoneFormatted countingFaker 0).1 = "212-555-0147"
  ∧ (@PhoneFormatted countingFaker 1).1 = "(303)555-0188"
  ∧ ∀ (rng : @Rng countingFaker) (lo : nat),
      ¬ (sliceTo (@PhoneFormatted countingFaker rng).1 2 = Some "21" ∧
         sliceFrom (@PhoneFormatted countingFaker rng).1 lo
         = Some "3)555-0188").
Proof.
  split_and!; [vm_compute; reflexivity .. |].
  intros rng lo [Hcode Hnumber]. cbn in *.
  destruct (Nat.even rng).
  - clear Hcode.
    do 13 (destruct lo as [|lo]; [by vm_compute in Hnumber |]).
    by vm_compute in Hnumber.
  - by vm_compute in Hcode.
Qed.

Lemma phone_subfields_two_draws_witness :
  let p1 := {| Type_ := "string"; JSONTag := "country_code" |} in
  let p2 := {| Type_ := "string"; JSONTag := "number" |} in
  let phone := {| Type_ := "Phone"; JSONTag := "phone" |} in
  let nested : gmap string Value :=
    {[ "country_code" := VString "21"; "number" := VString "3)555-0188" ]} in
  Fields (lookupStruct customerGraph "Phone") !! "p1" = Some p1
  ∧ Fields (lookupStruct customerGraph "Phone") !! "p2" = Some p2
  ∧ @genField listedRange countingFaker customerGraph ∅ ("Phone", phone) 0
    = Some ({[ "phone" := VObject nested ]}, 2)
  ∧ ∃ code number nested',
      ({[ "phone" := VObject nested ]} : GeneratedRow)
      = <[wireName "Phone" phone := VObject nested']> ∅ ∧
      ((sliceTo "212-555-0147" 2 = Some code ∧
        sliceFrom "(303)555-0188" 3 = Some number ∧
        nested' = <[wireName "p2" p2 := VString number]>
                    (<[wireName "p1" p1 := VString code]> ∅))
       ∨ (sliceFrom "212-555-0147" 3 = Some number ∧
          sliceTo "(303)555-0188" 2 = Some code ∧
          nested' = <[wireName "p1" p1 := VString code]>
                      (<[wireName "p2" p2 := VString number]> ∅))).
Proof.
  cbn zeta. split; [vm_compute; reflexivity |].
  split; [vm_compute; reflexivity |]. split; [vm_compute; reflexivity |].
  apply (@phone_subfields_two_draws listedRange countingFaker customerGraph
           {| Type_ := "string"; JSONTag := "country_code" |}
           {| Type_ := "string"; JSONTag := "number" |}
           ∅ _ "Phone" {| Type_ := "Phone"; JSONTag := "phone" |} 0 2);
    vm_compute; reflexivity.
Defined.

Lemma customer_struct_fields :
  ∀ f fi, Fields (lookupStruct customerGraph "Customer") !! f = Some fi →
          is_Some (customerGraph !! Type_ fi) → Type_ fi = "Phone".
Proof.
  intros f fi Hf. apply elem_of_map_to_list in Hf.
  vm_compute in Hf.
  repeat (apply elem_of_cons in Hf as [Hf | Hf];
          [injection Hf as -> ->; vm_compute; try done; by intros [? [=]] |]).
  by apply not_elem_of_nil in Hf.
Defined.

Lemma customerRows_returned :
  @generateCustomer listedRange countingFaker fixedClock customerGraph
  = Ok customerRows.
Proof. by_vm. Defined.

Lemma generateCustomer_thirty_valid_rows_witness :
  @generateCustomer listedRange countingFaker fixedClock customerGraph
  = Ok customerRows
  ∧ length customerRows = 30
  ∧ ∀ i row, customerRows !! i = Some row →
      @validateCustomerRow listedRange customerGraph i row = None ∧
      @validateRow listedRange customerGraph "Customer" i row = None ∧
      ∀ f fi, Fields (lookupStruct customerGraph "Customer") !! f = Some fi →
              Type_ fi = "Phone" →
              ∃ nested, row !! wireName f fi = Some (VObject nested) ∧
                        size nested = 2.
Proof.
  split; [exact customerRows_returned |].
  apply (@generateCustomer_thirty_valid_rows listedRange countingFaker
           fixedClock customerGraph
           {| Type_ := "string"; JSONTag := "country_code" |}
           {| Type_ := "string"; JSONTag := "number" |} customerRows).
  - vm_compute. reflexivity.
  - vm_compute. reflexivity.
  - vm_compute. discriminate.
  - exact customer_struct_fields.
  - exact customerRows_returned.
Defined.

Lemma GenerateData_two_attempts_witness :
  let prompt := @buildPrompt listedRange "Order" orderGraph in
  let call := EvGenerateContent prompt in
  let failed1 := [call; EvLog (LogAttemptFailed 1 "Order" "unavailable");
                  EvSleep Second] in
  @GenerateContent flakyBackend [] prompt = inl "unavailable"
  ∧ @GenerateContent flakyBackend ([] ++ failed1) prompt
    = inl "deadline exceeded"
  ∧ @GenerateData listedRange asciiText flakyBackend (rowsJSON []) "Order"
      orderGraph []
    = (Err (BackendFailed "Order" 2 "deadline exceeded"),
       [] ++ failed1
          ++ [call; EvLog (LogAttemptFailed 2 "Order" "deadline exceeded")]).
Proof.
  cbn zeta. split; [reflexivity |]. split; [reflexivity |].
  destruct (@GenerateData_two_attempts listedRange asciiText flakyBackend
              (rowsJSON []) "Order" orderGraph [])
    as (new & _ & _ & Hfailed).
  destruct (Hfailed "unavailable" eq_refl) as [_ Hsecond].
  exact (Hsecond "deadline exceeded" eq_refl).
Defined.

Lemma ProcessModel_skips_nested_and_continues_witness :
  let tr := [EvLog (LogProcessingFile "order.go"); EvParseFile "order.go"] in
  @extractStructDefs listedRange orderSyntax "order.go"
    ([] ++ [EvLog (LogProcessingFile "order.go")])
  = (inr orderGraph, tr)
  ∧ ∃ segments,
      @ProcessModel listedRange orderSyntax asciiText flakyBackend
        (rowsJSON []) quietExporter "order.go" "output" []
      = (Ok tt, tr ++ mjoin segments)
      ∧ EvLog (LogSkipping "Phone") ∈ mjoin segments
      ∧ ∃ pre segment post,
          mjoin segments = pre ++ segment ++ post ∧
          @handled listedRange asciiText flakyBackend (rowsJSON [])
            quietExporter "output" orderGraph "Order" (tr ++ pre) segment.
Proof.
  cbn zeta. split; [vm_compute; reflexivity |].
  destruct (@ProcessModel_skips_nested_and_continues listedRange
              orderSyntax asciiText flakyBackend (rowsJSON [])
              quietExporter "order.go" "output" orderGraph []
              [EvLog (LogProcessingFile "order.go"); EvParseFile "order.go"])
    as (segments & Hrun & _ & _ & Hskipped & Hhandled).
  - vm_compute; reflexivity.
  - exists segments. split; [exact Hrun |]. split.
    + apply (Hskipped "Phone" (lookupStruct orderGraph "Phone"));
        vm_compute; reflexivity.
    + apply (Hhandled "Order" (lookupStruct orderGraph "Order"));
        vm_compute; reflexivity.
Defined.

Lemma countingFaker_lengths :
  ∀ rng, 3 ≤ String.length (@PhoneFormatted countingFaker rng).1.
Proof.
  intros rng. cbn. destruct (Nat.even rng); vm_compute; lia.
Defined.

Lemma phone_slices_in_bounds_witness :
  (∀ rng, 3 ≤ String.length (@PhoneFormatted countingFaker rng).1)
  ∧ @generateCustomer listedRange countingFaker fixedClock customerGraph
    ≠ Panic.
Proof.
  split; [exact countingFaker_lengths |].
  exact (proj2 (@phone_slices_in_bounds listedRange countingFaker fixedClock)
               countingFaker_lengths customerGraph).
Defined.

End Checks.

(* ===================================================================== *)
(** * Further facts: what the extractor collects *)
(* ===================================================================== *)

Section InsertAllFacts.
Context {A : Type}.

Lemma insertAll_app (m : gmap string A) (l1 l2 : list (string * A)) :
  insertAll m (l1 ++ l2) = insertAll (insertAll m l1) l2.
Proof. apply foldl_app. Qed.

Lemma insertAll_is_Some (l : list (string * A)) (m : gmap string A)
    (k : string) :
  is_Some (insertAll m l !! k) ↔ is_Some (m !! k) ∨ k ∈ l.*1.
Proof.
  revert m. induction l as [|[k0 a0] l IH]; intros m; cbn.
  - split; [by left | intros [? | Hin]; [done | by apply not_elem_of_nil in Hin]].
  - fold (insertAll (<[k0:=a0]> m) l). rewrite IH, lookup_insert_is_Some.
    rewrite elem_of_cons. destruct (decide (k0 = k)) as [-> | Hne]; [tauto |].
    split; [intros [[? | [_ ?]] | ?] | intros [? | [? | ?]]]; (done || tauto).
Qed.

Lemma insertAll_Some (l : list (string * A)) (m : gmap string A)
    (k : string) (a : A) :
  insertAll m l !! k = Some a → m !! k = Some a ∨ (k, a) ∈ l.
Proof.
  revert m. induction l as [|[k0 a0] l IH]; intros m; cbn; [by left |].
  fold (insertAll (<[k0:=a0]> m) l). intros [Hm | Hin]%IH.
  - rewrite lookup_insert in Hm. case_decide as Hk.
    + subst k0. injection Hm as ->. right. left.
    + by left.
  - right. by right.
Qed.
End InsertAllFacts.

Section ExtractorMore.
Context `{MapRange} `{GoSyntax}.

Lemma addSpecs_insertAll (specs : list ast.Spec)
    (acc : gmap string StructInfo * list LogMsg) :
  (foldl addSpec acc specs).1 = insertAll acc.1 (specs ≫= structOfSpec).
Proof.
  revert acc. induction specs as [|spec specs IH]; intros acc; [done |].
  cbn [foldl mbind list_bind]. rewrite IH, insertAll_app. f_equal.
  destruct spec as [typeSpec| |]; cbn; [| done..].
  destruct (ast.SpecType typeSpec); try done.
  by destruct (Fprint typeSpec).
Qed.

Lemma firstPass_insertAll (decls : list ast.Decl) :
  (firstPass decls).1 = insertAll ∅ (printedStructs decls).
Proof.
  unfold firstPass, printedStructs.
  change (∅ : gmap string StructInfo)
    with ((∅ : gmap string StructInfo), ([] : list LogMsg)).1 at 2.
  generalize ((∅ : gmap string StructInfo), ([] : list LogMsg)).
  induction decls as [|decl decls IH]; intros acc; [done |].
  cbn [foldl mbind list_bind]. rewrite IH, insertAll_app. f_equal.
  destruct decl as [tok specs| |]; cbn; [| done..].
  destruct tok; try done. apply addSpecs_insertAll.
Qed.

(** The nesting pass keeps the keys of the map. *)
Lemma secondPass_is_Some (g : gmap string StructInfo) (name : string) :
  is_Some (secondPass g !! name) ↔ is_Some (g !! name).
Proof. rewrite secondPass_lookup. by rewrite fmap_is_Some. Qed.

(** X1. When the file parses, the extraction fails for want of struct
    definitions exactly when the file declares no struct type that the
    printer renders; otherwise the graph holds exactly the names of the
    declared structs, each with the printed text and the fields of one
    of its declarations. *)
Theorem extractStructDefs_keys (inputPath : string) (tr : list Event)
    (decls : list ast.Decl) :
  ParseFile inputPath = inr decls →
  let res := (extractStructDefs inputPath tr).1 in
  (res = inl (NoStructDefinitions inputPath) ↔ printedStructs decls = [])
  ∧ (printedStructs decls ≠ [] → ∃ g, res = inr g)
  ∧ ∀ g, res = inr g →
      (∀ name, is_Some (g !! name) ↔ name ∈ (printedStructs decls).*1)
      ∧ ∀ name info, g !! name = Some info →
          ∃ declared, (name, declared) ∈ printedStructs decls ∧
                      Def info = Def declared ∧
                      Fields info = Fields declared.
Proof.
  intros Hparse. unfold extractStructDefs, mbind, M_bind, mret, M_ret, emit.
  cbn. rewrite Hparse.
  pose proof (firstPass_insertAll decls) as Hfirst.
  destruct (firstPass decls) as [g0 logs]. cbn in Hfirst. subst g0.
  destruct (forEach logPrintf logs (tr ++ [EvParseFile inputPath])) as [[] tr1].
  set (g0 := insertAll ∅ (printedStructs decls)).
  assert (Hkeys : ∀ name, is_Some (secondPass g0 !! name)
                          ↔ name ∈ (printedStructs decls).*1).
  { intros name. rewrite secondPass_is_Some. unfold g0.
    rewrite insertAll_is_Some, lookup_empty. split; [| by right].
    intros [[? ?] | ?]; done. }
  assert (Hempty : size (secondPass g0) = 0 ↔ printedStructs decls = []).
  { rewrite map_size_empty_iff. split.
    - intros Hg. destruct (printedStructs decls) as [|[name info] l] eqn:E; [done |].
      assert (is_Some (secondPass g0 !! name)) as [? Hsome].
      { apply Hkeys. left. }
      by rewrite Hg, lookup_empty in Hsome.
    - intros Hnil. apply map_empty. intros name.
      apply eq_None_not_Some. rewrite Hkeys, Hnil. apply not_elem_of_nil. }
  case_bool_decide as Hsize; cbn.
  - split_and!.
    + split; [intros _; by apply Hempty | done].
    + intros Hne. by destruct Hne; apply Hempty.
    + by intros g [=].
  - split_and!.
    + split; [by intros [=] | intros Hnil; by destruct Hsize; apply Hempty].
    + intros _. by eexists.
    + intros g [= <-]. split; [done |]. intros name info.
      rewrite secondPass_lookup.
      destruct (g0 !! name) as [info0|] eqn:E0; [| done].
      cbn. intros [= <-]. exists info0.
      apply insertAll_Some in E0 as [E0 | E0]; [by rewrite lookup_empty in E0 |].
      split; [done |]. unfold markedIf. by case_match.
Qed.

(** The fields the first pass stores for a struct. *)
Lemma addNames_is_Some (field : ast.Field) (fields : gmap string FieldInfo)
    (name : string) :
  is_Some (addNames field fields !! name) ↔
  is_Some (fields !! name)
  ∨ (name ∈ ast.Names field ∧ is_Some (fieldTypeOf (ast.Typ field))).
Proof.
  unfold addNames. revert fields.
  induction (ast.Names field) as [|n names IH]; intros fields; cbn.
  - split; [by left | intros [? | [Hin _]]; [done | by apply not_elem_of_nil in Hin]].
  - rewrite IH. rewrite elem_of_cons.
    destruct (fieldTypeOf (ast.Typ field)) as [ty|] eqn:Ety.
    + rewrite lookup_insert_is_Some.
      destruct (decide (n = name)) as [-> | Hne].
      * split; [intros _ | tauto]. right. split; [by left | by eexists].
      * split.
        -- intros [[? | [_ ?]] | [? ?]]; [done | tauto | tauto].
        -- intros [? | [[? | ?] ?]]; [tauto | by subst | tauto].
    + split; [intros [? | [? [? ?]]]; [by left | done] |].
      intros [? | [_ [? ?]]]; [by left | done].
Qed.

Lemma addNames_Some (field : ast.Field) (fields : gmap string FieldInfo)
    (name : string) (fi : FieldInfo) :
  addNames field fields !! name = Some fi →
  fields !! name = Some fi
  ∨ (name ∈ ast.Names field ∧
     fieldTypeOf (ast.Typ field) = Some (Type_ fi) ∧
     JSONTag fi = jsonTagOf name (ast.Tag field)).
Proof.
  unfold addNames. revert fields.
  induction (ast.Names field) as [|n names IH]; intros fields; cbn; [by left |].
  intros [Hold | (Hin & Hty & Htag)]%IH.
  - destruct (fieldTypeOf (ast.Typ field)) as [ty|] eqn:Ety; [| by left].
    rewrite lookup_insert in Hold. case_decide as Hn; [| by left].
    subst n. injection Hold as <-. right. split_and!; [left | done..].
  - right. split_and!; [by right | done..].
Qed.

(** X2. The fields stored for a struct are those whose type is a name or
    a qualified name: a field name has an entry exactly when some field
    declaring it has such a type, so fields of any other type (pointers,
    slices, maps, ...) are dropped without an error; and every entry holds
    the type and the JSON tag of a declaration of that name. *)
Theorem collectFields_entries (fieldList : list ast.Field) (name : string) :
  (is_Some (collectFields fieldList !! name) ↔
   ∃ field, field ∈ fieldList ∧ name ∈ ast.Names field ∧
            is_Some (fieldTypeOf (ast.Typ field)))
  ∧ ∀ fi, collectFields fieldList !! name = Some fi →
      ∃ field, field ∈ fieldList ∧ name ∈ ast.Names field ∧
               fieldTypeOf (ast.Typ field) = Some (Type_ fi) ∧
               JSONTag fi = jsonTagOf name (ast.Tag field).
Proof.
  unfold collectFields.
  assert (Hgen : ∀ fields : gmap string FieldInfo,
    (is_Some (foldl (λ fields field, addNames field fields) fields fieldList
              !! name) ↔
     is_Some (fields !! name) ∨
     ∃ field, field ∈ fieldList ∧ name ∈ ast.Names field ∧
              is_Some (fieldTypeOf (ast.Typ field)))
    ∧ ∀ fi, foldl (λ fields field, addNames field fields) fields fieldList
            !! name = Some fi →
        fields !! name = Some fi ∨
        ∃ field, field ∈ fieldList ∧ name ∈ ast.Names field ∧
                 fieldTypeOf (ast.Typ field) = Some (Type_ fi) ∧
                 JSONTag fi = jsonTagOf name (ast.Tag field)).
  { induction fieldList as [|field fieldList IH]; intros fields; cbn.
    - split; [| by left]. split; [by left |].
      intros [? | (? & Hin & _)]; [done | by apply not_elem_of_nil in Hin].
    - destruct (IH (addNames field fields)) as [IH1 IH2]. split.
      + rewrite IH1, addNames_is_Some. split.
        * intros [[? | [? ?]] | (f & ? & ?)]; [by left | |].
          -- right. exists field. split; [left | done].
          -- right. exists f. split; [by right | done].
        * intros [? | (f & [-> | ?]%elem_of_cons & ?)].
          -- by left; left.
          -- by left; right.
          -- right. by exists f.
      + intros fi [Hold | (f & Hin & Hrest)]%IH2.
        * apply addNames_Some in Hold as [? | ?]; [by left |].
          right. exists field. split; [left | done].
        * right. exists f. split; [by right | done]. }
  destruct (Hgen ∅) as [H1' H2']. split.
  - rewrite H1', lookup_empty. split; [| by right].
    intros [[? ?] | ?]; done.
  - intros fi [Hold | ?]%H2'; [by rewrite lookup_empty in Hold | done].
Qed.

(** X4. The nesting pass keeps the keys, the printed text and the
    fields of every record; it only raises nested flags, never lowers
    one; and running it again changes nothing. *)
Theorem secondPass_only_flags (g : gmap string StructInfo) :
  (∀ name, is_Some (secondPass g !! name) ↔ is_Some (g !! name))
  ∧ (∀ name info', secondPass g !! name = Some info' →
       ∃ info, g !! name = Some info ∧ Def info' = Def info ∧
               Fields info' = Fields info ∧
               (IsNested info = true → IsNested info' = true))
  ∧ secondPass (secondPass g) = secondPass g.
Proof.
  split_and!.
  - apply secondPass_is_Some.
  - intros name info'. rewrite secondPass_lookup.
    destruct (g !! name) as [info|]; [| done]. cbn. intros [= <-].
    exists info. split; [done |]. unfold markedIf. by case_match.
  - apply map_eq. intros name. rewrite (secondPass_lookup (secondPass g)).
    rewrite !secondPass_lookup. destruct (g !! name) as [info|]; [| done].
    cbn. rewrite markedIf_twice. do 2 f_equal.
    apply eq_bool_prop_intro. rewrite orb_True, !bool_decide_spec.
    rewrite !elem_of_typesOf. split; [| by left].
    intros [? | (owner & oinfo & f & fi & Hin & Ho & Hf & Hty)]; [done |].
    rewrite secondPass_lookup in Ho.
    destruct (g !! owner) as [oinfo0|] eqn:Eo; [| done].
    cbn in Ho. injection Ho as <-. rewrite Fields_markedIf in Hf.
    exists owner, oinfo0, f, fi. split_and!; try done.
    apply elem_of_range_keys. by rewrite Eo.
Qed.

End ExtractorMore.

(* ===================================================================== *)
(** * Further facts: the JSON tag of a field *)
(* ===================================================================== *)

Module GoStringsMore.
Import GoStrings GoStringsFacts.

Lemma hasByte_append (c : ascii) (s1 s2 : string) :
  hasByte c (s1 +:+ s2) = hasByte c s1 || hasByte c s2.
Proof.
  induction s1 as [|b s1 IH]; [done |].
  rewrite append_cons. cbn. rewrite IH. by rewrite orb_assoc.
Qed.

Lemma rev_app_rev_app (a cur r : string) :
  String.rev_app (String.rev_app a cur) r = String.rev_app cur (a +:+ r).
Proof.
  revert cur r. induction a as [|c a IH]; intros cur r; [done |].
  cbn [String.rev_app]. rewrite IH. by rewrite append_cons.
Qed.

(** Splitting at a byte: the first piece ends at the first occurrence. *)
Lemma splitGo_byte_piece (c : ascii) (a cur rest : string) :
  hasByte c a = false →
  splitGo (String c "") 0 cur (a +:+ String c rest)
  = String.rev_app cur a :: splitGo (String c "") 0 "" rest.
Proof.
  revert cur. induction a as [|b a IH]; intros cur Ha.
  - rewrite append_nil_l. cbn [splitGo]. rewrite HasPrefix_byte.
    by rewrite Ascii.eqb_refl.
  - cbn in Ha. apply orb_false_iff in Ha as [Hb Ha].
    rewrite append_cons. cbn [splitGo]. rewrite HasPrefix_byte.
    rewrite Ascii.eqb_sym, Hb. by rewrite IH.
Qed.

Lemma splitGo_byte_last (c : ascii) (a cur : string) :
  hasByte c a = false →
  splitGo (String c "") 0 cur a = [String.rev_app cur a].
Proof.
  revert cur. induction a as [|b a IH]; intros cur Ha; [done |].
  cbn in Ha. apply orb_false_iff in Ha as [Hb Ha].
  cbn [splitGo]. rewrite HasPrefix_byte.
  rewrite Ascii.eqb_sym, Hb. by rewrite IH.
Qed.

(** Whatever the separator, the first piece extends what was read. *)
Lemma splitGo_head (sep s : string) (skip : nat) (cur : string) :
  ∃ x pieces, splitGo sep skip cur s = String.rev_app cur x :: pieces.
Proof.
  revert skip cur. induction s as [|c s IH]; intros skip cur.
  - by exists "", [].
  - cbn [splitGo]. destruct skip as [|k]; [| apply IH].
    destruct (HasPrefix (String c s) sep).
    + by eexists "", _.
    + destruct (IH 0 (String c cur)) as (x & pieces & ->).
      by exists (String c x), pieces.
Qed.

Lemma dquote_append (s : string) : dquote +:+ s = String "034" s.
Proof. done. Qed.

Lemma jsonKey_not_prefix (a more : string) :
  hasByte ":" a = false →
  HasPrefix (a +:+ String "034" more) ("json:" +:+ dquote) = false.
Proof.
  intros Ha. apply bool_decide_eq_false_2. intros [r Hr].
  change ("json:" +:+ dquote)
    with (String "j" (String "s" (String "o" (String "n" (String ":"
            (String "034" "")))))) in Hr.
  destruct a as [|c1 [|c2 [|c3 [|c4 [|c5 a]]]]];
    rewrite ?append_cons, ?append_nil_l in Hr;
    cbn [stripPrefix] in Hr; cbn [hasByte] in Ha;
    repeat match type of Hr with
           | context [Ascii.eqb ?x ?y] =>
               destruct (Ascii.eqb_spec x y); [subst |]
           end; try done.
Qed.

Lemma splitGo_jsonKey_piece (more a cur : string) :
  hasByte ":" a = false →
  ∃ x pieces, splitGo ("json:" +:+ dquote) 0 cur (a +:+ String "034" more)
              = String.rev_app cur (a +:+ String "034" x) :: pieces.
Proof.
  remember ("json:" +:+ dquote) as sep eqn:Hsep.
  revert cur. induction a as [|b a IH]; intros cur Ha.
  - pose proof (jsonKey_not_prefix "" more eq_refl) as Hno.
    rewrite <- Hsep in Hno. rewrite append_nil_l in *.
    cbn [splitGo]. rewrite Hno.
    destruct (splitGo_head sep more 0 (String "034" cur))
      as (x & pieces & ->).
    by exists x, pieces.
  - pose proof (jsonKey_not_prefix (String b a) more Ha) as Hno.
    rewrite <- Hsep in Hno.
    cbn in Ha. apply orb_false_iff in Ha as [_ Ha].
    rewrite append_cons in *. cbn [splitGo]. rewrite Hno.
    destruct (IH (String b cur) Ha) as (x & pieces & ->).
    exists x, pieces. by rewrite append_cons.
Qed.

Lemma splitGo_jsonKey_first (t : string) :
  splitGo ("json:" +:+ dquote) 0 "" ("json:" +:+ dquote +:+ t)
  = "" :: splitGo ("json:" +:+ dquote) 0 "" t.
Proof.
  change ("json:" +:+ dquote +:+ t)
    with (String "j" (String "s" (String "o" (String "n" (String ":"
            (String "034" t)))))).
  cbn [splitGo]. unfold HasPrefix at 1.
  rewrite bool_decide_eq_true_2; [done |].
  by exists t.
Qed.

Lemma trimRightByte_id (c : ascii) (s : string) :
  hasByte c s = false → trimRightByte s c = s.
Proof.
  induction s as [|b s IH]; [done |]. cbn.
  intros [Hb Hs]%orb_false_iff. rewrite (IH Hs), Hb. by destruct s.
Qed.

Lemma trimRightByte_last (c : ascii) (s : string) :
  trimRightByte (s +:+ String c "") c = trimRightByte s c.
Proof.
  induction s as [|b s IH].
  - rewrite append_nil_l. cbn. by rewrite Ascii.eqb_refl.
  - rewrite append_cons. cbn. by rewrite IH.
Qed.

End GoStringsMore.

(** X3. For a raw tag literal that opens with the [json] key, the stored
    tag is the name in front of the first comma: the options after the
    name and the further keys of the tag are dropped.  The name and its
    options hold no colon and no quote, the name holds no comma, and the
    literal holds no backquote inside. *)
Theorem jsonTagOf_json_key_first (name N opts more : string) :
  GoStrings.hasByte "`" (N +:+ opts +:+ more) = false →
  GoStrings.hasByte ":" (N +:+ opts) = false →
  GoStrings.hasByte "034" (N +:+ opts) = false →
  GoStrings.hasByte "," N = false →
  opts = "" ∨ GoStrings.firstByte opts = Some ","%char →
  jsonTagOf name
    (Some ("`json:" +:+ GoStrings.dquote +:+ N +:+ opts +:+
           GoStrings.dquote +:+ more +:+ "`"))
  = N.
Proof.
  intros Hbq Hcolon Hquote Hcomma Hopts.
  unfold jsonTagOf. cbn zeta.
  set (body := "json:" +:+ GoStrings.dquote +:+ N +:+ opts +:+
               GoStrings.dquote +:+ more).
  assert (Hbody : GoStrings.hasByte "`" body = false).
  { unfold body. rewrite !GoStringsMore.hasByte_append in *.
    apply orb_false_iff in Hbq as [-> [-> ->]%orb_false_iff]. done. }
  assert (Htrim : GoStrings.Trim ("`" +:+ body +:+ "`") "`" = body).
  { unfold GoStrings.Trim.
    rewrite <- GoStringsFacts.append_assoc, GoStringsMore.trimRightByte_last.
    rewrite GoStringsFacts.append_cons, GoStringsFacts.append_nil_l.
    cbn [GoStrings.trimRightByte].
    rewrite GoStringsMore.trimRightByte_id by done.
    unfold body. rewrite !GoStringsFacts.append_cons. done. }
  replace ("`json:" +:+ GoStrings.dquote +:+ N +:+ opts +:+
           GoStrings.dquote +:+ more +:+ "`")
    with ("`" +:+ body +:+ "`").
  2:{ unfold body. rewrite !GoStringsFacts.append_cons.
      rewrite GoStringsFacts.append_nil_l.
      by rewrite <- !GoStringsFacts.append_assoc. }
  rewrite Htrim. unfold body, GoStrings.Split.
  rewrite GoStringsMore.splitGo_jsonKey_first.
  rewrite GoStringsMore.dquote_append, <- GoStringsFacts.append_assoc.
  destruct (GoStringsMore.splitGo_jsonKey_piece more (N +:+ opts) "" Hcolon)
    as (x & pieces & ->).
  cbn [String.rev_app]. unfold GoStrings.dquote.
  rewrite GoStringsMore.splitGo_byte_piece by done.
  cbn [firstPiece String.rev_app].
  destruct Hopts as [-> | Hfirst].
  - rewrite GoStringsFacts.append_nil_r.
    by rewrite GoStringsMore.splitGo_byte_last.
  - destruct opts as [|c opts]; [done |]. injection Hfirst as ->.
    by rewrite GoStringsMore.splitGo_byte_piece.
Qed.


(* ===================================================================== *)
(** * Further facts: what the validator accepts *)
(* ===================================================================== *)

Section ValidatorMore.
Context `{MapRange}.

Lemma validateNested_None (i : nat) (structName jsonTag : string)
    (nested : gmap string Value) (nestedFields : gmap string FieldInfo) :
  validateNested i structName jsonTag nested nestedFields = None ↔
  ∀ nf nfi, nestedFields !! nf = Some nfi →
    is_Some (nested !! wireName nf nfi) ∨
    GoStrings.Contains (JSONTag nfi) "omitempty" = true.
Proof.
  unfold validateNested. rewrite firstError_None. split.
  - intros Hall nf nfi Hin. apply elem_of_range_order in Hin.
    specialize (Hall _ Hin). cbn in Hall.
    destruct (nested !! wireName nf nfi); [left; by eexists |].
    destruct (GoStrings.Contains (JSONTag nfi) "omitempty"); [by right | done].
  - intros Hall [nf nfi] Hin. apply elem_of_range_order in Hin. cbn.
    destruct (Hall nf nfi Hin) as [[v ->] | Hopt]; [done |].
    rewrite Hopt. by destruct (nested !! wireName nf nfi).
Qed.

Lemma validateRow_None (g : gmap string StructInfo) (structName : string)
    (i : nat) (row : GeneratedRow) :
  validateRow g structName i row = None ↔ accepted g structName row.
Proof.
  unfold validateRow, accepted. rewrite firstError_None. split.
  - intros Hall f fi Hin. apply elem_of_range_order in Hin.
    specialize (Hall _ Hin). unfold validateField in Hall. cbn in Hall.
    destruct (row !! wireName f fi) as [value|]; [| done].
    exists value. split; [done |]. intros nestedInfo Hty.
    rewrite Hty in Hall. destruct value as [| | | | |nested]; try done.
    exists nested. split; [done |].
    exact (proj1 (validateNested_None _ _ _ _ _) Hall).
  - intros Hacc [f fi] Hin. apply elem_of_range_order in Hin.
    destruct (Hacc f fi Hin) as (value & Hvalue & Hnested).
    unfold validateField. cbn. rewrite Hvalue.
    destruct (g !! Type_ fi) as [nestedInfo|]; [| done].
    destruct (Hnested nestedInfo eq_refl) as (nested & -> & Hall).
    by apply validateNested_None.
Qed.

(** X5. The schema check lets a list of rows through exactly when every
    row holds a value under every wire name of the record and, for each
    field whose type is a record of the graph, an object that holds
    every wire name of that record, a subfield whose stored tag contains
    the text omitempty being exempt; the order in which the fields are
    visited plays no part. *)
Theorem validateRows_accepts_iff (g : gmap string StructInfo)
    (structName : string) (rows : list GeneratedRow) :
  validateRows g structName rows = None ↔
  ∀ row, row ∈ rows → accepted g structName row.
Proof.
  unfold validateRows. generalize 0.
  induction rows as [|row rows IH]; intros start; cbn.
  - split; [intros _ row Hin; by apply not_elem_of_nil in Hin | done].
  - destruct (validateRow g structName start row) as [e|] eqn:Erow.
    + split; [done |]. intros Hall.
      assert (Hacc : accepted g structName row) by (apply Hall; left).
      apply (validateRow_None g structName start) in Hacc. congruence.
    + apply validateRow_None in Erow. rewrite IH. split.
      * intros Hall r [-> | Hin]%elem_of_cons; [done | by apply Hall].
      * intros Hall r Hin. apply Hall. by right.
Qed.

(** Rows that pass the check are accepted one by one. *)
Lemma validateRows_None_accepted (g : gmap string StructInfo)
    (structName : string) (rows : list GeneratedRow) (row : GeneratedRow) :
  validateRows g structName rows = None → row ∈ rows →
  accepted g structName row.
Proof.
  intros Hnone [i Hi]%list_elem_of_lookup_1.
  apply (validateRow_None g structName (0 + i)).
  destruct (validateRow g structName (0 + i) row) as [e|] eqn:Erow; [| done].
  destruct (validateFrom_is_Some g structName rows 0 i row Hi) as [e' He'];
    [by eexists |].
  unfold validateRows in Hnone. congruence.
Qed.

(** X6. For a name that is not a record of the graph the schema check
    has no field to look at: every list of rows passes it, and the
    rows are returned as soon as there are between 25 and 30 of them. *)
Theorem checkRows_unknown_struct (g : gmap string StructInfo)
    (structName : string) (rows : list GeneratedRow) :
  g !! structName = None →
  validateRows g structName rows = None
  ∧ (25 ≤ length rows ≤ 30 → checkRows structName g rows = Ok rows).
Proof.
  intros Hname.
  assert (Hnone : validateRows g structName rows = None).
  { apply validateFrom_None. intros i row _. apply validateRow_None.
    intros f fi. unfold lookupStruct. rewrite Hname. cbn.
    by rewrite lookup_empty. }
  split; [done |]. intros Hlen.
  destruct (checkRows_count g structName rows) as [_ Hin].
  by rewrite (Hin Hlen), Hnone.
Qed.

(** X7. Keys beyond the wire names of the schema are tolerated: a row
    that passes the check still passes it after any keys are added to
    it, at any position in the list. *)
Theorem validateRow_extra_keys (g : gmap string StructInfo)
    (structName : string) (i j : nat) (row row' : GeneratedRow) :
  row ⊆ row' →
  validateRow g structName i row = None →
  validateRow g structName j row' = None.
Proof.
  intros Hsub Hrow. apply validateRow_None. apply validateRow_None in Hrow.
  intros f fi Hf. destruct (Hrow f fi Hf) as (value & Hvalue & Hnested).
  exists value. split; [| done]. by eapply lookup_weaken.
Qed.

End ValidatorMore.


(* ===================================================================== *)
(** * Further facts: the delegated strategy *)
(* ===================================================================== *)

Section DelegatedMore.
Context `{MapRange} `{GoStrings.Unicode} `{Backend} `{JSON}.
Import GoStrings GoStringsFacts.

Lemma sleeps_cons (ev : Event) (tr : list Event) :
  sleeps (ev :: tr) = (if isSleep ev then 1 else 0) + sleeps tr.
Proof.
  unfold sleeps. rewrite filter_cons.
  destruct (isSleep ev); by case_decide.
Qed.

Lemma backendCalls_app (a b : list Event) :
  backendCalls (a ++ b) = backendCalls a + backendCalls b.
Proof. unfold backendCalls. by rewrite filter_app, length_app. Qed.

Lemma sleeps_app (a b : list Event) : sleeps (a ++ b) = sleeps a + sleeps b.
Proof. unfold sleeps. by rewrite filter_app, length_app. Qed.

Lemma checkRows_Ok (structName : string) (g : gmap string StructInfo)
    (rows rows' : list GeneratedRow) :
  checkRows structName g rows = Ok rows' →
  rows' = rows ∧ 25 ≤ length rows ≤ 30 ∧ validateRows g structName rows = None.
Proof.
  unfold checkRows.
  destruct (length rows <? 25) eqn:Elo; [done |].
  destruct (30 <? length rows) eqn:Ehi; [done |]. cbn.
  apply Nat.ltb_ge in Elo, Ehi.
  destruct (validateRows g structName rows); [done |].
  by intros [= <-].
Qed.

Lemma parseReply_Ok (structName : string) (g : gmap string StructInfo)
    (resp : GenerateContentResponse) (tr tr' : list Event)
    (rows : list GeneratedRow) :
  parseReply structName g resp tr = (Ok rows, tr') →
  ∃ content,
    Unmarshal (sanitize content) = inr rows ∧
    checkRows structName g rows = Ok rows ∧
    tr' = tr ++ [EvLog (LogRawResponse structName content);
                 EvLog (LogCleaned structName (sanitize content))].
Proof.
  unfold parseReply.
  destruct (Candidates resp) as [|candidate more]; [by run_trace |].
  destruct (Parts (Content candidate)) as [|[content|] parts];
    [by run_trace | | by run_trace].
  run_trace. destruct (Unmarshal (sanitize content)) as [err|decoded] eqn:E;
    [done |].
  intros [= Hcheck <-]. exists content.
  destruct (checkRows_Ok _ _ _ _ Hcheck) as (-> & _ & _).
  split_and!; [done.. |]. by rewrite <- app_assoc.
Qed.

Lemma GenerateData_Ok_reply (structName : string)
    (g : gmap string StructInfo) (tr tr' : list Event)
    (rows : list GeneratedRow) :
  GenerateData structName g tr = (Ok rows, tr') →
  ∃ content before,
    Unmarshal (sanitize content) = inr rows ∧
    checkRows structName g rows = Ok rows ∧
    tr' = before ++ [EvLog (LogRawResponse structName content);
                     EvLog (LogCleaned structName (sanitize content))].
Proof.
  rewrite GenerateData_cases. generalize (buildPrompt structName g).
  intros prompt Hrun.
  assert (∃ resp before, parseReply structName g resp before = (Ok rows, tr'))
    as (resp & before & Hparse).
  { destruct (GenerateContent tr prompt) as [err1|resp1]; [| by eexists _, _].
    destruct (GenerateContent _ prompt) as [err2|resp2]; [done |].
    by eexists _, _. }
  apply parseReply_Ok in Hparse as (content & Hdecode & Hcheck & ->).
  by exists content, before.
Qed.

(** X8. The rows [GenerateData] returns are the decoded form of the
    sanitized reply text, which the run has logged raw and cleaned;
    there are between 25 and 30 of them, and each one is a row the
    schema check accepts. *)
Theorem GenerateData_returns_checked_rows (structName : string)
    (g : gmap string StructInfo) (tr tr' : list Event)
    (rows : list GeneratedRow) :
  GenerateData structName g tr = (Ok rows, tr') →
  25 ≤ length rows ≤ 30
  ∧ (∀ row, row ∈ rows → accepted g structName row)
  ∧ ∃ content,
      Unmarshal (sanitize content) = inr rows ∧
      EvLog (LogRawResponse structName content) ∈ tr' ∧
      EvLog (LogCleaned structName (sanitize content)) ∈ tr'.
Proof.
  intros (content & before & Hdecode & Hcheck & ->)%GenerateData_Ok_reply.
  apply checkRows_Ok in Hcheck as (_ & Hlen & Hvalid).
  split; [done |]. split.
  - intros row Hin. by eapply validateRows_None_accepted.
  - exists content. split; [done |].
    split; apply elem_of_app; right; [left | right; left].
Qed.

(** The two shapes of a run: one call, or a failed call, a pause and a
    second call; log lines apart, nothing follows the last call. *)
Lemma GenerateData_shape (structName : string)
    (g : gmap string StructInfo) (tr : list Event) :
  let call := EvGenerateContent (buildPrompt structName g) in
  ∃ logs,
    Forall (λ ev, ∃ msg, ev = EvLog msg) logs
    ∧ (GenerateData structName g tr).1 ≠ Panic
    ∧ ((∃ resp, GenerateContent tr (buildPrompt structName g) = inr resp ∧
                (GenerateData structName g tr).2 = tr ++ call :: logs)
       ∨ (∃ err1, GenerateContent tr (buildPrompt structName g) = inl err1 ∧
                  (GenerateData structName g tr).2
                  = tr ++ [call; EvLog (LogAttemptFailed 1 structName err1);
                           EvSleep Second; call] ++ logs)).
Proof.
  cbn zeta. rewrite GenerateData_cases. generalize (buildPrompt structName g).
  intros prompt.
  destruct (GenerateContent tr prompt) as [err1|resp1].
  - destruct (GenerateContent _ prompt) as [err2|resp2].
    + exists [EvLog (LogAttemptFailed 2 structName err2)].
      split; [repeat constructor; by eexists |]. split; [done |].
      right. by exists err1.
    + match goal with |- context [parseReply _ _ _ ?t] =>
        destruct (parseReply_events structName g resp2 t)
          as (logs & Htr & Hok & Hlogs) end.
      exists logs. split; [done |]. split; [done |].
      right. exists err1. split; [done |]. by rewrite Htr, <- app_assoc.
  - destruct (parseReply_events structName g resp1
                (tr ++ [EvGenerateContent prompt]))
      as (logs & Htr & Hok & Hlogs).
    exists logs. split; [done |]. split; [done |].
    left. exists resp1. split; [done |]. by rewrite Htr, <- app_assoc.
Qed.

(** X9. Every run of [GenerateData] calls the backend once or twice and
    pauses exactly once between two calls, never otherwise; it does not
    panic; and when the first call yields a reply that call is the only
    one, whatever becomes of the reply: a reply that cannot be decoded or
    fails a check is not asked for again. *)
Theorem GenerateData_calls_and_pauses (structName : string)
    (g : gmap string StructInfo) (tr : list Event) :
  ∃ new,
    (GenerateData structName g tr).2 = tr ++ new
    ∧ (GenerateData structName g tr).1 ≠ Panic
    ∧ 1 ≤ backendCalls new ≤ 2
    ∧ sleeps new + 1 = backendCalls new
    ∧ (∀ resp, GenerateContent tr (buildPrompt structName g) = inr resp →
         backendCalls new = 1).
Proof.
  destruct (GenerateData_shape structName g tr)
    as (logs & Hlogs & Hok & [(resp & Hfirst & Htr) | (err1 & Hfirst & Htr)]);
    destruct (backendCalls_logs logs Hlogs) as [Hcalls Hsleeps];
    eexists; (split; [exact Htr |]); (split; [exact Hok |]).
  - rewrite backendCalls_cons, sleeps_cons, Hcalls, Hsleeps.
    cbn [isGenerateContent isSleep Nat.add].
    split_and!; [lia.. | done].
  - rewrite backendCalls_app, sleeps_app, Hcalls, Hsleeps.
    rewrite !backendCalls_cons, !sleeps_cons.
    change (backendCalls []) with 0. change (sleeps []) with 0.
    cbn [isGenerateContent isSleep Nat.add].
    split_and!; [lia.. |]. intros resp Hresp. congruence.
Qed.

(** X10. A reply that is not a bracketed text is taken for the content
    of an array: freed of the white space around it, it is wrapped in
    brackets, also when only one of the two brackets is missing.  The
    text starts and ends with ASCII bytes that are neither white space
    nor back quotes. *)
Theorem sanitize_wraps_unbracketed (pre s post : string) (a b : ascii) :
  allAsciiSpace pre = true → allAsciiSpace post = true →
  firstByte s = Some a → nonASCII a = false → asciiSpace a = false →
  lastByte s = Some b → nonASCII b = false → asciiSpace b = false →
  a ≠ "`"%char → b ≠ "`"%char →
  bracketed s = false →
  sanitize (pre +:+ s +:+ post) = "[" +:+ s +:+ "]".
Proof.
  intros Hpre Hpost Hfirst Ha1 Ha2 Hlast Hb1 Hb2 Ha Hb Hs.
  unfold sanitize.
  rewrite (TrimSpace_padded pre s post a b) by done.
  rewrite !(TrimPrefix_other _ s "`")
    by (rewrite ?Hfirst; first [done | congruence]).
  rewrite (TrimSuffix_other _ s).
  2: done.
  2: { rewrite Hlast.
       change (lastByte (newline +:+ "```")) with (Some "`"%char).
       congruence. }
  rewrite (TrimSpace_id s a b) by done.
  unfold bracketed in Hs.
  destruct (HasPrefix s "["), (HasSuffix s "]"); done.
Qed.

End DelegatedMore.


Section PromptFacts.
Context `{MapRange}.
Import GoStrings GoStringsFacts.

Lemma foldl_defs_from (l : list (string * StructInfo)) (acc : string) :
  foldl (λ acc entry, acc +:+ Def entry.2 +:+ newline +:+ newline) acc l
  = acc +:+
    foldl (λ acc entry, acc +:+ Def entry.2 +:+ newline +:+ newline) "" l.
Proof.
  revert acc. induction l as [|entry l IH]; intros acc; cbn [foldl].
  - by rewrite append_nil_r.
  - rewrite IH. rewrite (IH ("" +:+ _)).
    by rewrite append_nil_l, !append_assoc.
Qed.

Lemma within_refl (piece : string) : within piece piece.
Proof. exists "", "". by rewrite append_nil_l, append_nil_r. Qed.

Lemma within_append_r (a s piece : string) :
  within piece s → within piece (a +:+ s).
Proof.
  intros (b & c & ->). exists (a +:+ b), c. by rewrite !append_assoc.
Qed.

Lemma within_append_l (s a piece : string) :
  within piece s → within piece (s +:+ a).
Proof.
  intros (b & c & ->). exists b, (c +:+ a). by rewrite !append_assoc.
Qed.

Lemma allDefs_contains (g : gmap string StructInfo) (name : string)
    (info : StructInfo) :
  g !! name = Some info →
  within (Def info +:+ newline +:+ newline) (allDefs g).
Proof.
  intros Hin. apply elem_of_range_order in Hin.
  apply list_elem_of_split in Hin as (l1 & l2 & Hl).
  unfold allDefs. rewrite Hl, foldl_app. cbn [foldl snd].
  rewrite (foldl_defs_from l2).
  apply within_append_l, within_append_r, within_refl.
Qed.

(** X11. The prompt holds the printed definition of every record of
    the graph, nested or not, each followed by an empty line, and names
    the requested record between quotes. *)
Theorem buildPrompt_contents (structName : string)
    (g : gmap string StructInfo) :
  within (dquote +:+ structName +:+ dquote) (buildPrompt structName g)
  ∧ ∀ name info, g !! name = Some info →
      within (Def info +:+ newline +:+ newline) (buildPrompt structName g).
Proof.
  unfold buildPrompt, lines. cbn [String.concat]. split.
  - do 8 apply within_append_r. apply within_append_l.
    apply within_append_r.
    exists "", ". ". by rewrite append_nil_l, !append_assoc.
  - intros name info Hin.
    do 4 apply within_append_r. apply within_append_l.
    by apply (allDefs_contains g name).
Qed.

End PromptFacts.


(* ===================================================================== *)
(** * Further facts: the pipeline driver *)
(* ===================================================================== *)

Section DriverMore.
Context `{MapRange} `{GoSyntax} `{GoStrings.Unicode} `{Backend} `{JSON}
        `{Exporter}.

Lemma exports_cons (ev : Event) (tr : list Event) :
  exports (ev :: tr) = (if isSaveToExcel ev then 1 else 0) + exports tr.
Proof.
  unfold exports. rewrite filter_cons.
  destruct (isSaveToExcel ev); by case_decide.
Qed.

Lemma exports_app (a b : list Event) : exports (a ++ b) = exports a + exports b.
Proof. unfold exports. by rewrite filter_app, length_app. Qed.

Lemma pending_cons (name : string) (info : StructInfo)
    (todo : list (string * StructInfo)) :
  pending ((name, info) :: todo)
  = (if IsNested info then 0 else 1) + pending todo.
Proof.
  unfold pending. rewrite filter_cons. cbn.
  destruct (IsNested info); by case_decide.
Qed.

Lemma generation_no_export (prompt : string) (generation : list Event) :
  Forall (generationEvent prompt) generation →
  exports generation = 0
  ∧ ∀ n rows path, EvSaveToExcel n rows path ∉ generation.
Proof.
  induction 1 as [|ev l Hev _ [IH1 IH2]].
  - split; [done |]. intros n rows path Hin. by apply not_elem_of_nil in Hin.
  - split.
    + rewrite exports_cons, IH1. by destruct ev.
    + intros n rows path [<- | Hin]%elem_of_cons; [done |]. by eapply IH2.
Qed.

(** What the driver does for one record that is not nested. *)
Lemma handled_summary (outputDir : string) (g : gmap string StructInfo)
    (structName : string) (before segment : list Event) :
  handled outputDir g structName before segment →
  1 ≤ backendCalls segment ≤ 2
  ∧ exports segment ≤ 1
  ∧ ∀ n rows path, EvSaveToExcel n rows path ∈ segment →
      n = structName
      ∧ path = filepath_Join outputDir (structName +:+ "_output.xlsx")
      ∧ 25 ≤ length rows ≤ 30
      ∧ ∀ row, row ∈ rows → accepted g structName row.
Proof.
  intros (out & generation & Hrun & Hgen & _ & Hsegment).
  assert (Hcalls : 1 ≤ backendCalls generation ≤ 2).
  { destruct (GenerateData_shape structName g
                (before ++ [EvLog (LogProcessing structName)]))
      as (logs & Hlogs & _ & [(? & _ & Htr) | (? & _ & Htr)]);
      destruct (backendCalls_logs logs Hlogs) as [Hzero _];
      rewrite Hrun in Htr; cbn [snd] in Htr; apply app_inv_head in Htr;
      subst generation.
    - rewrite backendCalls_cons, Hzero. cbn. lia.
    - rewrite backendCalls_app, Hzero, !backendCalls_cons. cbn. lia. }
  destruct (generation_no_export _ _ Hgen) as [Hexports Hnone].
  destruct out as [rows|e|]; [| | done].
  - cbn zeta in Hsegment. subst segment.
    rewrite backendCalls_cons, exports_cons, backendCalls_app, exports_app.
    rewrite Hexports, !backendCalls_cons, !exports_cons. cbn.
    split; [lia |]. split; [lia |].
    intros n rows' path [[=] | Hin]%elem_of_cons.
    apply elem_of_app in Hin as [Hin | Hin]; [by apply Hnone in Hin |].
    apply elem_of_cons in Hin as [[= -> -> ->] | Hin].
    2: { apply elem_of_cons in Hin as [[=] | Hin].
         by apply not_elem_of_nil in Hin. }
    destruct (GenerateData_Ok_reply _ _ _ _ _ Hrun)
      as (content & ? & _ & Hcheck & _).
    apply checkRows_Ok in Hcheck as (_ & Hlen & Hvalid).
    split; [done |]. split; [done |]. split; [done |].
    intros row Hin. by eapply validateRows_None_accepted.
  - subst segment.
    rewrite backendCalls_cons, exports_cons, backendCalls_app, exports_app.
    rewrite Hexports, !backendCalls_cons, !exports_cons. cbn.
    split; [lia |]. split; [lia |].
    intros n rows' path [[=] | Hin]%elem_of_cons.
    apply elem_of_app in Hin as [Hin | Hin]; [by apply Hnone in Hin |].
    apply elem_of_cons in Hin as [[=] | Hin].
    by apply not_elem_of_nil in Hin.
Qed.

Lemma processStructs_summary (outputDir : string)
    (g : gmap string StructInfo) (todo : list (string * StructInfo))
    (tr : list Event) :
  ∃ new,
    processStructs outputDir g todo tr = (Ok tt, tr ++ new)
    ∧ pending todo ≤ backendCalls new ≤ 2 * pending todo
    ∧ exports new ≤ pending todo
    ∧ ∀ n rows path, EvSaveToExcel n rows path ∈ new →
        (∃ info, (n, info) ∈ todo ∧ IsNested info = false)
        ∧ path = filepath_Join outputDir (n +:+ "_output.xlsx")
        ∧ 25 ≤ length rows ≤ 30
        ∧ ∀ row, row ∈ rows → accepted g n row.
Proof.
  revert tr. induction todo as [|[name info] todo IH]; intros tr.
  - exists []. rewrite app_nil_r. split; [done |]. split; [done |].
    split; [done |]. intros n rows path Hin. by apply not_elem_of_nil in Hin.
  - destruct (processStructs_turn outputDir g name info todo tr)
      as (segment & Hturn & Hsegment).
    destruct (IH (tr ++ segment)) as (new & Hrest & Hcalls & Hexports & Hrows).
    exists (segment ++ new). rewrite Hturn, Hrest, <- app_assoc.
    rewrite pending_cons, backendCalls_app, exports_app.
    split; [done |].
    destruct (IsNested info) eqn:Enested.
    + subst segment. rewrite backendCalls_cons, exports_cons.
      change (backendCalls []) with 0. change (exports []) with 0.
      cbn [isGenerateContent isSaveToExcel app].
      split; [lia |]. split; [lia |].
      intros n rows path [[=] | Hin]%elem_of_cons.
      destruct (Hrows n rows path Hin) as ((i & Hi & Hi') & Hrest').
      split; [| done]. exists i. split; [by right | done].
    + destruct (handled_summary _ _ _ _ _ Hsegment) as (Hc & He & Hr).
      split; [lia |]. split; [lia |].
      intros n rows path [Hin | Hin]%elem_of_app.
      * destruct (Hr n rows path Hin) as (-> & Hrest').
        split; [| done]. exists info. split; [left | done].
      * destruct (Hrows n rows path Hin) as ((i & Hi & Hi') & Hrest').
        split; [| done]. exists i. split; [by right | done].
Qed.

Lemma forEach_logPrintf (logs : list LogMsg) (tr : list Event) :
  forEach logPrintf logs tr = (tt, tr ++ (EvLog <$> logs)).
Proof.
  revert tr. induction logs as [|msg logs IH]; intros tr; cbn.
  - unfold mret, M_ret. by rewrite app_nil_r.
  - unfold mbind, M_bind, logPrintf, emit. rewrite IH.
    by rewrite <- app_assoc.
Qed.

(** The extractor reads the file once and otherwise only logs. *)
Lemma extractStructDefs_events (inputPath : string) (tr : list Event) :
  ∃ logs,
    (extractStructDefs inputPath tr).2
    = tr ++ EvParseFile inputPath :: (EvLog <$> logs).
Proof.
  unfold extractStructDefs, mbind, M_bind, mret, M_ret, emit.
  destruct (ParseFile inputPath) as [err|decls].
  - by exists [].
  - destruct (firstPass decls) as [g0 logs]. rewrite forEach_logPrintf.
    exists logs. rewrite <- app_assoc. by case_bool_decide.
Qed.

(** X12. [ProcessModel] returns an error exactly when the extraction
    fails; it then has read the file and written log lines, and has
    neither called the backend nor the exporter.  When the extraction
    yields a graph the run ends without an error, whatever happens to the
    single records. *)
Theorem ProcessModel_error_is_extraction (inputPath outputDir : string)
    (tr : list Event) :
  let start := tr ++ [EvLog (LogProcessingFile inputPath)] in
  (∀ e, (extractStructDefs inputPath start).1 = inl e →
     ∃ logs,
       ProcessModel inputPath outputDir tr
       = (Err (ExtractFailed e),
          start ++ EvParseFile inputPath :: (EvLog <$> logs)))
  ∧ (∀ g, (extractStructDefs inputPath start).1 = inr g →
       (ProcessModel inputPath outputDir tr).1 = Ok tt).
Proof.
  intros start.
  destruct (extractStructDefs_events inputPath start) as (logs & Hevents).
  unfold ProcessModel, mbind, M_bind, mret, M_ret, logPrintf, emit.
  fold start.
  destruct (extractStructDefs inputPath start) as [[e|g] tr1]; cbn in *.
  - split; [| done]. intros e' [= <-]. exists logs. by rewrite Hevents.
  - split; [done |]. intros g' [= <-].
    destruct (processStructs_summary outputDir g (range_order g) tr1)
      as (new & -> & _). done.
Qed.

(** X13. Once the graph is extracted, the events of [ProcessModel]
    split into one stretch per record, in the order of the iteration.
    The stretch of a record flagged nested holds no call of the backend
    and no export.  The stretch of any other record holds one or two
    calls of the backend, all with the prompt of that record, and at
    most one export, of that record.  In total, with [n] records that
    are not nested, there are between [n] and [2 n] calls and at most
    [n] exports. *)
Theorem ProcessModel_calls_bounded (inputPath outputDir : string)
    (g : gmap string StructInfo) (tr tr1 : list Event) :
  extractStructDefs inputPath (tr ++ [EvLog (LogProcessingFile inputPath)])
  = (inr g, tr1) →
  ∃ segments,
    ProcessModel inputPath outputDir tr = (Ok tt, tr1 ++ mjoin segments)
    ∧ Forall2
        (λ (entry : string * StructInfo) (segment : list Event),
           if IsNested entry.2
           then backendCalls segment = 0 ∧ exports segment = 0
           else 1 ≤ backendCalls segment ≤ 2
                ∧ exports segment ≤ 1
                ∧ ∀ ev, ev ∈ segment →
                    isGenerateContent ev = true
                    ∨ (∃ n r p, ev = EvSaveToExcel n r p) →
                    eventFor g entry.1 ev)
        (range_order g) segments
    ∧ pending (range_order g) ≤ backendCalls (mjoin segments)
      ≤ 2 * pending (range_order g)
    ∧ exports (mjoin segments) ≤ pending (range_order g).
Proof.
  intros Hextract.
  destruct (processStructs_segments outputDir g (range_order g) tr1)
    as (segments & Hsegments & Hlen & Hturns).
  destruct (processStructs_summary outputDir g (range_order g) tr1)
    as (new & Hrun & Hcalls & Hexports & _).
  assert (new = mjoin segments) as ->.
  { rewrite Hsegments in Hrun. injection Hrun as Hrun.
    by apply app_inv_head in Hrun. }
  exists segments. split; [| split; [| done]].
  - unfold ProcessModel, mbind, M_bind, logPrintf, emit.
    by rewrite Hextract.
  - apply Forall2_same_length_lookup. split; [done |].
    intros i entry segment Hentry Hsegment.
    specialize (Hturns i entry segment Hentry Hsegment).
    destruct (IsNested entry.2); [by subst segment |].
    destruct (handled_summary _ _ _ _ _ Hturns) as (Hc & He & _).
    split; [done |]. split; [done |].
    intros ev Hev Hkind. by eapply handled_events.
Qed.

(** X14. Whatever the driver hands to the exporter has passed the
    checks: the rows belong to a record of the graph that is not flagged
    nested, there are between 25 and 30 of them, each is accepted by the
    schema check for that record, and the file is named after the record
    inside the output directory. *)
Theorem ProcessModel_exports_checked_rows (inputPath outputDir : string)
    (g : gmap string StructInfo) (tr tr1 : list Event) :
  extractStructDefs inputPath (tr ++ [EvLog (LogProcessingFile inputPath)])
  = (inr g, tr1) →
  ∃ new,
    ProcessModel inputPath outputDir tr = (Ok tt, tr1 ++ new)
    ∧ ∀ n rows path, EvSaveToExcel n rows path ∈ new →
        (∃ info, g !! n = Some info ∧ IsNested info = false)
        ∧ path = filepath_Join outputDir (n +:+ "_output.xlsx")
        ∧ 25 ≤ length rows ≤ 30
        ∧ ∀ row, row ∈ rows → accepted g n row.
Proof.
  intros Hextract.
  destruct (processStructs_summary outputDir g (range_order g) tr1)
    as (new & Hrun & _ & _ & Hrows).
  exists new. split.
  - unfold ProcessModel, mbind, M_bind, logPrintf, emit.
    by rewrite Hextract.
  - intros n rows path Hin.
    destruct (Hrows n rows path Hin) as ((info & Hi & Hflag) & Hrest).
    split; [| done]. exists info. by rewrite <- elem_of_range_order.
Qed.

End DriverMore.


(* ===================================================================== *)
(** * Further facts: the deterministic strategy *)
(* ===================================================================== *)

Section DeterministicMore.
Context `{MapRange} `{GoFakeIt} `{Clock}.
Import GoStrings.

Ltac run_gen' :=
  unfold mbind, Gen_bind, mret, Gen_ret, draw, sliced in *.

(** A step of the generator adds at most the wire name of its field,
    and only for a field it knows how to fill. *)
Lemma genField_keys (g : gmap string StructInfo) (row row' : GeneratedRow)
    (f : string) (fi : FieldInfo) (rng rng' : Rng) (k : string) :
  genField g row (f, fi) rng = Some (row', rng') →
  is_Some (row' !! k) →
  is_Some (row !! k) ∨ (k = wireName f fi ∧ generatedField f fi).
Proof.
  unfold genField, generatedField. cbn [fst snd]. run_gen'.
  repeat case_bool_decide.
  - destruct (genPhone g rng) as [[nested0 rng0]|]; [| done].
    intros [= <- <-]. rewrite lookup_insert_is_Some.
    intros [<- | [_ ?]]; [right | by left]. split; [done | by left].
  - destruct (Name rng). intros [= <- <-]. rewrite lookup_insert_is_Some.
    intros [<- | [_ ?]]; [right | by left]. split; [done | right].
    subst f. set_solver.
  - destruct (RandomString _ rng). intros [= <- <-].
    rewrite lookup_insert_is_Some.
    intros [<- | [_ ?]]; [right | by left]. split; [done | right].
    subst f. set_solver.
  - destruct (UUID rng). intros [= <- <-]. rewrite lookup_insert_is_Some.
    intros [<- | [_ ?]]; [right | by left]. split; [done | right].
    subst f. set_solver.
  - destruct (Number _ _ rng). intros [= <- <-].
    rewrite lookup_insert_is_Some.
    intros [<- | [_ ?]]; [right | by left]. split; [done | right].
    subst f. set_solver.
  - intros [= <- <-]. by left.
Qed.

Lemma genRow_keys (g : gmap string StructInfo) (row : GeneratedRow)
    (rng rng' : Rng) (k : string) :
  genRow g rng = Some (row, rng') →
  is_Some (row !! k) →
  ∃ f fi, Fields (lookupStruct g "Customer") !! f = Some fi ∧
          k = wireName f fi ∧ generatedField f fi.
Proof.
  unfold genRow.
  apply (foldGen_inv
           (λ row, is_Some (row !! k) →
                   ∃ f fi, Fields (lookupStruct g "Customer") !! f = Some fi ∧
                           k = wireName f fi ∧ generatedField f fi)).
  - intros acc [f fi] r acc' r' Hacc Hin Hstep Hk.
    apply elem_of_range_order in Hin.
    destruct (genField_keys _ _ _ _ _ _ _ k Hstep Hk) as [Hold | [-> Hgen]];
      [by apply Hacc | by exists f, fi].
  - rewrite lookup_empty. by intros [? ?].
Qed.

Lemma genRows_S (g : gmap string StructInfo) (count : nat) (rng : Rng) :
  genRows g (S count) rng
  = match genRow g rng with
    | Some (row, rng1) =>
        match genRows g count rng1 with
        | Some (rows, rng2) => Some (row :: rows, rng2)
        | None => None
        end
    | None => None
    end.
Proof.
  cbn [genRows]. run_gen'. destruct (genRow g rng) as [[row rng1]|]; [| done].
  by destruct (genRows g count rng1) as [[rows rng2]|].
Qed.

Lemma genRows_inv (P : GeneratedRow → Prop) (g : gmap string StructInfo) :
  (∀ row rng rng', genRow g rng = Some (row, rng') → P row) →
  ∀ count rows rng rng',
    genRows g count rng = Some (rows, rng') → Forall P rows.
Proof.
  intros HP. induction count as [|count IH]; intros rows rng rng'.
  - cbn. run_gen'. intros [= <- <-]. constructor.
  - rewrite genRows_S.
    destruct (genRow g rng) as [[row rng1]|] eqn:Erow; [| done].
    destruct (genRows g count rng1) as [[rows' rng2]|] eqn:Erows; [| done].
    intros [= <- <-]. constructor; [by eapply HP | by eapply IH].
Qed.

Lemma validateCustomerField_row (g : gmap string StructInfo) (i : nat)
    (row : GeneratedRow) (entry : string * FieldInfo) (e : CustomerError) :
  validateCustomerField g i row entry = Some e → customerErrorRow e = i + 1.
Proof.
  unfold validateCustomerField. cbn zeta.
  destruct (row !! _) as [value|]; [| by intros [= <-]].
  case_bool_decide; [| done].
  destruct value; try by intros [= <-].
  intros (x & _ & Hx)%firstError_Some. cbn in Hx.
  destruct (_ !! _); [done | by injection Hx as <-].
Qed.

(** A first row the check refuses ends the run with an error that
    names row 1. *)
Lemma generateCustomer_first_row (g : gmap string StructInfo) :
  (∀ row rng rng', genRow g rng = Some (row, rng') →
                   is_Some (validateCustomerRow g 0 row)) →
  generateCustomer g = Panic
  ∨ ∃ e, generateCustomer g = Err e ∧ customerErrorRow e = 1.
Proof.
  intros Hrefused. unfold generateCustomer.
  destruct (genRows g 30 (Seed UnixNano)) as [[rows rng']|] eqn:Erows;
    [| by left].
  right. change 30 with (S 29) in Erows. rewrite genRows_S in Erows.
  destruct (genRow g (Seed UnixNano)) as [[row rng1]|] eqn:Erow; [| done].
  destruct (genRows g 29 rng1) as [[rows' rng2]|]; [| done].
  injection Erows as <- <-. cbn [validateCustomerFrom].
  destruct (Hrefused _ _ _ Erow) as [e He]. rewrite He. exists e.
  split; [done |].
  apply firstError_Some in He as (entry & _ & Hentry).
  by apply validateCustomerField_row in Hentry.
Qed.

(** X15. The generator fills only the fields of type [Phone] and the
    fields named Name, Type, CustomerID and TaxIdNumber.  If the
    [Customer] record has any other field, under a wire name that no
    filled field shares, no run returns rows: the run panics or ends
    with an error about row 1. *)
Theorem generateCustomer_unhandled_field (g : gmap string StructInfo)
    (f : string) (fi : FieldInfo) :
  Fields (lookupStruct g "Customer") !! f = Some fi →
  (∀ f' fi', Fields (lookupStruct g "Customer") !! f' = Some fi' →
             wireName f' fi' = wireName f fi → ¬ generatedField f' fi') →
  generateCustomer g = Panic
  ∨ ∃ e, generateCustomer g = Err e ∧ customerErrorRow e = 1.
Proof.
  intros Hf Hunique. apply generateCustomer_first_row.
  intros row rng rng' Hrow.
  apply (firstError_is_Some _ _ (f, fi)); [by apply elem_of_range_order |].
  unfold validateCustomerField. cbn zeta. cbn [fst snd].
  destruct (row !! wireName f fi) as [value|] eqn:Ek; [| by eexists].
  destruct (genRow_keys g row rng rng' (wireName f fi) Hrow)
    as (f' & fi' & Hf' & Hwire & Hgen); [by eexists |].
  by destruct (Hunique f' fi' Hf' (eq_sym Hwire)).
Qed.

(** The keys of a phone object are wire names of the subfields [p1]
    and [p2]. *)
Lemma genPhone_keys (g : gmap string StructInfo)
    (nested : gmap string Value) (rng rng' : Rng) (k : string) :
  genPhone g rng = Some (nested, rng') →
  is_Some (nested !! k) →
  ∃ nf nfi, Fields (lookupStruct g "Phone") !! nf = Some nfi ∧
            k = wireName nf nfi ∧ (nf = "p1" ∨ nf = "p2").
Proof.
  unfold genPhone.
  apply (foldGen_inv
           (λ nested, is_Some (nested !! k) →
              ∃ nf nfi, Fields (lookupStruct g "Phone") !! nf = Some nfi ∧
                        k = wireName nf nfi ∧ (nf = "p1" ∨ nf = "p2"))).
  - intros acc [nf nfi] r acc' r' Hacc Hin Hstep Hk.
    apply elem_of_range_order in Hin.
    unfold genPhoneField in Hstep. cbn [fst snd] in Hstep. run_gen'.
    repeat case_bool_decide.
    + destruct (PhoneFormatted r) as [phone r1]. cbn in Hstep.
      destruct (sliceTo phone 2); [| done]. injection Hstep as <- <-.
      apply lookup_insert_is_Some in Hk as [<- | [_ Hk]]; [| by apply Hacc].
      exists nf, nfi. split_and!; [done.. | by left].
    + destruct (PhoneFormatted r) as [phone r1]. cbn in Hstep.
      destruct (sliceFrom phone 3); [| done]. injection Hstep as <- <-.
      apply lookup_insert_is_Some in Hk as [<- | [_ Hk]]; [| by apply Hacc].
      exists nf, nfi. split_and!; [done.. | by right].
    + injection Hstep as <- <-. by apply Hacc.
  - rewrite lookup_empty. by intros [? ?].
Qed.

(** X16. The phone object holds values for the subfields [p1] and [p2]
    only.  If the [Customer] record has a field of type [Phone] and the
    [Phone] record has any other subfield, under a wire name that [p1]
    and [p2] do not use, no run returns rows: the check at the end asks
    for every subfield, also one tagged omitempty. *)
Theorem generateCustomer_unhandled_subfield (g : gmap string StructInfo)
    (f : string) (fi : FieldInfo) (nf : string) (nfi : FieldInfo) :
  Fields (lookupStruct g "Customer") !! f = Some fi →
  Type_ fi = "Phone" →
  Fields (lookupStruct g "Phone") !! nf = Some nfi →
  (∀ nf' nfi', Fields (lookupStruct g "Phone") !! nf' = Some nfi' →
               wireName nf' nfi' = wireName nf nfi →
               nf' ≠ "p1" ∧ nf' ≠ "p2") →
  generateCustomer g = Panic
  ∨ ∃ e, generateCustomer g = Err e ∧ customerErrorRow e = 1.
Proof.
  intros Hf Hty Hnf Hunique. apply generateCustomer_first_row.
  intros row rng rng' Hrow.
  apply (firstError_is_Some _ _ (f, fi)); [by apply elem_of_range_order |].
  unfold validateCustomerField. cbn zeta. cbn [fst snd].
  destruct (row !! wireName f fi) as [value|] eqn:Ek; [| by eexists].
  rewrite bool_decide_eq_true_2 by done.
  destruct value as [| | | | |nested]; try by eexists.
  destruct (genRow_objects g row rng rng' Hrow _ _ Ek) as (r & r' & Hphone).
  apply (firstError_is_Some _ _ (nf, nfi)); [by apply elem_of_range_order |].
  cbn. destruct (nested !! wireName nf nfi) eqn:En; [| by eexists].
  destruct (genPhone_keys g nested r r' (wireName nf nfi) Hphone)
    as (nf' & nfi' & Hnf' & Hwire & Hp); [by eexists |].
  destruct (Hunique nf' nfi' Hnf' (eq_sym Hwire)) as [? ?].
  by destruct Hp.
Qed.

(** X17. Without a [Customer] record the generator has no field to
    fill and none to check: it returns thirty empty rows. *)
Theorem generateCustomer_without_customer (g : gmap string StructInfo) :
  g !! "Customer" = None →
  generateCustomer g = Ok (replicate 30 ∅).
Proof.
  intros Hnone.
  assert (Hfields : range_order (Fields (lookupStruct g "Customer")) = []).
  { unfold lookupStruct. rewrite Hnone. cbn.
    apply Permutation_nil_r. rewrite range_order_perm.
    by rewrite map_to_list_empty. }
  assert (Hrow : ∀ rng, genRow g rng = Some (∅, rng)).
  { intros rng. unfold genRow. by rewrite Hfields. }
  assert (Hrows : ∀ count rng,
             genRows g count rng = Some (replicate count ∅, rng)).
  { induction count as [|count IH]; intros rng; [done |].
    by rewrite genRows_S, Hrow, IH. }
  unfold generateCustomer. rewrite Hrows.
  assert (Hvalid : ∀ rows start, validateCustomerFrom g start rows = None).
  { induction rows as [|row rows IH]; intros start; [done |]. cbn.
    unfold validateCustomerRow. rewrite Hfields. cbn. apply IH. }
  by rewrite Hvalid.
Qed.

(** X18. The rows of a successful run hold exactly the wire names of
    the fields of the [Customer] record: every key of a row is the wire
    name of a field, and every wire name is a key. *)
Theorem generateCustomer_row_keys (g : gmap string StructInfo)
    (rows : list GeneratedRow) :
  generateCustomer g = Ok rows →
  ∀ row, row ∈ rows →
    ∀ k, is_Some (row !! k) ↔
         ∃ f fi, Fields (lookupStruct g "Customer") !! f = Some fi ∧
                 k = wireName f fi.
Proof.
  intros [[rng' Hrows] Hvalid]%generateCustomer_Ok row Hin k. split.
  - apply (genRows_inv
             (λ row, is_Some (row !! k) →
                ∃ f fi, Fields (lookupStruct g "Customer") !! f = Some fi ∧
                        k = wireName f fi) g) in Hrows.
    + rewrite Forall_forall in Hrows. by apply Hrows.
    + intros r rng rng1 Hr Hk.
      destruct (genRow_keys g r rng rng1 k Hr Hk) as (f & fi & ? & ? & _).
      by exists f, fi.
  - intros (f & fi & Hf & ->).
    apply list_elem_of_lookup_1 in Hin as [i Hi].
    pose proof (validateCustomerFrom_None g rows 0 Hvalid i row Hi) as Hrow.
    destruct (validateCustomerRow_None g (0 + i) row f fi Hrow Hf)
      as (value & -> & _).
    by eexists.
Qed.

End DeterministicMore.

(* ===================================================================== *)
(** * Further facts: the callers *)
(* ===================================================================== *)

Section LiftFacts.

Lemma innerEvents_app (a b : list TopEvent) :
  innerEvents (a ++ b) = innerEvents a ++ innerEvents b.
Proof. apply omap_app. Qed.

Lemma innerEvents_inner (l : list Event) : innerEvents (EvInner <$> l) = l.
Proof.
  induction l as [|ev l IH]; [done |].
  rewrite fmap_cons. unfold innerEvents in *. cbn [omap list_omap].
  by rewrite IH.
Qed.

Lemma parsedFiles_app (a b : list Event) :
  parsedFiles (a ++ b) = parsedFiles a ++ parsedFiles b.
Proof. apply omap_app. Qed.

Lemma parsedFiles_cons (ev : Event) (tr : list Event) :
  parsedFiles (ev :: tr)
  = match ev with EvParseFile path => [path] | _ => [] end ++ parsedFiles tr.
Proof. by destruct ev. Qed.

Lemma parsedFiles_logs (logs : list LogMsg) : parsedFiles (EvLog <$> logs) = [].
Proof.
  induction logs as [|msg logs IH]; [done |].
  by rewrite fmap_cons, parsedFiles_cons, IH.
Qed.

(** A called function that extends the events it is given extends the
    caller's events by the same stretch. *)
Lemma liftM_extends {A} (m : M A) (tr : list TopEvent) (a : A)
    (new : list Event) :
  m (innerEvents tr) = (a, innerEvents tr ++ new) →
  liftM m tr = (a, tr ++ (EvInner <$> new)).
Proof. intros Hm. unfold liftM. rewrite Hm. by rewrite drop_app_length. Qed.

End LiftFacts.

Section FolderFacts.
Context `{MapRange} `{GoSyntax} `{GoStrings.Unicode} `{Backend} `{JSON}
        `{Exporter} `{FileSystem}.

Lemma generation_not_parsed (prompt : string) (generation : list Event) :
  Forall (generationEvent prompt) generation → parsedFiles generation = [].
Proof.
  induction 1 as [|ev l Hev _ IH]; [done |].
  rewrite parsedFiles_cons, IH. by destruct ev.
Qed.

Lemma processStructs_parsed (outputDir : string)
    (g : gmap string StructInfo) (todo : list (string * StructInfo))
    (tr : list Event) :
  ∃ new, processStructs outputDir g todo tr = (Ok tt, tr ++ new)
         ∧ parsedFiles new = [].
Proof.
  revert tr. induction todo as [|[name info] todo IH]; intros tr.
  - exists []. by rewrite app_nil_r.
  - destruct (processStructs_turn outputDir g name info todo tr)
      as (segment & Hturn & Hsegment).
    destruct (IH (tr ++ segment)) as (new & Hrest & Hparsed).
    exists (segment ++ new). rewrite Hturn, Hrest, <- app_assoc.
    split; [done |]. rewrite parsedFiles_app, Hparsed, app_nil_r.
    destruct (IsNested info); [by subst segment |].
    destruct Hsegment as (out & generation & _ & Hgen & _ & Hsegment).
    apply generation_not_parsed in Hgen.
    destruct out as [rows|e|]; [| | done]; cbn zeta in Hsegment;
      subst segment; cbn; by rewrite parsedFiles_app, Hgen.
Qed.

(** [ProcessModel] does not panic and reads one file, its own. *)
Lemma ProcessModel_parsed (inputPath outputDir : string) (tr : list Event) :
  ∃ new,
    (ProcessModel inputPath outputDir tr).2 = tr ++ new
    ∧ (ProcessModel inputPath outputDir tr).1 ≠ Panic
    ∧ parsedFiles new = [inputPath].
Proof.
  destruct (extractStructDefs_events inputPath
              (tr ++ [EvLog (LogProcessingFile inputPath)]))
    as (logs & Hevents).
  unfold ProcessModel, mbind, M_bind, mret, M_ret, logPrintf, emit.
  destruct (extractStructDefs inputPath _) as [[e|g] tr1]; cbn in Hevents;
    subst tr1.
  - eexists. rewrite <- app_assoc. split; [done |]. split; [done |].
    cbn. by rewrite parsedFiles_logs.
  - destruct (processStructs_parsed outputDir g (range_order g)
                ((tr ++ [EvLog (LogProcessingFile inputPath)]) ++
                 EvParseFile inputPath :: (EvLog <$> logs)))
      as (new & -> & Hparsed).
    eexists. rewrite <- !app_assoc. split; [done |]. split; [done |].
    cbn. by rewrite parsedFiles_app, parsedFiles_logs, Hparsed.
Qed.

Lemma countGoFiles_length (files : list DirEntry) :
  countGoFiles files = length (filter (λ file, isGoFile file = true) files).
Proof.
  unfold countGoFiles.
  assert (Hgen : ∀ n,
    foldl (λ goFiles file, if isGoFile file then S goFiles else goFiles) n files
    = n + length (filter (λ file, isGoFile file = true) files)).
  { induction files as [|file files IH]; intros n; cbn [foldl].
    - cbn. lia.
    - rewrite IH, filter_cons.
      destruct (isGoFile file); case_decide; try done; cbn; lia. }
  apply Hgen.
Qed.

Lemma countGoFiles_zero (files : list DirEntry) :
  countGoFiles files = 0 ↔ ∀ file, file ∈ files → isGoFile file = false.
Proof.
  rewrite countGoFiles_length, length_zero_iff_nil. split.
  - intros Hnil file Hin. destruct (isGoFile file) eqn:E; [| done].
    assert (Hf : file ∈ filter (λ file, isGoFile file = true) files)
      by by apply list_elem_of_filter.
    rewrite Hnil in Hf. by apply not_elem_of_nil in Hf.
  - intros Hall.
    destruct (filter (λ file, isGoFile file = true) files) as [|file l] eqn:E;
      [done |].
    assert (Hf : file ∈ filter (λ file, isGoFile file = true) files)
      by (rewrite E; left).
    apply list_elem_of_filter in Hf as [Hgo Hin].
    by rewrite (Hall file Hin) in Hgo.
Qed.

(** The processing loop ends without an error and reads the Go files
    of the directory, in the order of the directory. *)
Lemma processFiles_parsed (inputDir outputDir : string)
    (files : list DirEntry) (tr : list TopEvent) :
  ∃ new,
    processFiles inputDir outputDir files tr = (Ok tt, tr ++ new)
    ∧ parsedFiles (innerEvents new)
      = (λ file, filepath_Join inputDir (entryName file))
          <$> filter (λ file, isGoFile file = true) files.
Proof.
  revert tr. induction files as [|file files IH]; intros tr.
  - exists []. by rewrite app_nil_r.
  - cbn [processFiles]. rewrite filter_cons.
    destruct (isGoFile file) eqn:Ego.
    2: { rewrite decide_False by done. apply IH. }
    rewrite decide_True by done.
    destruct (ProcessModel_parsed (filepath_Join inputDir (entryName file))
                outputDir (innerEvents tr)) as (inner & Htr & Hok & Hparsed).
    unfold mbind, T_bind.
    rewrite (liftM_extends _ tr
               (ProcessModel (filepath_Join inputDir (entryName file))
                  outputDir (innerEvents tr)).1 inner).
    2: { rewrite <- Htr. by destruct (ProcessModel _ _ _). }
    destruct (ProcessModel _ _ _).1 as [[]|e|]; [| | done].
    + destruct (IH (tr ++ (EvInner <$> inner))) as (new & -> & Hnew).
      exists ((EvInner <$> inner) ++ new). rewrite <- app_assoc.
      split; [done |].
      rewrite innerEvents_app, innerEvents_inner, parsedFiles_app.
      by rewrite Hparsed, Hnew.
    + unfold tlog, temit.
      destruct (IH ((tr ++ (EvInner <$> inner)) ++
                    [EvTopLog (LogFileError (entryName file) e)]))
        as (new & -> & Hnew).
      exists ((EvInner <$> inner) ++
              EvTopLog (LogFileError (entryName file) e) :: new).
      rewrite <- !app_assoc. split; [done |].
      rewrite innerEvents_app, innerEvents_inner, parsedFiles_app.
      change (innerEvents (EvTopLog (LogFileError (entryName file) e) :: new))
        with (innerEvents new).
      by rewrite Hparsed, Hnew.
Qed.

(** X19. [ProcessInputFolder] returns nil exactly when the input
    directory exists, the output directory can be created, and the input
    directory can be read and holds an entry that is not a directory and
    whose name ends in .go; what then happens to the single files does
    not matter.  It does not panic, and when it returns an error no file
    has been processed. *)
Theorem ProcessInputFolder_outcome (inputDir outputDir : string)
    (tr : list TopEvent) :
  ∃ new,
    (ProcessInputFolder inputDir outputDir tr).2 = tr ++ new
    ∧ (ProcessInputFolder inputDir outputDir tr).1 ≠ Panic
    ∧ ((ProcessInputFolder inputDir outputDir tr).1 = Ok tt ↔
       Stat_IsNotExist inputDir = false ∧ MkdirAll outputDir = None ∧
       ∃ files file, ReadDir inputDir = inr files ∧ file ∈ files ∧
                     isGoFile file = true)
    ∧ ((ProcessInputFolder inputDir outputDir tr).1 ≠ Ok tt →
       innerEvents new = []).
Proof.
  unfold ProcessInputFolder, mbind, T_bind, mret, T_ret, tlog, temit.
  destruct (Stat_IsNotExist inputDir).
  { eexists. rewrite <- app_assoc. split; [done |]. split; [done |].
    split; [| done]. split; [done | by intros [? _]]. }
  destruct (MkdirAll outputDir) as [err|].
  { eexists. rewrite <- !app_assoc. split; [done |]. split; [done |].
    split; [| done]. split; [done | by intros (_ & ? & _)]. }
  destruct (ReadDir inputDir) as [err|files].
  { eexists. rewrite <- !app_assoc. split; [done |]. split; [done |].
    split; [| done]. split; [done | by intros (_ & _ & ? & ? & ? & _)]. }
  cbn zeta. case_bool_decide as Hcount.
  { eexists. rewrite <- !app_assoc. split; [done |]. split; [done |].
    split; [| done]. split; [done |].
    intros (_ & _ & files' & file & [= <-] & Hin & Hgo).
    rewrite countGoFiles_zero in Hcount. by rewrite (Hcount file Hin) in Hgo. }
  match goal with |- context [processFiles _ _ _ ?t] =>
    destruct (processFiles_parsed inputDir outputDir files t)
      as (new & -> & _) end.
  eexists. rewrite <- !app_assoc. split; [done |]. split; [done |].
  split; [| done]. split; [| done]. intros _.
  split; [done |]. split; [done |].
  destruct (decide (Forall (λ file, isGoFile file = false) files))
    as [Hall | Hsome].
  - destruct Hcount. apply countGoFiles_zero. by apply Forall_forall.
  - apply not_Forall_Exists in Hsome; [| apply _].
    apply Exists_exists in Hsome as (file & Hin & Hgo).
    exists files, file. split; [done |]. split; [done |].
    cbn in Hgo. by destruct (isGoFile file).
Qed.

(** X20. When the directory is read and holds Go files, the files
    handed to the parser are exactly the entries that are not
    directories and whose names end in .go, joined to the input
    directory, in the order of the directory, each one once: a file
    whose processing fails does not stop the others. *)
Theorem ProcessInputFolder_files (inputDir outputDir : string)
    (files : list DirEntry) (tr : list TopEvent) :
  Stat_IsNotExist inputDir = false →
  MkdirAll outputDir = None →
  ReadDir inputDir = inr files →
  countGoFiles files ≠ 0 →
  ∃ new,
    ProcessInputFolder inputDir outputDir tr = (Ok tt, tr ++ new)
    ∧ EvTopLog (LogFound (length (filter (λ file, isGoFile file = true)
                                         files))) ∈ new
    ∧ parsedFiles (innerEvents new)
      = (λ file, filepath_Join inputDir (entryName file))
          <$> filter (λ file, isGoFile file = true) files.
Proof.
  intros Hstat Hmkdir Hread Hcount.
  unfold ProcessInputFolder, mbind, T_bind, mret, T_ret, tlog, temit.
  rewrite Hstat, Hmkdir, Hread. cbn zeta.
  rewrite bool_decide_eq_false_2 by done.
  match goal with |- context [processFiles _ _ _ ?t] =>
    destruct (processFiles_parsed inputDir outputDir files t)
      as (new & -> & Hparsed) end.
  eexists. rewrite <- !app_assoc. split; [done |]. split.
  - rewrite <- countGoFiles_length. set_solver.
  - rewrite !innerEvents_app, !parsedFiles_app. by rewrite Hparsed.
Qed.

End FolderFacts.

Section CustomerDriverFacts.
Context `{MapRange} `{GoSyntax} `{GoFakeIt} `{Clock} `{Exporter}.

Lemma liftM_extract (inputPath : string) (tr : list TopEvent) :
  ∃ logs,
    liftM (extractStructDefs inputPath) tr
    = ((extractStructDefs inputPath (innerEvents tr)).1,
       tr ++ (EvInner <$> EvParseFile inputPath :: (EvLog <$> logs))).
Proof.
  destruct (extractStructDefs_events inputPath (innerEvents tr))
    as (logs & Hevents).
  exists logs. apply liftM_extends. rewrite <- Hevents.
  by destruct (extractStructDefs inputPath (innerEvents tr)).
Qed.

Lemma liftM_SaveToExcel (structName : string) (rows : list GeneratedRow)
    (outputPath : string) (tr : list TopEvent) :
  liftM (SaveToExcel structName rows outputPath) tr
  = (SaveToExcel_result (innerEvents tr) structName rows outputPath,
     tr ++ [EvInner (EvSaveToExcel structName rows outputPath)]).
Proof.
  by apply (liftM_extends _ tr _ [EvSaveToExcel structName rows outputPath]).
Qed.

Lemma not_elem_of_inner_logs (ev : Event) (logs : list LogMsg) :
  (∀ msg, ev ≠ EvLog msg) → EvInner ev ∉ (EvInner <$> (EvLog <$> logs)).
Proof.
  intros Hev (ev' & [= <-] & (msg & -> & _)%list_elem_of_fmap)%list_elem_of_fmap.
  by eapply Hev.
Qed.

Lemma exports_logs (logs : list LogMsg) : exports (EvLog <$> logs) = 0.
Proof.
  induction logs as [|msg logs IH]; [done |].
  by rewrite fmap_cons, exports_cons, IH.
Qed.

(** X21. [processCustomer] calls the exporter at most once, and only
    with the thirty rows that [generateCustomer] returned for the graph
    extracted from the file, which holds a [Customer] record; the file is
    Customer_output.xlsx in the output directory.  A run that returns nil
    has called the exporter and logged the file.  A graph without a
    [Customer] record ends the run with an error of its own, before
    anything is generated. *)
Theorem processCustomer_exports (inputPath outputDir : string)
    (tr : list TopEvent) :
  let start := tr ++ [EvTopLog (LogProcessingCustomer inputPath)] in
  let extracted := (extractStructDefs inputPath (innerEvents start)).1 in
  let outputPath := filepath_Join outputDir "Customer_output.xlsx" in
  ∃ new,
    (processCustomer inputPath outputDir tr).2 = tr ++ new
    ∧ exports (innerEvents new) ≤ 1
    ∧ (∀ n rows path, EvInner (EvSaveToExcel n rows path) ∈ new →
         n = "Customer" ∧ path = outputPath ∧ length rows = 30 ∧
         ∃ g, extracted = inr g ∧ is_Some (g !! "Customer") ∧
              generateCustomer g = Ok rows)
    ∧ ((processCustomer inputPath outputDir tr).1 = Ok tt →
         exports (innerEvents new) = 1 ∧
         (∃ rows, EvInner (EvSaveToExcel "Customer" rows outputPath) ∈ new) ∧
         EvInner (EvLog (LogGenerated outputPath)) ∈ new)
    ∧ ((processCustomer inputPath outputDir tr).1
       = Err (CustomerNotFound inputPath) ↔
       ∃ g, extracted = inr g ∧ g !! "Customer" = None).
Proof.
  intros start extracted outputPath.
  unfold processCustomer, mbind, T_bind, mret, T_ret, tlog, temit.
  fold start. destruct (liftM_extract inputPath start) as (logs & ->).
  fold extracted.
  set (opening := EvTopLog (LogProcessingCustomer inputPath)
                  :: (EvInner <$> EvParseFile inputPath :: (EvLog <$> logs))).
  assert (Hnone : ∀ n rows path, EvInner (EvSaveToExcel n rows path) ∉ opening).
  { intros n rows path [[=] | Hin]%elem_of_cons.
    rewrite fmap_cons in Hin. apply elem_of_cons in Hin as [[=] | Hin].
    by apply not_elem_of_inner_logs in Hin. }
  assert (Hzero : exports (innerEvents opening) = 0).
  { unfold opening.
    change (innerEvents (EvTopLog (LogProcessingCustomer inputPath)
                         :: (EvInner <$> EvParseFile inputPath
                                         :: (EvLog <$> logs))))
      with (innerEvents (EvInner <$> EvParseFile inputPath
                                     :: (EvLog <$> logs))).
    by rewrite innerEvents_inner, exports_cons, exports_logs. }
  assert (Hstart : ∀ rest, (start ++ (EvInner <$> EvParseFile inputPath
                                        :: (EvLog <$> logs))) ++ rest
                           = tr ++ opening ++ rest).
  { intros rest. unfold start, opening. by rewrite <- !app_assoc. }
  assert (Hstart0 : start ++ (EvInner <$> EvParseFile inputPath
                                :: (EvLog <$> logs)) = tr ++ opening).
  { unfold start, opening. by rewrite <- !app_assoc. }
  destruct extracted as [e|g] eqn:Eextract.
  { exists opening. rewrite Hstart0, Hzero. split; [done |].
    split; [lia |].
    split; [intros n rows path Hin; by apply Hnone in Hin |].
    split; [done |]. split; [done | by intros (g & [=] & _)]. }
  destruct (g !! "Customer") as [info|] eqn:Ecustomer.
  2: { exists opening. rewrite Hstart0, Hzero. split; [done |].
       split; [lia |].
       split; [intros n rows path Hin; by apply Hnone in Hin |].
       split; [done |]. split; [by exists g | done]. }
  destruct (generateCustomer g) as [rows|e|] eqn:Egen.
  2, 3: exists opening; rewrite Hstart0, Hzero; (split; [done |]);
    (split; [lia |]);
    (split; [intros n rows path Hin; by apply Hnone in Hin |]);
    (split; [done |]); (split; [done |]);
    intros (g' & [= <-] & Hg'); congruence.
  rewrite liftM_SaveToExcel. fold outputPath.
  assert (Hrows : length rows = 30).
  { apply generateCustomer_Ok in Egen as [[rng' Hgen] _].
    by apply genRows_rows in Hgen as [? _]. }
  set (export := EvInner (EvSaveToExcel "Customer" rows outputPath)).
  assert (Hone : exports (innerEvents (opening ++ [export])) = 1).
  { by rewrite innerEvents_app, exports_app, Hzero. }
  destruct (SaveToExcel_result _ "Customer" rows outputPath) as [err|].
  - exists (opening ++ [export]). rewrite Hstart, Hone.
    split; [done |]. split; [lia |]. split.
    + intros n rows' path Hin.
      apply elem_of_app in Hin as [Hin | Hin]; [by apply Hnone in Hin |].
      apply list_elem_of_singleton in Hin as [= -> -> ->].
      split_and!; [done.. |]. exists g. by rewrite Ecustomer.
    + split; [done |]. split; [done |].
      intros (g' & [= <-] & Hg'). congruence.
  - unfold liftM, logPrintf, emit. cbn [fst snd].
    rewrite drop_app_length, Hstart.
    exists (opening ++ [export]
                    ++ [EvInner (EvLog (LogGenerated outputPath))]).
    rewrite <- !app_assoc. split; [done |].
    assert (Htwo : exports (innerEvents
                     (opening ++ [export]
                        ++ [EvInner (EvLog (LogGenerated outputPath))])) = 1).
    { by rewrite innerEvents_app, exports_app, Hzero. }
    rewrite Htwo. split; [lia |]. split.
    + intros n rows' path Hin.
      apply elem_of_app in Hin as [Hin | Hin]; [by apply Hnone in Hin |].
      apply elem_of_cons in Hin as [[= -> -> ->] | Hin].
      * split_and!; [done.. |]. exists g. by rewrite Ecustomer.
      * by apply list_elem_of_singleton in Hin.
    + split.
      * intros _. split; [done |].
        split; [exists rows |]; apply elem_of_app; right; set_solver.
      * split; [done |]. intros (g' & [= <-] & Hg'). congruence.
Qed.

End CustomerDriverFacts.

(* ===================================================================== *)
(** * Further facts: what [SaveToExcel] writes *)
(* ===================================================================== *)

Module ExcelFacts.
Import excel.

Section Cells.
Context `{MapRange} `{Library}.

Lemma elem_of_dataCell (structName : string) (rowIdx : nat)
    (row : GeneratedRow) (colIdx : nat) (header : string)
    (sh cell : string) (v : CellValue) :
  EvSetCellValue sh cell v ∈ dataCell structName rowIdx row colIdx header ↔
  sh = sheet ∧ cell = columnName colIdx +:+ pretty (rowIdx + 2) ∧
  ∃ value, row !! header = Some value ∧ cellOf value = Some v.
Proof.
  unfold dataCell. cbn zeta.
  destruct (row !! header) as [value|].
  2: { split; [by intros ?%not_elem_of_nil | by intros (_ & _ & ? & ? & _)]. }
  assert (Hvalue : ∀ P : Prop,
            (P ↔ sh = sheet ∧
                 cell = columnName colIdx +:+ pretty (rowIdx + 2) ∧
                 cellOf value = Some v) →
            (P ↔ sh = sheet ∧
                 cell = columnName colIdx +:+ pretty (rowIdx + 2) ∧
                 ∃ value', Some value = Some value' ∧ cellOf value' = Some v)).
  { intros P ->. split.
    - intros (? & ? & ?). split_and!; [done.. |]. by exists value.
    - by intros (? & ? & ? & [= <-] & ?). }
  apply Hvalue. unfold cellOf.
  destruct value as [| | | | |m]; [| | | | | destruct (Marshal m)];
    rewrite list_elem_of_singleton;
    (split; [intros [= -> -> ->]; done | intros (-> & -> & [= <-]); done]).
Qed.

Lemma elem_of_dataCells (structName : string) (headers : list string)
    (rows : list GeneratedRow) (ev : SheetEvent) :
  ev ∈ dataCells structName headers rows ↔
  ∃ rowIdx row colIdx header,
    rows !! rowIdx = Some row ∧ headers !! colIdx = Some header ∧
    ev ∈ dataCell structName rowIdx row colIdx header.
Proof.
  unfold dataCells. rewrite list_elem_of_join. split.
  - intros (l & Hev & (rowIdx & row & -> & Hrow)%elem_of_lookup_imap).
    apply list_elem_of_join in Hev
      as (l & Hev & (colIdx & header & -> & Hheader)%elem_of_lookup_imap).
    by exists rowIdx, row, colIdx, header.
  - intros (rowIdx & row & colIdx & header & Hrow & Hheader & Hev).
    eexists. split; [| by apply elem_of_lookup_imap_2].
    apply list_elem_of_join. eexists. split; [done |].
    by apply (elem_of_lookup_imap_2 (dataCell structName rowIdx row)).
Qed.

(** X22. What [SaveToExcel] writes when there are rows: the columns are
    the keys of the first row, in the order its map yields them; row 1
    holds the keys; the cell of column [col] in row [rowIdx + 2] holds
    the value that row [rowIdx] has under the key of that column, a
    nested object as its JSON text.  Nothing else is written: a key that
    the first row lacks is never exported, a row that lacks a key leaves
    its cell untouched, and so does an object that cannot be encoded. *)
Theorem SaveToExcel_cells (structName : string) (first : GeneratedRow)
    (rest : list GeneratedRow) (outputPath : string) :
  let rows := first :: rest in
  let headers := (range_order first).*1 in
  (∀ key, key ∈ headers ↔ is_Some (first !! key))
  ∧ NoDup headers
  ∧ ∀ sh cell v,
      EvSetCellValue sh cell v ∈ (SaveToExcel structName rows outputPath).2 ↔
      sh = "Sheet1" ∧
      ∃ col header, headers !! col = Some header ∧
        ((cell = columnName col +:+ "1" ∧ v = CellString header)
         ∨ ∃ rowIdx row value,
             rows !! rowIdx = Some row ∧ row !! header = Some value ∧
             cell = columnName col +:+ pretty (rowIdx + 2) ∧
             cellOf value = Some v).
Proof.
  cbn zeta. set (headers := (range_order first).*1).
  split; [intros key; apply elem_of_range_keys |].
  split; [apply NoDup_range_keys |].
  intros sh cell v. unfold SaveToExcel. cbn zeta. fold headers.
  cbn [snd]. unfold headerCells.
  rewrite !elem_of_app, elem_of_lookup_imap, elem_of_dataCells.
  split.
  - intros [[Hin | [Hin | [Hin | Hin]]] | Hin].
    + repeat (apply elem_of_cons in Hin as [[=] | Hin]).
      by apply not_elem_of_nil in Hin.
    + destruct Hin as (col & header & [= -> -> ->] & Hheader).
      split; [done |]. exists col, header. split; [done | by left].
    + destruct Hin as (rowIdx & row & col & header & Hrow & Hheader & Hin).
      apply elem_of_dataCell in Hin as (-> & -> & value & Hvalue & Hcell).
      split; [done |]. exists col, header. split; [done |]. right.
      by exists rowIdx, row, value.
    + by apply list_elem_of_singleton in Hin.
    + repeat (apply elem_of_cons in Hin as [[=] | Hin]).
      by apply not_elem_of_nil in Hin.
  - intros (-> & col & header & Hheader
            & [[-> ->] | (rowIdx & row & value & Hrow & Hvalue & -> & Hcell)]).
    + left. right. left. by exists col, header.
    + left. right. right. left. exists rowIdx, row, col, header.
      split; [done |]. split; [done |]. apply elem_of_dataCell.
      split; [done |]. split; [done |]. by exists value.
Qed.

(** X23. Without rows [SaveToExcel] returns its own error and neither
    writes a cell nor saves a file; with rows it logs, asks the workbook
    to be saved once, after everything was written, and returns what
    that call answers.  In both cases the workbook is closed last. *)
Theorem SaveToExcel_outcome (structName : string)
    (rows : list GeneratedRow) (outputPath : string) :
  let run := SaveToExcel structName rows outputPath in
  (run.1 = Some (NoData structName) ↔ rows = [])
  ∧ (EvSaveAs outputPath ∈ run.2 ↔ rows ≠ [])
  ∧ (rows = [] → ∀ sh cell v, EvSetCellValue sh cell v ∉ run.2)
  ∧ (rows ≠ [] →
     ∃ written,
       run.2 = written ++ [EvSaveAs outputPath; EvClose] ∧
       run.1 = SaveAsFailed <$> SaveAs written outputPath ∧
       EvSaveAs outputPath ∉ written)
  ∧ last run.2 = Some EvClose.
Proof.
  destruct rows as [|first rest]; cbn zeta.
  - split; [done |]. split.
    { split; [| done]. cbn. intros Hin.
      repeat (apply elem_of_cons in Hin as [[=] | Hin]).
      by apply not_elem_of_nil in Hin. }
    split.
    { intros _ sh cell v Hin. cbn in Hin.
      repeat (apply elem_of_cons in Hin as [[=] | Hin]).
      by apply not_elem_of_nil in Hin. }
    split; [done | done].
  - unfold SaveToExcel. cbn zeta. cbn [fst snd].
    split.
    { split; [| done]. by destruct (SaveAs _ outputPath). }
    split.
    { split; [done |]. intros _. apply elem_of_app. right. left. }
    split; [done |]. split.
    + intros _. eexists. split; [done |]. split; [done |].
      unfold headerCells.
  rewrite !elem_of_app, elem_of_lookup_imap, elem_of_dataCells.
      intros [Hin | [Hin | [Hin | Hin]]].
      * repeat (apply elem_of_cons in Hin as [[=] | Hin]).
        by apply not_elem_of_nil in Hin.
      * by destruct Hin as (? & ? & [=] & _).
      * destruct Hin as (rowIdx & row & col & header & _ & _ & Hin).
        unfold dataCell in Hin. cbn zeta in Hin.
        destruct (row !! header) as [[| | | | |m]|];
          try destruct (Marshal m);
          first [by apply list_elem_of_singleton in Hin
                | by apply not_elem_of_nil in Hin].
      * by apply list_elem_of_singleton in Hin.
    + by rewrite last_app.
Qed.

End Cells.

Lemma int32_small (z : Z) : (0 ≤ z < 2 ^ 31)%Z → int32 z = z.
Proof. intros Hz. unfold int32. rewrite Z.mod_small; lia. Qed.

Lemma runeString_ascii (r : Z) :
  (0 ≤ r < 128)%Z → runeString r = String (byte r) "".
Proof.
  intros Hr. unfold runeString.
  destruct (r <? 0)%Z eqn:E1; [lia |].
  destruct (1114111 <? r)%Z eqn:E2; [lia |].
  destruct (55296 <=? r)%Z eqn:E3; [lia |]. cbn.
  destruct (r <? 128)%Z eqn:E4; [done | lia].
Qed.

Lemma runeString_long (r : Z) :
  (128 ≤ r)%Z → ∃ b1 b2 s, runeString r = String b1 (String b2 s).
Proof.
  intros Hr. unfold runeString.
  destruct (_ || _ || _); [by eexists _, _, _ |].
  destruct (r <? 128)%Z eqn:E1; [lia |].
  destruct (r <? 2048)%Z; [by eexists _, _, _ |].
  destruct (r <? 65536)%Z; by eexists _, _, _.
Qed.

Lemma N_of_byte (z : Z) : (0 ≤ z < 256)%Z → N_of_ascii (byte z) = Z.to_N z.
Proof. intros Hz. unfold byte. apply N_ascii_embedding. lia. Qed.

(** X24. The name of a column is a capital letter exactly for the first
    26 columns: from the 27th key on, the cells are addressed with bytes
    that follow Z in the code table, such as the bracket, and not with
    the two-letter names of a spreadsheet. *)
Theorem columnName_letter (col : nat) :
  (Z.of_nat col < 2 ^ 31 - 65)%Z →
  isColumnLetter (columnName col) = true ↔ col < 26.
Proof.
  intros Hcol. unfold columnName. rewrite int32_small by lia.
  destruct (decide (65 + Z.of_nat col < 128)%Z) as [Hsmall | Hlarge].
  - rewrite runeString_ascii by lia. cbn [isColumnLetter].
    rewrite N_of_byte by lia. rewrite andb_true_iff, N.leb_le, N.leb_le.
    lia.
  - destruct (runeString_long (65 + Z.of_nat col)) as (b1 & b2 & s & ->);
      [lia |].
    cbn. split; [done | lia].
Qed.

(** X25. Within the first 63 columns no two cells share a name: the
    name determines the column and the row, and a cell of the header
    row, which is row 1, is never one of the data rows, which start at
    row 2. *)
Theorem cell_names_distinct (col1 col2 row1 row2 : nat) :
  col1 < 63 → col2 < 63 →
  columnName col1 +:+ pretty row1 = columnName col2 +:+ pretty row2 →
  col1 = col2 ∧ row1 = row2.
Proof.
  intros Hcol1 Hcol2. unfold columnName.
  rewrite !int32_small by lia. rewrite !runeString_ascii by lia.
  rewrite !GoStringsFacts.append_cons, !GoStringsFacts.append_nil_l.
  intros [= Hbyte Hrow]. split.
  - apply (f_equal N_of_ascii) in Hbyte. rewrite !N_of_byte in Hbyte by lia.
    lia.
  - by apply (inj pretty).
Qed.

End ExcelFacts.

(* ===================================================================== *)
(** * Further examples and instances *)
(* ===================================================================== *)

Module MoreChecks.
Import GoStrings Examples MoreExamples.

(** Decide an equation between closed terms by evaluation. *)
Ltac by_evaluation :=
  intros;
  lazymatch goal with
  | |- @eq ?T ?x ?y => vm_cast_no_check (@eq_refl T y)
  end.

Lemma extractStructDefs_keys_witness :
  @ParseFile orderSyntax "order.go" = inr orderDecls
  ∧ ∀ g, (@extractStructDefs listedRange orderSyntax "order.go" []).1 = inr g →
      ∀ name, is_Some (g !! name)
              ↔ name ∈ (@printedStructs orderSyntax orderDecls).*1.
Proof.
  split; [reflexivity |]. intros g Hg.
  exact (proj1 (proj2 (proj2 (@extractStructDefs_keys listedRange orderSyntax
                                "order.go" [] orderDecls eq_refl)) g Hg)).
Defined.

(** The tag [json:"ext,omitempty" xml:"e"] of a field [Ext]. *)
Lemma jsonTagOf_json_key_first_witness :
  let more := " xml:" +:+ dquote +:+ "e" +:+ dquote in
  hasByte "`" ("ext" +:+ ",omitempty" +:+ more) = false
  ∧ hasByte ":" ("ext" +:+ ",omitempty") = false
  ∧ hasByte "034" ("ext" +:+ ",omitempty") = false
  ∧ hasByte "," "ext" = false
  ∧ firstByte ",omitempty" = Some ","%char
  ∧ jsonTagOf "Ext"
      (Some ("`json:" +:+ dquote +:+ "ext" +:+ ",omitempty" +:+
             dquote +:+ more +:+ "`"))
    = "ext".
Proof.
  cbn zeta. split_and!; [reflexivity.. |].
  apply (jsonTagOf_json_key_first "Ext" "ext" ",omitempty"
           (" xml:" +:+ dquote +:+ "e" +:+ dquote));
    [reflexivity.. | right; reflexivity].
Defined.

Lemma checkRows_unknown_struct_witness :
  orderGraph !! "Invoice" = None
  ∧ @validateRows listedRange orderGraph "Invoice" [rowWithoutId] = None.
Proof.
  split; [reflexivity |].
  apply (@checkRows_unknown_struct listedRange orderGraph "Invoice"
           [rowWithoutId]).
  reflexivity.
Defined.

Lemma validateRow_extra_keys_witness :
  goodRow ⊆ <["note" := VString "paid"]> goodRow
  ∧ @validateRow listedRange orderGraph "Order" 0 goodRow = None
  ∧ @validateRow listedRange orderGraph "Order" 7
      (<["note" := VString "paid"]> goodRow) = None.
Proof.
  assert (Hsub : goodRow ⊆ <["note" := VString "paid"]> goodRow)
    by (apply insert_subseteq; vm_compute; reflexivity).
  assert (Hrow : @validateRow listedRange orderGraph "Order" 0 goodRow = None)
    by (vm_compute; reflexivity).
  split; [exact Hsub |]. split; [exact Hrow |].
  exact (@validateRow_extra_keys listedRange orderGraph "Order" 0 7 goodRow
           (<["note" := VString "paid"]> goodRow) Hsub Hrow).
Defined.

(** A run in which the backend answers at once and the decoder yields
    25 good rows. *)
Lemma orderRun :
  @GenerateData listedRange asciiText (replyBackend "[]")
    (rowsJSON (replicate 25 goodRow)) "Order" orderGraph []
  = (Ok (replicate 25 goodRow),
     [EvGenerateContent (@buildPrompt listedRange "Order" orderGraph);
      EvLog (LogRawResponse "Order" "[]"); EvLog (LogCleaned "Order" "[]")]).
Proof. by_evaluation. Qed.

Lemma GenerateData_returns_checked_rows_witness :
  @GenerateData listedRange asciiText (replyBackend "[]")
    (rowsJSON (replicate 25 goodRow)) "Order" orderGraph []
  = (Ok (replicate 25 goodRow),
     [EvGenerateContent (@buildPrompt listedRange "Order" orderGraph);
      EvLog (LogRawResponse "Order" "[]"); EvLog (LogCleaned "Order" "[]")])
  ∧ 25 ≤ length (replicate 25 goodRow) ≤ 30
  ∧ ∀ row, row ∈ replicate 25 goodRow → accepted orderGraph "Order" row.
Proof.
  split; [exact orderRun |].
  destruct (@GenerateData_returns_checked_rows listedRange asciiText
              (replyBackend "[]") (rowsJSON (replicate 25 goodRow))
              "Order" orderGraph [] _ _ orderRun) as (Hlen & Hacc & _).
  split; [exact Hlen | exact Hacc].
Defined.

(** A bare object between a blank and a line break. *)
Lemma sanitize_wraps_unbracketed_witness :
  @sanitize asciiText (" " +:+ "{}" +:+ newline) = "[" +:+ "{}" +:+ "]".
Proof.
  apply (@sanitize_wraps_unbracketed asciiText " " "{}" newline "{" "}");
    first [reflexivity | discriminate].
Defined.

Lemma ProcessModel_calls_bounded_witness :
  let tr := [EvLog (LogProcessingFile "order.go"); EvParseFile "order.go"] in
  @extractStructDefs listedRange orderSyntax "order.go"
    ([] ++ [EvLog (LogProcessingFile "order.go")])
  = (inr orderGraph, tr)
  ∧ ∃ segments,
      @ProcessModel listedRange orderSyntax asciiText flakyBackend
        (rowsJSON []) quietExporter "order.go" "output" []
      = (Ok tt, tr ++ mjoin segments)
      ∧ Forall2
          (λ (entry : string * StructInfo) (segment : list Event),
             if IsNested entry.2
             then backendCalls segment = 0 ∧ exports segment = 0
             else 1 ≤ backendCalls segment ≤ 2 ∧ exports segment ≤ 1)
          (@range_order listedRange _ orderGraph) segments.
Proof.
  cbn zeta. split; [vm_compute; reflexivity |].
  destruct (@ProcessModel_calls_bounded listedRange orderSyntax asciiText
              flakyBackend (rowsJSON []) quietExporter "order.go" "output"
              orderGraph []
              [EvLog (LogProcessingFile "order.go"); EvParseFile "order.go"])
    as (segments & Hrun & Hturns & _).
  - vm_compute; reflexivity.
  - exists segments. split; [exact Hrun |].
    eapply Forall2_impl; [exact Hturns |].
    clear. intros entry segment. cbv beta.
    destruct (IsNested entry.2); [exact (λ Hn, Hn) |].
    intros (Hc & He & _). split; [exact Hc | exact He].
Defined.

Lemma ProcessModel_exports_checked_rows_witness :
  @extractStructDefs listedRange orderSyntax "order.go"
    ([] ++ [EvLog (LogProcessingFile "order.go")])
  = (inr orderGraph,
     [EvLog (LogProcessingFile "order.go"); EvParseFile "order.go"])
  ∧ ∃ new,
      @ProcessModel listedRange orderSyntax asciiText (replyBackend "[]")
        (rowsJSON (replicate 25 goodRow)) quietExporter "order.go" "output" []
      = (Ok tt,
         [EvLog (LogProcessingFile "order.go"); EvParseFile "order.go"]
           ++ new)
      ∧ ∀ n rows path, EvSaveToExcel n rows path ∈ new →
          (∃ info, orderGraph !! n = Some info ∧ IsNested info = false)
          ∧ path = @filepath_Join quietExporter "output" (n +:+ "_output.xlsx")
          ∧ 25 ≤ length rows ≤ 30
          ∧ ∀ row, row ∈ rows → accepted orderGraph n row.
Proof.
  split; [vm_compute; reflexivity |].
  apply (@ProcessModel_exports_checked_rows listedRange orderSyntax asciiText
           (replyBackend "[]") (rowsJSON (replicate 25 goodRow))
           quietExporter "order.go" "output" orderGraph []).
  vm_compute; reflexivity.
Defined.

Lemma email_not_generated :
  ∀ f' fi',
    Fields (lookupStruct customerWithEmail "Customer") !! f' = Some fi' →
    wireName f' fi' = wireName "Email" emailInfo → ¬ generatedField f' fi'.
Proof.
  intros f' fi' Hf. apply elem_of_map_to_list in Hf.
  vm_compute in Hf.
  repeat (apply elem_of_cons in Hf as [Hf | Hf];
          [injection Hf as -> ->; vm_compute; try discriminate |]).
  - intros _ [Hty | Hin]; [discriminate |].
    repeat (apply elem_of_cons in Hin as [Hin | Hin]; [discriminate |]).
    by apply not_elem_of_nil in Hin.
  - by apply not_elem_of_nil in Hf.
Qed.

Lemma generateCustomer_unhandled_field_witness :
  Fields (lookupStruct customerWithEmail "Customer") !! "Email"
  = Some emailInfo
  ∧ (@generateCustomer listedRange countingFaker fixedClock customerWithEmail
     = Panic
     ∨ ∃ e, @generateCustomer listedRange countingFaker fixedClock
              customerWithEmail = Err e ∧ customerErrorRow e = 1).
Proof.
  split; [vm_compute; reflexivity |].
  apply (@generateCustomer_unhandled_field listedRange countingFaker
           fixedClock customerWithEmail "Email" emailInfo).
  - vm_compute. reflexivity.
  - exact email_not_generated.
Defined.

Lemma ext_not_drawn :
  ∀ nf' nfi',
    Fields (lookupStruct customerWithExt "Phone") !! nf' = Some nfi' →
    wireName nf' nfi' = wireName "Ext" extInfo → nf' ≠ "p1" ∧ nf' ≠ "p2".
Proof.
  intros nf' nfi' Hf. apply elem_of_map_to_list in Hf.
  vm_compute in Hf.
  repeat (apply elem_of_cons in Hf as [Hf | Hf];
          [injection Hf as -> ->; vm_compute; try discriminate |]).
  - intros _. split; discriminate.
  - by apply not_elem_of_nil in Hf.
Qed.

Lemma generateCustomer_unhandled_subfield_witness :
  Fields (lookupStruct customerWithExt "Customer") !! "Phone" = Some phoneField
  ∧ Fields (lookupStruct customerWithExt "Phone") !! "Ext" = Some extInfo
  ∧ (@generateCustomer listedRange countingFaker fixedClock customerWithExt
     = Panic
     ∨ ∃ e, @generateCustomer listedRange countingFaker fixedClock
              customerWithExt = Err e ∧ customerErrorRow e = 1).
Proof.
  split; [vm_compute; reflexivity |]. split; [vm_compute; reflexivity |].
  apply (@generateCustomer_unhandled_subfield listedRange countingFaker
           fixedClock customerWithExt "Phone" phoneField "Ext" extInfo).
  - vm_compute. reflexivity.
  - reflexivity.
  - vm_compute. reflexivity.
  - exact ext_not_drawn.
Defined.

Lemma generateCustomer_without_customer_witness :
  orderGraph !! "Customer" = None
  ∧ @generateCustomer listedRange countingFaker fixedClock orderGraph
    = Ok (replicate 30 ∅).
Proof.
  split; [reflexivity |].
  apply (@generateCustomer_without_customer listedRange countingFaker
           fixedClock orderGraph).
  reflexivity.
Defined.

Lemma customerRun :
  @generateCustomer listedRange countingFaker fixedClock customerGraph
  = Ok customerRows.
Proof. by_evaluation. Qed.

Lemma generateCustomer_row_keys_witness :
  @generateCustomer listedRange countingFaker fixedClock customerGraph
  = Ok customerRows
  ∧ ∀ row, row ∈ customerRows →
      ∀ k, is_Some (row !! k) ↔
           ∃ f fi, Fields (lookupStruct customerGraph "Customer") !! f
                   = Some fi ∧ k = wireName f fi.
Proof.
  split; [exact customerRun |].
  exact (@generateCustomer_row_keys listedRange countingFaker fixedClock
           customerGraph customerRows customerRun).
Defined.

Lemma ProcessInputFolder_files_witness :
  ∃ new,
    @ProcessInputFolder listedRange mixedSyntax asciiText flakyBackend
      (rowsJSON []) quietExporter sampleDir "input" "output" []
    = (Ok tt, [] ++ new)
    ∧ parsedFiles (innerEvents new) = ["input/order.go"; "input/broken.go"].
Proof.
  destruct (@ProcessInputFolder_files listedRange mixedSyntax asciiText
              flakyBackend (rowsJSON []) quietExporter sampleDir
              "input" "output" _ [] eq_refl eq_refl eq_refl)
    as (new & Hrun & _ & Hparsed).
  - vm_compute. discriminate.
  - exists new. split; [exact Hrun |]. rewrite Hparsed.
    vm_compute. reflexivity.
Defined.

(** The generator on the schema with an [Email] field, and on the schema
    whose phone record has an [Ext] subfield. *)
Example generateCustomer_email :
  @generateCustomer listedRange countingFaker fixedClock customerWithEmail
  = Err (RowMissingField 1 "email")
  ∧ @generateCustomer listedRange countingFaker fixedClock customerWithExt
    = Err (RowMissingNestedField 1 "ext").
Proof. split; by_evaluation. Qed.

(** Two rows, the second without the key [amount] and with a key the
    first row lacks. *)
Example SaveToExcel_two_rows :
  @excel.SaveToExcel listedRange plainLibrary "Order" twoRows "out.xlsx"
  = (None,
     [excel.EvNewFile; excel.EvSetSheetName "Sheet1" "Sheet1";
      excel.EvSetCellValue "Sheet1" "A1" (excel.CellString "id");
      excel.EvSetCellValue "Sheet1" "B1" (excel.CellString "amount");
      excel.EvSetCellValue "Sheet1" "A2" (excel.CellString "A-1");
      excel.EvSetCellValue "Sheet1" "B2" (excel.CellNumber 3);
      excel.EvSetCellValue "Sheet1" "A3" (excel.CellString "A-2");
      excel.EvSaving "out.xlsx"; excel.EvSaveAs "out.xlsx"; excel.EvClose]).
Proof. vm_compute. reflexivity. Qed.

(** The 26th column is Z, the 27th is an opening bracket. *)
Example columnName_cases :
  excel.columnName 0 = "A" ∧ excel.columnName 25 = "Z"
  ∧ excel.columnName 26 = "[" ∧ excel.isColumnLetter (excel.columnName 26) = false.
Proof. split_and!; vm_compute; reflexivity. Qed.

Lemma columnName_letter_witness :
  (Z.of_nat 25 < 2 ^ 31 - 65)%Z
  ∧ excel.isColumnLetter (excel.columnName 25) = true.
Proof.
  split; [vm_compute; reflexivity |].
  apply (ExcelFacts.columnName_letter 25); [vm_compute; reflexivity | lia].
Defined.

(** The cells A11 and B1. *)
Lemma cell_names_distinct_witness :
  0 < 63 ∧ 1 < 63
  ∧ excel.columnName 0 +:+ pretty 11 ≠ excel.columnName 1 +:+ pretty 1.
Proof.
  split; [lia |]. split; [lia |]. intros Hsame.
  destruct (ExcelFacts.cell_names_distinct 0 1 11 1) as [Hcol _];
    [lia | lia | exact Hsame | discriminate Hcol].
Defined.

End MoreChecks.
